(** * Belaynishbot: the unified [/ai] command of [src/Index.js]

    A shallow embedding of the bot's command handler, its provider
    adapters and its conversation memory, followed by the properties
    proved about them.

    Conventions of the embedding.
    - A JavaScript string is a [string]: a sequence of code units below 256.
    - A JavaScript value that comes from JSON (an HTTP response body, a
      stored history) is a [json]; [undefined] is [None] of [option json].
      Numbers are the integer-valued ones ([Z]); as a text, an integer
      of [2^53] or more reads as the double nearest to it.
    - A coercion to a string that throws a [TypeError] is [None] of
      [option string], and a throwing step of a computation.
    - An [async] function that can reject is an [IO] computation: its
      outcome ([Returns] or [Throws]) together with the requests it made,
      in order.  The handler also threads the memory [store]. *)

From Stdlib Require Import ZArith Ascii String List Lia.
From Stdlib Require Import DecimalString DecimalZ DecimalPos DecimalN DecimalFacts.
From stdpp Require Import base option list strings gmap.

Local Open Scope string_scope.
Local Open Scope Z_scope.

(* ===================================================================== *)
(** ** Strings as the source uses them *)
(* ===================================================================== *)

Module JsString.

(** White space of [String.prototype.trim] among the code units below 256. *)
Definition is_ws (c : ascii) : bool :=
  let n := N_of_ascii c in
  ((9 <=? n) && (n <=? 13) || (n =? 32) || (n =? 160))%N.

Fixpoint trimStart (s : string) : string :=
  match s with
  | String c s' => if is_ws c then trimStart s' else s
  | EmptyString => EmptyString
  end.

Definition trimEnd (s : string) : string :=
  String.rev (trimStart (String.rev s)).

(** [s.trim()] *)
Definition trim (s : string) : string := trimEnd (trimStart s).

(** [s.split(' ')]: never the empty list; [''.split(' ')] is [['']]. *)
Fixpoint split_space (s : string) : list string :=
  match s with
  | EmptyString => [EmptyString]
  | String c s' =>
      if Ascii.eqb c " " then EmptyString :: split_space s'
      else match split_space s' with
           | h :: t => String c h :: t
           | [] => [String c EmptyString]
           end
  end.

(** [l.join(' ')] *)
Definition join_space (l : list string) : string := String.concat " " l.

(** [l.join(sep)] *)
Definition join (sep : string) (l : list string) : string := String.concat sep l.

Definition lower_char (c : ascii) : ascii :=
  let n := N_of_ascii c in
  if ((65 <=? n) && (n <=? 90) || (192 <=? n) && (n <=? 222) && negb (n =? 215))%N
  then ascii_of_N (n + 32) else c.

(** [s.toLowerCase()] *)
Fixpoint toLowerCase (s : string) : string :=
  match s with
  | EmptyString => EmptyString
  | String c s' => String (lower_char c) (toLowerCase s')
  end.

(** [s.slice(0, n)] for [n >= 0] *)
Fixpoint slice0 (n : nat) (s : string) : string :=
  match n, s with
  | S n', String c s' => String c (slice0 n' s')
  | _, _ => EmptyString
  end.

(** [s.replace(/\/$/, '')]: one trailing slash is dropped. *)
Fixpoint stripSlash (s : string) : string :=
  match s with
  | EmptyString => EmptyString
  | String c EmptyString => if Ascii.eqb c "/" then EmptyString else s
  | String c s' => String c (stripSlash s')
  end.

(** A JavaScript string is falsy exactly when it is empty. *)
Definition nonempty (s : string) : bool :=
  match s with EmptyString => false | _ => true end.

(** Decimal text of an integer, as [String(n)] gives it. *)
Definition of_Z (z : Z) : string := NilZero.string_of_int (Z.to_int z).

End JsString.
Import JsString.

(* ===================================================================== *)
(** ** JSON values and the JavaScript operations the source applies to them *)
(* ===================================================================== *)

Unset Elimination Schemes.
Inductive json : Type :=
| JNull
| JBool (b : bool)
| JNum (n : Z)
| JStr (s : string)
| JArr (items : list json)
| JObj (fields : list (string * json)).
Set Elimination Schemes.

(** Induction over a [json], with the nested lists opened up. *)
Section JsonInd.
Variable P : json -> Prop.
Hypothesis Hnull : P JNull.
Hypothesis Hbool : forall b, P (JBool b).
Hypothesis Hnum : forall n, P (JNum n).
Hypothesis Hstr : forall s, P (JStr s).
Hypothesis Harr : forall items, Forall P items -> P (JArr items).
Hypothesis Hobj : forall fields, Forall (fun kv => P (snd kv)) fields -> P (JObj fields).

Fixpoint json_ind (v : json) : P v :=
  match v with
  | JNull => Hnull
  | JBool b => Hbool b
  | JNum n => Hnum n
  | JStr s => Hstr s
  | JArr items =>
      Harr items
        ((fix go (l : list json) : Forall P l :=
            match l with
            | [] => List.Forall_nil P
            | x :: l' => List.Forall_cons P x l' (json_ind x) (go l')
            end) items)
  | JObj fields =>
      Hobj fields
        ((fix go (l : list (string * json)) : Forall (fun kv => P (snd kv)) l :=
            match l with
            | [] => List.Forall_nil _
            | kv :: l' => List.Forall_cons _ kv l' (json_ind (snd kv)) (go l')
            end) fields)
  end.
End JsonInd.

Module Js.

(** [!!v] *)
Definition truthy (v : json) : bool :=
  match v with
  | JNull => false
  | JBool b => b
  | JNum n => negb (n =? 0)
  | JStr s => nonempty s
  | JArr _ | JObj _ => true
  end.

(** Truthiness of a possibly [undefined] value. *)
Definition truthy_opt (v : option json) : bool :=
  match v with Some x => truthy x | None => false end.

Fixpoint assoc (k : string) (fields : list (string * json)) : option json :=
  match fields with
  | [] => None
  | (k', v) :: rest => if String.eqb k k' then Some v else assoc k rest
  end.

(** [v.k] on a value that is neither [null] nor [undefined]: an own
    property of an object, [length] of an array or a string, and
    [undefined] otherwise. *)
Definition get (v : json) (k : string) : option json :=
  match v with
  | JObj fields => assoc k fields
  | JArr items => if String.eqb k "length" then Some (JNum (Z.of_nat (List.length items))) else None
  | JStr s => if String.eqb k "length" then Some (JNum (Z.of_nat (String.length s))) else None
  | _ => None
  end.

(** [v?.k] *)
Definition get_opt (v : option json) (k : string) : option json :=
  match v with
  | Some JNull | None => None
  | Some x => get x k
  end.

(** [v[0]] on a value that is neither [null] nor [undefined]. *)
Definition index0 (v : json) : option json :=
  match v with
  | JArr items => head items
  | JStr (String c _) => Some (JStr (String c EmptyString))
  | JObj fields => assoc "0" fields
  | _ => None
  end.

(** [Array.isArray(v)] *)
Definition isArray (v : option json) : bool :=
  match v with Some (JArr _) => true | _ => false end.

(** The double nearest to an integer [n] of [2^53] or more, ties to the
    even significand: the significand [m], of 53 bits, and the exponent
    [e] of its last bit; the double is [m * 2^e]. *)
Definition nearest_double (n : Z) : Z * Z :=
  let e := Z.log2 n - 52 in
  let q := Z.shiftr n e in
  let r := n - Z.shiftl q e in
  let half := Z.shiftl 1 (e - 1) in
  let m := if (half <? r) || (r =? half) && Z.odd q then q + 1 else q in
  if m =? 2 ^ 53 then (2 ^ 52, e + 1) else (m, e).

(** The integer [v] reads back as the double [m * 2^e]: it is no
    farther from it than half the gap to the next double on that side,
    the bound itself included when [m] is even. *)
Definition reads_as (m e v : Z) : bool :=
  let d := m * 2 ^ e in
  let below := if m =? 2 ^ 52 then 2 ^ (e - 1) else 2 ^ e in
  let lo := 2 * d - below in
  let hi := 2 * d + 2 ^ e in
  if Z.even m then (lo <=? 2 * v) && (2 * v <=? hi)
  else (lo <? 2 * v) && (2 * v <? hi).

(** The shortest decimal that reads back as the double: its digits and
    the number [p] of zeros after them; of two multiples of [10^p] the
    nearer one, and the even one when they are as near. *)
Fixpoint shortest (p : nat) (m e : Z) : Z * nat :=
  let d := m * 2 ^ e in
  match p with
  | O => (d, O)
  | S p' =>
      let unit := 10 ^ Z.of_nat p in
      let c0 := d / unit * unit in
      let c1 := c0 + unit in
      let ok0 := (0 <? c0) && reads_as m e c0 in
      let ok1 := reads_as m e c1 in
      if ok0 && ok1 then
        (if d - c0 <? c1 - d then c0 / unit
         else if c1 - d <? d - c0 then c1 / unit
         else if Z.even (c0 / unit) then c0 / unit else c1 / unit, p)
      else if ok0 then (c0 / unit, p)
      else if ok1 then (c1 / unit, p)
      else shortest p' m e
  end.

Fixpoint zeros (p : nat) : string :=
  match p with O => EmptyString | S p' => String "0" (zeros p') end.

(** [Number.prototype.toString] on a positive integer: all the digits
    below [2^53]; from there on the digits of the nearest double that
    are needed to read it back, followed by zeros up to 21 digits and
    by an exponent beyond. *)
Definition positive_text (n : Z) : string :=
  if n <? 2 ^ 53 then of_Z n
  else
    let '(m, e) := nearest_double n in
    if 972 <=? e then "Infinity"
    else
      let '(s, p) := shortest (String.length (of_Z (m * 2 ^ e))) m e in
      let digits := of_Z s in
      let n10 := (String.length digits + p)%nat in
      if (n10 <=? 21)%nat then digits +:+ zeros p
      else
        match digits with
        | String c EmptyString => String c ("e+" +:+ of_Z (Z.of_nat n10 - 1))
        | String c rest => String c ("." +:+ rest +:+ "e+" +:+ of_Z (Z.of_nat n10 - 1))
        | EmptyString => EmptyString
        end.

(** [String(n)] for an integer-valued number. *)
Definition number_text (n : Z) : string :=
  if n <? 0 then String "-" (positive_text (- n)) else positive_text n.

(** The object has an own property [k]. *)
Definition has_own (k : string) (fields : list (string * json)) : bool :=
  match assoc k fields with Some _ => true | None => false end.

(** [String(v)] and the coercion of a template literal; [None] is the
    [TypeError] they throw.  An object parsed from JSON has no method of
    its own: an own [toString] hides the inherited one and cannot be
    called, and the inherited [valueOf] returns the object itself, so
    that the object has no primitive value.  An array is joined with
    commas, [null] counting as the empty string, and has a text when
    each of its elements has one. *)
Fixpoint toString (v : json) : option string :=
  match v with
  | JNull => Some "null"
  | JBool true => Some "true"
  | JBool false => Some "false"
  | JNum n => Some (number_text n)
  | JStr s => Some s
  | JArr items =>
      match
        (fix go (l : list json) : option (list string) :=
           match l with
           | [] => Some []
           | x :: l' =>
               match (match x with JNull => Some EmptyString | _ => toString x end), go l' with
               | Some s, Some ss => Some (s :: ss)
               | _, _ => None
               end
           end) items
      with
      | Some texts => Some (join "," texts)
      | None => None
      end
  | JObj fields => if has_own "toString" fields then None else Some "[object Object]"
  end.

Definition toString_opt (v : option json) : option string :=
  match v with Some x => toString x | None => Some "undefined" end.

End Js.

(* ===================================================================== *)
(** ** [JSON.stringify] *)
(* ===================================================================== *)

Module Json.

(** The double quote, code unit 34. *)
Definition dquote : ascii := ascii_of_N 34.

Definition hex_digit (n : N) : ascii :=
  if (n <? 10)%N then ascii_of_N (48 + n) else ascii_of_N (87 + n).

(** The escape of one code unit inside a string literal. *)
Definition escape_char (c : ascii) : string :=
  let n := N_of_ascii c in
  if (n =? 34)%N then String "\" (String dquote EmptyString)
  else if (n =? 92)%N then "\\"
  else if (n =? 8)%N then "\b"
  else if (n =? 12)%N then "\f"
  else if (n =? 10)%N then "\n"
  else if (n =? 13)%N then "\r"
  else if (n =? 9)%N then "\t"
  else if (n <? 32)%N then
    String "\" (String "u" (String "0" (String "0"
      (String (hex_digit (n / 16)) (String (hex_digit (n mod 16)) EmptyString)))))
  else String c EmptyString.

Fixpoint escape (s : string) : string :=
  match s with
  | EmptyString => EmptyString
  | String c s' => escape_char c +:+ escape s'
  end.

Definition quote (s : string) : string :=
  String dquote (escape s +:+ String dquote EmptyString).

(** [JSON.stringify(v)] without indentation. *)
Fixpoint stringify (v : json) : string :=
  match v with
  | JNull => "null"
  | JBool true => "true"
  | JBool false => "false"
  | JNum n => of_Z n
  | JStr s => quote s
  | JArr items =>
      "[" +:+ join ","
        ((fix go (l : list json) : list string :=
            match l with
            | [] => []
            | x :: l' => stringify x :: go l'
            end) items) +:+ "]"
  | JObj fields =>
      "{" +:+ join ","
        ((fix go (l : list (string * json)) : list string :=
            match l with
            | [] => []
            | (k, x) :: l' => (quote k +:+ ":" +:+ stringify x) :: go l'
            end) fields) +:+ "}"
  end.

End Json.

(* ===================================================================== *)
(** ** [JSON.parse] *)
(* ===================================================================== *)

Module JsonParse.
Import Json.

(** JSON white space: space, tab, line feed, carriage return. *)
Definition is_json_ws (c : ascii) : bool :=
  let n := N_of_ascii c in
  ((n =? 32) || (n =? 9) || (n =? 10) || (n =? 13))%N.

Fixpoint skip_ws (s : string) : string :=
  match s with
  | String c s' => if is_json_ws c then skip_ws s' else s
  | EmptyString => EmptyString
  end.

Definition is_digit (c : ascii) : bool :=
  let n := N_of_ascii c in ((48 <=? n) && (n <=? 57))%N.

(** The longest prefix of digits, and what follows it. *)
Fixpoint span_digits (s : string) : string * string :=
  match s with
  | String c s' =>
      if is_digit c then let '(d, r) := span_digits s' in (String c d, r)
      else (EmptyString, s)
  | EmptyString => (EmptyString, EmptyString)
  end.

(** A fraction or an exponent follows: the number is not an integer
    literal, and has no [Z] to stand for it. *)
Definition starts_fraction (s : string) : bool :=
  match s with
  | String c _ =>
      let n := N_of_ascii c in ((n =? 46) || (n =? 101) || (n =? 69))%N
  | EmptyString => false
  end.

(** An integer literal without sign: a lone zero, or digits that do not
    start with a zero. *)
Definition parse_nat_lit (s : string) : option (Z * string) :=
  let '(d, r) := span_digits s in
  match d with
  | EmptyString => None
  | String c d' =>
      if Ascii.eqb c "0" && nonempty d' then None
      else if starts_fraction r then None
      else match NilZero.uint_of_string d with
           | Some u => Some (Z.of_uint u, r)
           | None => None
           end
  end.

Definition parse_number (s : string) : option (Z * string) :=
  match s with
  | String "-" s' =>
      match parse_nat_lit s' with
      | Some (n, r) => Some (- n, r)
      | None => None
      end
  | _ => parse_nat_lit s
  end.

Definition hex_val (c : ascii) : option N :=
  let n := N_of_ascii c in
  if ((48 <=? n) && (n <=? 57))%N then Some (n - 48)%N
  else if ((97 <=? n) && (n <=? 102))%N then Some (n - 87)%N
  else if ((65 <=? n) && (n <=? 70))%N then Some (n - 55)%N
  else None.

(** The code unit of [\uXXXX]; one of 256 or more has no [ascii]. *)
Definition unicode_escape (a b c d : ascii) : option ascii :=
  match hex_val a, hex_val b, hex_val c, hex_val d with
  | Some x, Some y, Some z, Some t =>
      let n := (((x * 16 + y) * 16 + z) * 16 + t)%N in
      if (n <? 256)%N then Some (ascii_of_N n) else None
  | _, _, _, _ => None
  end.

(** The rest of a string literal, after its opening quote. *)
Fixpoint parse_string (s : string) : option (string * string) :=
  match s with
  | EmptyString => None
  | String c s' =>
      if Ascii.eqb c dquote then Some (EmptyString, s')
      else if Ascii.eqb c "\" then
        match s' with
        | String e s'' =>
            let simple (x : ascii) :=
              match parse_string s'' with
              | Some (t, r) => Some (String x t, r)
              | None => None
              end in
            if Ascii.eqb e dquote then simple dquote
            else if Ascii.eqb e "\" then simple "\"%char
            else if Ascii.eqb e "/" then simple "/"%char
            else if Ascii.eqb e "b" then simple (ascii_of_N 8)
            else if Ascii.eqb e "f" then simple (ascii_of_N 12)
            else if Ascii.eqb e "n" then simple (ascii_of_N 10)
            else if Ascii.eqb e "r" then simple (ascii_of_N 13)
            else if Ascii.eqb e "t" then simple (ascii_of_N 9)
            else if Ascii.eqb e "u" then
              match s'' with
              | String h1 (String h2 (String h3 (String h4 s3))) =>
                  match unicode_escape h1 h2 h3 h4, parse_string s3 with
                  | Some x, Some (t, r) => Some (String x t, r)
                  | _, _ => None
                  end
              | _ => None
              end
            else None
        | EmptyString => None
        end
      else if (N_of_ascii c <? 32)%N then None
      else match parse_string s' with
           | Some (t, r) => Some (String c t, r)
           | None => None
           end
  end.

Section Sequences.
Context {A : Type} (item : string -> option (A * string)) (close : ascii).

(** Items separated by commas up to the closing bracket; at least one. *)
Fixpoint parse_items (fuel : nat) (s : string) : option (list A * string) :=
  match fuel with
  | O => None
  | S fuel' =>
      match item s with
      | Some (x, r) =>
          match skip_ws r with
          | String c r' =>
              if Ascii.eqb c "," then
                match parse_items fuel' r' with
                | Some (xs, r'') => Some (x :: xs, r'')
                | None => None
                end
              else if Ascii.eqb c close then Some ([x], r')
              else None
          | EmptyString => None
          end
      | None => None
      end
  end.

(** What follows an opening bracket. *)
Definition parse_seq (fuel : nat) (s : string) : option (list A * string) :=
  match skip_ws s with
  | String c r => if Ascii.eqb c close then Some ([], r) else parse_items fuel s
  | EmptyString => None
  end.
End Sequences.

(** One member of an object: a string literal, a colon, a value. *)
Definition parse_member (value : string -> option (json * string)) (s : string)
  : option ((string * json) * string) :=
  match skip_ws s with
  | String c r =>
      if Ascii.eqb c dquote then
        match parse_string r with
        | Some (k, r1) =>
            match skip_ws r1 with
            | String c1 r2 =>
                if Ascii.eqb c1 ":" then
                  match value r2 with
                  | Some (v, r3) => Some ((k, v), r3)
                  | None => None
                  end
                else None
            | EmptyString => None
            end
        | None => None
        end
      else None
  | EmptyString => None
  end.

Definition expect (lit : string) (v : json) (s : string) : option (json * string) :=
  if String.prefix lit s
  then Some (v, String.substring (String.length lit) (String.length s - String.length lit) s)
  else None.

Fixpoint parse_value (fuel : nat) (s : string) : option (json * string) :=
  match fuel with
  | O => None
  | S fuel' =>
      match skip_ws s with
      | EmptyString => None
      | String c r as s0 =>
          if Ascii.eqb c "n" then expect "null" JNull s0
          else if Ascii.eqb c "t" then expect "true" (JBool true) s0
          else if Ascii.eqb c "f" then expect "false" (JBool false) s0
          else if Ascii.eqb c dquote then
            match parse_string r with
            | Some (t, r') => Some (JStr t, r')
            | None => None
            end
          else if Ascii.eqb c "[" then
            match parse_seq (parse_value fuel') "]" (S (String.length r)) r with
            | Some (xs, r') => Some (JArr xs, r')
            | None => None
            end
          else if Ascii.eqb c "{" then
            match parse_seq (parse_member (parse_value fuel')) "}" (S (String.length r)) r with
            | Some (kvs, r') => Some (JObj kvs, r')
            | None => None
            end
          else
            match parse_number s0 with
            | Some (n, r') => Some (JNum n, r')
            | None => None
            end
      end
  end.

(** [JSON.parse(s)]; [None] is the [SyntaxError] it throws.  An object
    literal that repeats a key keeps every occurrence here. *)
Definition parse (s : string) : option json :=
  match parse_value (S (String.length s)) s with
  | Some (v, r) =>
      match skip_ws r with
      | EmptyString => Some v
      | _ => None
      end
  | None => None
  end.

End JsonParse.

(* ===================================================================== *)
(** ** Configuration: [process.env] and the objects indexed by user input *)
(* ===================================================================== *)

(** What indexing a plain object with an arbitrary key evaluates to: an
    own string, [undefined], or a member inherited from
    [Object.prototype], which is truthy and is not a string. *)
Inductive envval : Type :=
| VUndefined
| VString (s : string)
| VInherited (name : string).

Module Env.

Definition object_prototype : list string :=
  [ "constructor"; "__proto__"; "toString"; "toLocaleString"; "valueOf";
    "hasOwnProperty"; "isPrototypeOf"; "propertyIsEnumerable";
    "__defineGetter__"; "__defineSetter__"; "__lookupGetter__"; "__lookupSetter__" ].

Definition inherited (k : string) : envval :=
  if bool_decide (k ∈ object_prototype) then VInherited k else VUndefined.

Definition truthy_str (v : option string) : bool :=
  match v with Some s => nonempty s | None => false end.

(** [a || b] on two values that are strings or [undefined]. *)
Definition or (a b : option string) : option string :=
  if truthy_str a then a else b.

Definition of_option (v : option string) : envval :=
  match v with Some s => VString s | None => VUndefined end.

Definition truthy (v : envval) : bool :=
  match v with
  | VUndefined => false
  | VString s => nonempty s
  | VInherited _ => true
  end.

(** [a || b] *)
Definition or_val (a b : envval) : envval := if truthy a then a else b.

(** [process.env[k]] for a key that is computed at run time. *)
Definition index (env : gmap string string) (k : string) : envval :=
  match env !! k with
  | Some s => VString s
  | None => inherited k
  end.

(** The text a member of [Object.prototype] turns into when it is used
    as a property key. *)
Definition inherited_text (name : string) : string :=
  if String.eqb name "__proto__" then "[object Object]"
  else "function " +:+ (if String.eqb name "constructor" then "Object" else name)
       +:+ "() { [native code] }".

(** [process.env[k]] where [k] is itself the result of a lookup. *)
Definition index_val (env : gmap string string) (k : envval) : envval :=
  match k with
  | VUndefined => index env "undefined"
  | VString s => index env s
  | VInherited name => index env (inherited_text name)
  end.

End Env.

(* ===================================================================== *)
(** ** The outside world: requests, their outcomes, and the trace *)
(* ===================================================================== *)

Inductive outcome (A : Type) : Type :=
| Throws (msg : string)
| Returns (a : A).
Arguments Throws {A} msg.
Arguments Returns {A} a.

(** One request to an external service. *)
Inductive event : Type :=
| HfSpacePost (url : string) (prompt : string)
| HfApiPost (url : envval) (inputs : string)
| ReplicatePost (version : envval) (input : json)
| RunwayPost (url : string) (model : option string) (input : json)
| ElevenLabsPost (url : string) (text : string)
| WikiGet (query : string)
| DuckGet (query : string)
| TranslateCall (text : string) (to : string)
| RedisGet (key : string)
| RedisSet (key : string) (value : string) (seconds : Z).

(** The answers of the external services: the body of the HTTP response
    ([r.data]) or the error the client rejects with (network failure,
    timeout, status outside 2xx). *)
Record world : Type := {
  hf_space : string -> string -> outcome json;
  hf_api : envval -> string -> outcome json;
  replicate : envval -> json -> outcome json;
  runway : string -> option string -> json -> outcome json;
  elevenlabs : string -> string -> outcome string;
  wikipedia : string -> outcome json;
  duckduckgo : string -> outcome json;
  (** [translateLib(text, {to})]: the [text] field of its result *)
  translateLib : string -> string -> outcome string;
  (** whether the [n]-th request to Redis is served *)
  redis_ok : nat -> bool
}.

(** A computation that talks to the world: how it ends and what it
    requested on the way. *)
Definition IO (A : Type) : Type := (outcome A * list event)%type.

Module IO.

Definition ret {A} (a : A) : IO A := (Returns a, []).

Definition throw {A} (msg : string) : IO A := (Throws msg, []).

Definition bind {A B} (m : IO A) (k : A -> IO B) : IO B :=
  match m with
  | (Throws e, t) => (Throws e, t)
  | (Returns a, t) => let '(r, t') := k a in (r, (t ++ t')%list)
  end.

(** [try { m } catch (e) { h(e) }] *)
Definition catch {A} (m : IO A) (h : string -> IO A) : IO A :=
  match m with
  | (Throws e, t) => let '(r, t') := h e in (r, (t ++ t')%list)
  | ok => ok
  end.

(** One request: the event is recorded whatever the outcome. *)
Definition request {A} (ev : event) (result : outcome A) : IO A := (result, [ev]).

Definition trace {A} (m : IO A) : list event := snd m.
Definition result {A} (m : IO A) : outcome A := fst m.

End IO.

Notation "'let*' x := m 'in' k" := (IO.bind m (fun x => k))
  (at level 10, x name, m at level 100, k at level 200).

(** The [TypeError] of reading a property of [null] or [undefined]. *)
Definition type_error_read (what : string) (prop : string) : string :=
  "Cannot read properties of " +:+ what +:+ " (reading '" +:+ prop +:+ "')".

(** [v.k] where [v] may be [null]. *)
Definition read (v : json) (k : string) : IO (option json) :=
  match v with
  | JNull => IO.throw (type_error_read "null" k)
  | _ => IO.ret (Js.get v k)
  end.

(** The [TypeError] of turning an object that has no primitive value
    into a string. *)
Definition type_error_primitive : string := "Cannot convert object to primitive value".

(** [String(v)] or [`${v}`] as a step of a computation. *)
Definition coerce (v : option json) : IO string :=
  match Js.toString_opt v with
  | Some s => IO.ret s
  | None => IO.throw type_error_primitive
  end.

(** [const withPrefix = (text) => `Belaynish\n\n${text}`], on a string. *)
Definition newline : string := String (ascii_of_N 10) EmptyString.
Definition withPrefix (text : string) : string :=
  "Belaynish" +:+ newline +:+ newline +:+ text.

(** [withPrefix(v)] on a value that need not be a string: the template
    literal coerces it. *)
Definition withPrefix_value (v : json) : IO string :=
  let* text := coerce (Some v) in IO.ret (withPrefix text).

(** [function safeFirst(arr, fallback = null)] *)
Definition safeFirst (arr : option json) : json :=
  match arr with
  | Some (JArr (x :: _)) => x
  | _ => JNull
  end.

(* ===================================================================== *)
(** ** Provider adapters *)
(* ===================================================================== *)

Section Adapters.
Variable env : gmap string string.
Variable w : world.

(** What the [try] block of the loop of [callHfSpace] does with the body
    [d] of a response: it returns a text ([Some]), or falls through to
    the next URL ([None]); the coercion [String(...)] may throw. *)
Definition hfSpace_output (d : json) : IO (option string) :=
  let data := Js.get_opt (Some d) "data" in
  if Js.truthy_opt data && Js.truthy_opt (Js.get_opt data "length")
  then
    let* text := coerce (match data with Some x => Js.index0 x | None => None end) in
    IO.ret (Some text)
  else
    let g := Js.get_opt (Some d) "generated_text" in
    if Js.truthy_opt g then let* text := coerce g in IO.ret (Some text)
    else IO.ret None.

(** The [for] loop of [callHfSpace]: whatever is thrown inside the [try]
    block, by the request or by the coercion, is caught, and the next
    URL is tried. *)
Fixpoint hfSpace_loop (tryUrls : list string) (prompt : string) : IO string :=
  match tryUrls with
  | [] => IO.throw "HF Space did not return valid output"
  | url :: rest =>
      let* found :=
        IO.catch
          (let* d := IO.request (HfSpacePost url prompt) (hf_space w url prompt) in
           hfSpace_output d)
          (fun _ => IO.ret None) in
      match found with
      | Some text => IO.ret text
      | None => hfSpace_loop rest prompt
      end
  end.

(** [async function callHfSpace(prompt, spaceUrl = process.env.HF_SPACE_URL)]:
    the default takes the place of an argument that is [undefined]. *)
Definition callHfSpace (prompt : string) (spaceUrl : option string) : IO string :=
  let spaceUrl := match spaceUrl with Some url => Some url | None => env !! "HF_SPACE_URL" end in
  match spaceUrl with
  | Some url =>
      if nonempty url then
        let base := stripSlash url in
        hfSpace_loop [base +:+ "/run/predict"; base +:+ "/api/predict"; base] prompt
      else IO.throw "HF_SPACE_URL not configured"
  | None => IO.throw "HF_SPACE_URL not configured"
  end.

(** "Parse common HF shapes": what [callHfApi] returns for the body [d]. *)
Definition hfApi_output (d : json) : json :=
  let first_text := Js.get_opt (Js.index0 d) "generated_text" in
  let text := Js.get_opt (Some d) "generated_text" in
  let data := Js.get_opt (Some d) "data" in
  let data0 := match data with Some x => Js.index0 x | None => None end in
  match d with
  | JStr _ => d
  | _ =>
      if Js.isArray (Some d) && Js.truthy_opt first_text then default JNull first_text
      else if Js.truthy_opt text then default JNull text
      else if Js.truthy_opt data && Js.truthy_opt data0 then default JNull data0
      else JStr (slice0 4000 (Json.stringify d))
  end.

(** [async function callHfApi(prompt, modelUrl)] *)
Definition callHfApi (prompt : string) (modelUrl : envval) : IO json :=
  if negb (Env.truthy modelUrl) || negb (Env.truthy_str (env !! "HUGGINGFACE_API_KEY"))
  then IO.throw "HF API not configured"
  else
    let* d := IO.request (HfApiPost modelUrl prompt) (hf_api w modelUrl prompt) in
    IO.ret (hfApi_output d).

(** [async function callReplicate(versionOrModel, input)] *)
Definition callReplicate (versionOrModel : envval) (input : json) : IO json :=
  if negb (Env.truthy_str (env !! "REPLICATE_API_KEY"))
  then IO.throw "REPLICATE_API_KEY missing"
  else IO.request (ReplicatePost versionOrModel input) (replicate w versionOrModel input).

(** [async function callRunway(endpoint, model, input)] *)
Definition callRunway (endpoint model : option string) (input : json) : IO json :=
  if negb (Env.truthy_str (env !! "RUNWAY_API_KEY"))
  then IO.throw "RUNWAY_API_KEY missing"
  else
    match endpoint with
    | None => IO.throw (type_error_read "undefined" "replace")
    | Some e =>
        let url := stripSlash e in
        IO.request (RunwayPost url model input) (runway w url model input)
    end.

(** [async function callElevenLabsTTS(text)] *)
Definition callElevenLabsTTS (text : string) : IO string :=
  if negb (Env.truthy_str (env !! "ELEVENLABS_API_KEY"))
     || negb (Env.truthy_str (env !! "ELEVENLABS_VOICE_ID"))
  then IO.throw "ElevenLabs not configured"
  else
    match env !! "ELEVENLABS_API_URL" with
    | None => IO.throw (type_error_read "undefined" "replace")
    | Some api =>
        let url := stripSlash api +:+ "/text-to-speech/"
                     +:+ default EmptyString (env !! "ELEVENLABS_VOICE_ID") in
        IO.request (ElevenLabsPost url text) (elevenlabs w url text)
    end.

(** [async function wikiSummary(query)] *)
Definition wikiSummary (query : string) : IO json :=
  IO.catch
    (let* d := IO.request (WikiGet query) (wikipedia w query) in
     let* extract := read d "extract" in
     IO.ret (if Js.truthy_opt extract then default JNull extract
             else JStr "No summary found"))
    (fun _ => IO.ret (JStr "Wikipedia lookup failed")).

(** [async function duckDuck(query)] *)
Definition duckDuck (query : string) : IO json :=
  IO.catch
    (let* d := IO.request (DuckGet query) (duckduckgo w query) in
     let abstract := Js.get_opt (Some d) "AbstractText" in
     if Js.truthy_opt abstract then IO.ret (default JNull abstract)
     else
       let topics := Js.get_opt (Some d) "RelatedTopics" in
       let first := safeFirst (if Js.truthy_opt topics then topics else Some (JArr [])) in
       let text := Js.get_opt (Some first) "Text" in
       if Js.truthy_opt text then IO.ret (default JNull text)
       else IO.ret (JStr "No DuckDuckGo instant answer"))
    (fun _ => IO.ret (JStr "DuckDuckGo lookup failed")).

(** [async function translateUnofficial(text, to = 'en')] *)
Definition translateUnofficial (text : string) (to : string) : IO string :=
  IO.catch
    (IO.request (TranslateCall text to) (translateLib w text to))
    (fun _ => IO.ret text).

(** [const HF_MODEL_MAP = { ... }], indexed by [k]. *)
Definition HF_MODEL_MAP (k : string) : envval :=
  let hf_url := env !! "HF_URL" in
  let hf_model := env !! "HF_MODEL" in
  if String.eqb k "llama2" then Env.of_option (Env.or (env !! "MODEL_LLAMA2") (Env.or hf_url hf_model))
  else if String.eqb k "mistral" then Env.of_option (Env.or (env !! "MODEL_MISTRAL") hf_url)
  else if String.eqb k "flan_t5" then Env.of_option (Env.or (env !! "MODEL_FLAN_T5") hf_url)
  else if String.eqb k "falcon" then Env.of_option (Env.or (env !! "MODEL_FALCON") hf_url)
  else if String.eqb k "gpt2" then Env.of_option (Env.or (env !! "MODEL_GPT2") hf_url)
  else if String.eqb k "bloom" then Env.of_option (Env.or (env !! "MODEL_BLOOM") hf_url)
  else if String.eqb k "default" then Env.of_option (Env.or (env !! "MODEL") (Env.or hf_url hf_model))
  else Env.inherited k.

End Adapters.

(* ===================================================================== *)
(** ** Memory (Redis or in-memory) *)
(* ===================================================================== *)

(** The module-level state of the process together with the remote
    store: the [redis] client (or [null]), the [usingRedis] flag, the keys
    of the Redis server and of the [NodeCache], each with the instant in
    milliseconds after which it is gone, the clock ([Date.now()]) and the
    number of requests sent to Redis so far. *)
Record store : Type := {
  redis : bool;
  usingRedis : bool;
  redisDb : gmap string (string * Z);
  memCache : gmap string (json * Z);
  clock : Z;
  requests : nat
}.

Module Store.

Definition demote (st : store) : store :=
  {| redis := redis st; usingRedis := false; redisDb := redisDb st;
     memCache := memCache st; clock := clock st; requests := requests st |}.

Definition sent (st : store) : store :=
  {| redis := redis st; usingRedis := usingRedis st; redisDb := redisDb st;
     memCache := memCache st; clock := clock st; requests := S (requests st) |}.

Definition with_redisDb (db : gmap string (string * Z)) (st : store) : store :=
  {| redis := redis st; usingRedis := usingRedis st; redisDb := db;
     memCache := memCache st; clock := clock st; requests := requests st |}.

Definition with_memCache (c : gmap string (json * Z)) (st : store) : store :=
  {| redis := redis st; usingRedis := usingRedis st; redisDb := redisDb st;
     memCache := c; clock := clock st; requests := requests st |}.

(** Time passes: [ms] milliseconds. *)
Definition advance (ms : Z) (st : store) : store :=
  {| redis := redis st; usingRedis := usingRedis st; redisDb := redisDb st;
     memCache := memCache st; clock := clock st + ms; requests := requests st |}.

(** The state after the module has been loaded: [redis] and
    [usingRedis] are set when a Redis URL is configured and
    [new Redis(...)] did not throw; the cache is empty. *)
Definition init (env : gmap string string) (constructed : bool)
    (remote : gmap string (string * Z)) (now : Z) : store :=
  let configured :=
    Env.truthy_str (env !! "REDIS_URL") || Env.truthy_str (env !! "UPSTASH_REDIS_REST_URL") in
  {| redis := configured && constructed; usingRedis := configured && constructed;
     redisDb := remote; memCache := ∅; clock := now; requests := 0 |}.

End Store.

Section Memory.
Variable w : world.
(** [const MEMORY_TTL = parseInt(process.env.MEMORY_TTL_SECONDS || '10800', 10)] *)
Variable MEMORY_TTL : Z.

Definition memory_key (chatId : Z) : string := "memory:" +:+ of_Z chatId.

(** [await redis.get(key)]: the value of a key that has not expired,
    [null] ([None]) otherwise; [Throws] when the request is not served. *)
Definition redis_get (key : string) (st : store) : outcome (option string) :=
  if redis_ok w (requests st) then
    Returns (match redisDb st !! key with
             | Some (v, t) => if clock st <=? t then Some v else None
             | None => None
             end)
  else Throws "Redis request failed".

(** [await redis.set(key, value, 'EX', seconds)]: the server refuses an
    expiry that is not positive. *)
Definition redis_set (key value : string) (seconds : Z) (st : store) : outcome store :=
  if redis_ok w (requests st) && (0 <? seconds) then
    Returns (Store.with_redisDb (<[key := (value, clock st + seconds * 1000)]> (redisDb st))
               (Store.sent st))
  else Throws "Redis request failed".

(** [memCache.get(key)]: an entry whose time is not [0] and is past is
    deleted and reads as [undefined]. *)
Definition cache_get (key : string) (st : store) : option json * store :=
  match memCache st !! key with
  | Some (v, t) =>
      if negb (t =? 0) && (t <? clock st)
      then (None, Store.with_memCache (delete key (memCache st)) st)
      else (Some v, st)
  | None => (None, st)
  end.

(** [memCache.set(key, value)] with [stdTTL: MEMORY_TTL]: no expiry when
    the TTL is [0]. *)
Definition cache_set (key : string) (value : json) (st : store) : store :=
  let t := if MEMORY_TTL =? 0 then 0 else clock st + MEMORY_TTL * 1000 in
  Store.with_memCache (<[key := (value, t)]> (memCache st)) st.

(** [memCache.get(key) || []] *)
Definition cache_read (key : string) (st : store) : json * store :=
  let '(v, st') := cache_get key st in
  ((if Js.truthy_opt v then default JNull v else JArr []), st').

(** [async function getMemory(chatId)] *)
Definition getMemory (chatId : Z) (st : store) : json * store * list event :=
  let key := memory_key chatId in
  if usingRedis st && redis st then
    match redis_get key st with
    | Returns v =>
        if Env.truthy_str v then
          match JsonParse.parse (default EmptyString v) with
          | Some h => (h, Store.sent st, [RedisGet key])
          | None =>
              let '(h, st') := cache_read key (Store.demote (Store.sent st)) in
              (h, st', [RedisGet key])
          end
        else (JArr [], Store.sent st, [RedisGet key])
    | Throws _ =>
        let '(h, st') := cache_read key (Store.demote (Store.sent st)) in
        (h, st', [RedisGet key])
    end
  else
    let '(h, st') := cache_read key st in (h, st', []).

(** [async function saveMemory(chatId, history)] *)
Definition saveMemory (chatId : Z) (history : json) (st : store) : store * list event :=
  let key := memory_key chatId in
  if usingRedis st && redis st then
    let value := Json.stringify history in
    match redis_set key value MEMORY_TTL st with
    | Returns st' => (st', [RedisSet key value MEMORY_TTL])
    | Throws _ =>
        (cache_set key history (Store.demote (Store.sent st)),
         [RedisSet key value MEMORY_TTL])
    end
  else (cache_set key history st, []).

End Memory.

(* ===================================================================== *)
(** ** The unified [/ai] handler *)
(* ===================================================================== *)

(** What the handler sends back: [ctx.reply], [ctx.replyWithVoice] with a
    buffer or with a URL, [ctx.replyWithPhoto], [ctx.replyWithVideo],
    [ctx.replyWithDocument]. *)
Inductive reply : Type :=
| ReplyText (text : string)
| ReplyVoiceSource (audio : string)
| ReplyVoiceUrl (url : json)
| ReplyPhoto (photo : json) (caption : string)
| ReplyVideo (video : json) (caption : string)
| ReplyDocument (document : json).

(** [ctx.reply(withPrefix(v))] *)
Definition reply_text (v : json) : IO reply :=
  let* text := withPrefix_value v in IO.ret (ReplyText text).

Definition usage_message : string :=
  "Usage: /ai <mode> <input>" +:+ newline
  +:+ "Modes: chat|wiki|duck|translate|media|tts|replicate".
Definition no_input_message : string :=
  "Please provide input. Example: /ai chat Explain Newton laws".
Definition no_prompt_message : string := "Please provide a prompt for chat.".
Definition media_usage_message : string :=
  "Usage: /ai media <mode> <input>. Type /ai help for modes.".
Definition replicate_usage_message : string :=
  "Usage: /ai replicate <env_model_variable> <prompt>".
Definition unknown_mode_message : string := "Unknown mode. Type /ai help for usage.".
Definition no_chat_provider_message : string :=
  "No provider available to answer this question.".
Definition no_tts_provider_message : string := "No TTS provider configured.".
Definition no_media_provider_message : string :=
  "No provider configured for that media mode.".

Section Handler.
Variable env : gmap string string.
Variable w : world.
Variable MEMORY_TTL : Z.

Definition help_message : string :=
  join newline
    [ "";
      "/ai <mode> <input>";
      "";
      "Chat (English default):";
      "  /ai chat [model] <prompt>       -> Chat: model optional (llama2, mistral, flan_t5, falcon). Default llama2";
      "Search:";
      "  /ai wiki <topic>                -> Wikipedia summary";
      "  /ai duck <query>                -> DuckDuckGo instant answer";
      "Translate:";
      "  /ai translate <text>            -> translate to English (use second arg 'am' to get Amharic)";
      "Media (Runway / Replicate):";
      "  /ai media <mode> <input>";
      "    modes: t2i t2v i2v v2v upscale act flux fixface caption burncaption recon3d";
      "TTS:";
      "  /ai tts <text>                  -> ElevenLabs or Replicate TTS";
      "Replicate chat:";
      "  /ai replicate <modelname> <prompt> -> call replicate chat model as configured";
      "";
      "Memory: conversation memory saved ~" +:+ of_Z MEMORY_TTL +:+ " seconds (if Redis configured)";
      "      " ].

(** *** Chat *)

(** [{ role, content }] *)
Definition turn (role : string) (content : json) : json :=
  JObj [("role", JStr role); ("content", content)].

(** [mem.push(x)] *)
Definition push (mem : json) (x : json) : IO json :=
  match mem with
  | JArr items => IO.ret (JArr (items ++ [x])%list)
  | JNull => IO.throw (type_error_read "null" "push")
  | _ => IO.throw "mem.push is not a function"
  end.

(** [`${m.role}: ${m.content}`] *)
Definition render_turn (m : json) : IO string :=
  let* role := read m "role" in
  let* role_text := coerce role in
  let* content := read m "content" in
  let* content_text := coerce content in
  IO.ret (role_text +:+ ": " +:+ content_text).

Fixpoint render_turns (items : list json) : IO (list string) :=
  match items with
  | [] => IO.ret []
  | m :: rest =>
      let* s := render_turn m in
      let* ss := render_turns rest in
      IO.ret (s :: ss)
  end.

(** [mem.map((m) => `${m.role}: ${m.content}`).join('\n')] *)
Definition contextStr (mem : json) : IO string :=
  match mem with
  | JArr items => let* lines := render_turns items in IO.ret (join newline lines)
  | JNull => IO.throw (type_error_read "null" "map")
  | _ => IO.throw "mem.map is not a function"
  end.

(** "Try HF Space first (if configured)" *)
Definition chat_hf_space (context : string) (answer : json) : IO json :=
  if Env.truthy_str (env !! "HF_SPACE_URL") then
    IO.catch
      (let* s := callHfSpace env w context (env !! "HF_SPACE_URL") in IO.ret (JStr s))
      (fun _ => IO.ret answer)
  else IO.ret answer.

(** "If no answer yet and HF API available for the requested model,
    call HF API" *)
Definition chat_hf_api (modelKey context : string) (answer : json) : IO json :=
  if negb (Js.truthy answer) then
    let hfModelUrl := Env.or_val (HF_MODEL_MAP env modelKey) (HF_MODEL_MAP env "default") in
    if Env.truthy hfModelUrl && Env.truthy_str (env !! "HUGGINGFACE_API_KEY") then
      IO.catch (callHfApi env w context hfModelUrl) (fun _ => IO.ret answer)
    else IO.ret answer
  else IO.ret answer.

(** The object literal that names the Replicate chat model of a model key. *)
Definition replicate_chat_key (modelKey : string) : envval :=
  if String.eqb modelKey "llama2" then VString "REPLICATE_CHAT_MODEL_LLAMA2"
  else if String.eqb modelKey "gpt5" then VString "REPLICATE_CHAT_MODEL_GPT5"
  else if String.eqb modelKey "gpt4" then VString "REPLICATE_CHAT_MODEL_GPT4"
  else if String.eqb modelKey "gpt35" then VString "REPLICATE_CHAT_MODEL_GPT35"
  else if String.eqb modelKey "mistral" then VString "REPLICATE_CHAT_MODEL_MISTRAL"
  else Env.inherited modelKey.

(** "replicate may return outputs or urls — try to get text" *)
Definition replicate_chat_text (r : json) (answer : json) : IO json :=
  let* output := read r "output" in
  if Js.truthy_opt output && Js.truthy_opt (Js.get_opt output "length") then
    let* text := coerce (match output with Some o => Js.index0 o | None => None end) in
    IO.ret (JStr text)
  else
    let status := Js.get r "status" in
    if Js.truthy_opt status then
      let* text := coerce status in
      IO.ret (JStr ("Started replicate job (status " +:+ text +:+ "). Check dashboard."))
    else IO.ret answer.

(** "If still no answer, try Replicate chat model mapping envs" *)
Definition chat_replicate (modelKey prompt : string) (answer : json) : IO json :=
  if negb (Js.truthy answer) && Env.truthy_str (env !! "REPLICATE_API_KEY") then
    IO.catch
      (let repKeyName :=
         Env.or_val (replicate_chat_key modelKey) (VString "REPLICATE_CHAT_MODEL_GPT5") in
       let repModel := Env.index_val env repKeyName in
       if Env.truthy repModel then
         let* r := callReplicate env w repModel (JObj [("prompt", JStr prompt)]) in
         replicate_chat_text r answer
       else IO.ret answer)
      (fun _ => IO.ret answer)
  else IO.ret answer.

(** "fallback web-synthesis: wiki + duck" *)
Definition chat_web (prompt : string) (answer : json) : IO json :=
  if negb (Js.truthy answer) then
    let* wiki := IO.catch (wikiSummary w prompt) (fun _ => IO.ret JNull) in
    let* ddg := IO.catch (duckDuck w prompt) (fun _ => IO.ret JNull) in
    let* from_wiki :=
      if Js.truthy wiki
      then let* text := coerce (Some wiki) in IO.ret ("From Wikipedia: " +:+ text)
      else IO.ret EmptyString in
    let* from_duck :=
      if Js.truthy ddg
      then let* text := coerce (Some ddg) in IO.ret (newline +:+ newline +:+ "Duck: " +:+ text)
      else IO.ret EmptyString in
    let text := from_wiki +:+ from_duck in
    IO.ret (JStr (if nonempty text then text else no_chat_provider_message))
  else IO.ret answer.

(** The resolution of one chat request, from [let answer = null] to the
    last assignment of [answer]. *)
Definition chat_answer (modelKey prompt context : string) : IO json :=
  let* answer := chat_hf_space context JNull in
  let* answer := chat_hf_api modelKey context answer in
  let* answer := chat_replicate modelKey prompt answer in
  chat_web prompt answer.

(** [modelKey] and [prompt] of a chat request. *)
Definition chat_args (parts : list string) (rest : string) : string * string :=
  let firstToken := toLowerCase (nth 1 parts EmptyString) in
  if Env.truthy (HF_MODEL_MAP env firstToken)
  then (firstToken, join_space (drop 2 parts))
  else ("llama2", rest).

Definition chat (parts : list string) (rest : string) (from : Z) (st : store)
  : outcome reply * store * list event :=
  let '(modelKey, prompt) := chat_args parts rest in
  if negb (nonempty prompt) then (Returns (ReplyText (withPrefix no_prompt_message)), st, [])
  else
    let '(mem, st1, t1) := getMemory w from st in
    match
      (let* mem1 := push mem (turn "user" (JStr prompt)) in
       let* context := contextStr mem1 in
       let* answer := chat_answer modelKey prompt context in
       let* mem2 := push mem1 (turn "assistant" answer) in
       IO.ret (mem2, answer))
    with
    | (Returns (mem2, answer), t2) =>
        let '(st2, t3) := saveMemory w MEMORY_TTL from mem2 st1 in
        (IO.result (reply_text answer), st2, (t1 ++ t2 ++ t3)%list)
    | (Throws e, t2) => (Throws e, st1, (t1 ++ t2)%list)
    end.

(** *** Translate *)

(** [to] and [textToTranslate] of a translate request. *)
Definition translate_args (rest : string) : string * string :=
  let parts2 := split_space rest in
  if (1 <? length parts2)%nat && (String.length (nth 0 parts2 EmptyString) <=? 3)%nat
  then (nth 0 parts2 EmptyString, join_space (drop 1 parts2))
  else ("en", rest).

Definition translate (rest : string) : IO reply :=
  let '(to, textToTranslate) := translate_args rest in
  let* t := translateUnofficial w textToTranslate to in
  IO.ret (ReplyText (withPrefix t)).

(** *** TTS *)

Definition tts_elevenlabs (rest : string) : IO (option reply) :=
  if Env.truthy_str (env !! "ELEVENLABS_API_KEY") && Env.truthy_str (env !! "ELEVENLABS_VOICE_ID")
  then
    IO.catch
      (let* audioBuf := callElevenLabsTTS env w rest in
       IO.ret (Some (ReplyVoiceSource audioBuf)))
      (fun _ => IO.ret None)
  else IO.ret None.

Definition tts_replicate (rest : string) : IO (option reply) :=
  if Env.truthy_str (env !! "REPLICATE_API_KEY") && Env.truthy_str (env !! "REPLICATE_TTS_MODEL")
  then
    IO.catch
      (let* r := callReplicate env w (Env.of_option (env !! "REPLICATE_TTS_MODEL"))
                   (JObj [("text", JStr rest)]) in
       let* output := read r "output" in
       let out := safeFirst output in
       IO.ret (if Js.truthy out then Some (ReplyVoiceUrl out) else None))
      (fun _ => IO.ret None)
  else IO.ret None.

Definition tts (rest : string) : IO reply :=
  let* first := tts_elevenlabs rest in
  match first with
  | Some r => IO.ret r
  | None =>
      let* second := tts_replicate rest in
      match second with
      | Some r => IO.ret r
      | None => IO.ret (ReplyText (withPrefix no_tts_provider_message))
      end
  end.

(** *** Media *)

Definition runwayModes : list string := ["t2i"; "t2v"; "i2v"; "v2v"; "upscale"; "act"].
Definition repModes : list string := ["flux"; "fixface"; "caption"; "burncaption"; "recon3d"].

Definition includes (modes : list string) (sub : string) : bool :=
  bool_decide (sub ∈ modes).

(** The [switch] of the Runway branch: [endpoint] and [model]. *)
Definition runway_config (sub : string) : option string * option string :=
  if String.eqb sub "t2i" then (env !! "RUNWAY_URL_TEXT_TO_IMAGE", env !! "RUNWAY_MODEL_TEXT_TO_IMAGE")
  else if String.eqb sub "t2v" then (env !! "RUNWAY_URL_TEXT_TO_VIDEO", env !! "RUNWAY_MODEL_TEXT_TO_VIDEO")
  else if String.eqb sub "i2v" then (env !! "RUNWAY_URL_IMAGE_TO_VIDEO", env !! "RUNWAY_MODEL_IMAGE_TO_VIDEO")
  else if String.eqb sub "v2v" then (env !! "RUNWAY_URL_VIDEO_TO_VIDEO", env !! "RUNWAY_MODEL_VIDEO_TO_VIDEO")
  else if String.eqb sub "upscale" then (env !! "RUNWAY_URL_VIDEO_UPSCALE", env !! "RUNWAY_MODEL_VIDEO_UPSCALE")
  else if String.eqb sub "act" then (env !! "RUNWAY_URL_CHARACTER_PERFORMANCE", env !! "RUNWAY_MODEL_CHARACTER_PERFORMANCE")
  else (None, None).

Definition runway_input (sub payload : string) : json :=
  if String.eqb sub "t2i" || String.eqb sub "t2v" then JObj [("prompt", JStr payload)]
  else if String.eqb sub "i2v" then JObj [("image_url", JStr payload)]
  else JObj [("video_url", JStr payload)].

Definition media_runway (sub payload : string) : IO reply :=
  let '(endpoint, model) := runway_config sub in
  let* res := callRunway env w endpoint model (runway_input sub payload) in
  let* output := read res "output" in
  let out := safeFirst output in
  if negb (Js.truthy out) then IO.ret (ReplyText (withPrefix "Runway returned no output."))
  else if String.eqb sub "t2i" || String.eqb sub "flux" || String.eqb sub "fixface"
  then IO.ret (ReplyPhoto out (withPrefix payload))
  else IO.ret (ReplyVideo out (withPrefix payload)).

(** The [switch] of the Replicate branch: [repModel]. *)
Definition replicate_media_model (sub : string) : option string :=
  if String.eqb sub "flux" then env !! "REPLICATE_IMAGE_MODEL"
  else if String.eqb sub "fixface" then env !! "REPLICATE_UPSCALE_MODEL"
  else if String.eqb sub "caption" then env !! "REPLICATE_VIDEO_CAPTION_MODEL"
  else if String.eqb sub "burncaption" then env !! "REPLICATE_VIDEO_CAPTIONED_MODEL"
  else if String.eqb sub "recon3d" then env !! "REPLICATE_3D_MODEL"
  else None.

Definition replicate_media_input (sub payload : string) : json :=
  if String.eqb sub "flux" then JObj [("prompt", JStr payload)]
  else if String.eqb sub "fixface" then JObj [("image", JStr payload)]
  else JObj [("video", JStr payload)].

Definition media_replicate (sub payload : string) : IO reply :=
  let repModel := replicate_media_model sub in
  if negb (Env.truthy_str repModel)
  then IO.ret (ReplyText (withPrefix "Replicate model not set for this mode."))
  else
    let* r := callReplicate env w (Env.of_option repModel) (replicate_media_input sub payload) in
    let* output := read r "output" in
    let out := safeFirst output in
    if negb (Js.truthy out) then IO.ret (ReplyText (withPrefix "Replicate returned no output."))
    else if String.eqb sub "flux" || String.eqb sub "fixface"
    then IO.ret (ReplyPhoto out (withPrefix payload))
    else if String.eqb sub "recon3d" then IO.ret (ReplyDocument out)
    else if String.eqb sub "caption"
    then reply_text out
    else IO.ret (ReplyVideo out (withPrefix payload)).

Definition media (parts : list string) : IO reply :=
  let sub := toLowerCase (nth 1 parts EmptyString) in
  let payload := join_space (drop 2 parts) in
  if negb (nonempty sub) || negb (nonempty payload)
  then IO.ret (ReplyText (withPrefix media_usage_message))
  else
    IO.catch
      (if includes runwayModes sub && Env.truthy_str (env !! "RUNWAY_API_KEY")
       then media_runway sub payload
       else if includes repModes sub && Env.truthy_str (env !! "REPLICATE_API_KEY")
       then media_replicate sub payload
       else IO.ret (ReplyText (withPrefix no_media_provider_message)))
      (fun e => IO.ret (ReplyText (withPrefix ("Media error: " +:+ e)))).

(** *** Replicate direct chat *)

Definition replicate_direct (parts : list string) : IO reply :=
  let repKey := nth 1 parts EmptyString in
  let promptText := join_space (drop 2 parts) in
  if negb (nonempty repKey) || negb (nonempty promptText)
  then IO.ret (ReplyText (withPrefix replicate_usage_message))
  else
    let repModel := Env.index env repKey in
    if negb (Env.truthy repModel)
    then IO.ret (ReplyText (withPrefix ("No replicate model found in env as " +:+ repKey)))
    else
      IO.catch
        (let* r := callReplicate env w repModel (JObj [("prompt", JStr promptText)]) in
         let* output := read r "output" in
         let first := safeFirst output in
         let out := if Js.truthy first then first else JStr (Json.stringify r) in
         reply_text out)
        (fun e => IO.ret (ReplyText (withPrefix ("Replicate error: " +:+ e)))).

(** *** Dispatch *)

Definition with_store {A} (st : store) (m : IO A) : outcome A * store * list event :=
  (fst m, st, snd m).

(** The [try] block of the handler. *)
Definition dispatch (mode : string) (parts : list string) (rest : string)
    (from : Z) (st : store) : outcome reply * store * list event :=
  if String.eqb mode "help" then (Returns (ReplyText (withPrefix help_message)), st, [])
  else if String.eqb mode "chat" then chat parts rest from st
  else if String.eqb mode "wiki" then
    with_store st (let* summary := wikiSummary w rest in reply_text summary)
  else if String.eqb mode "duck" then
    with_store st (let* res := duckDuck w rest in reply_text res)
  else if String.eqb mode "translate" then with_store st (translate rest)
  else if String.eqb mode "tts" then with_store st (tts rest)
  else if String.eqb mode "media" then with_store st (media parts)
  else if String.eqb mode "replicate" then with_store st (replicate_direct parts)
  else (Returns (ReplyText (withPrefix unknown_mode_message)), st, []).

(** [bot.command('ai', async (ctx) => ...)] on the message [text] sent
    by the user [from]: the reply, the state left behind and the
    requests made. *)
Definition ai (text : string) (from : Z) (st : store) : reply * store * list event :=
  let parts := drop 1 (split_space (trim text)) in
  match parts with
  | [] => (ReplyText (withPrefix usage_message), st, [])
  | p0 :: _ =>
      let mode := toLowerCase p0 in
      let rest := trim (join_space (drop 1 parts)) in
      if negb (nonempty rest) && negb (String.eqb mode "help")
      then (ReplyText (withPrefix no_input_message), st, [])
      else
        match dispatch mode parts rest from st with
        | (Returns r, st', t) => (r, st', t)
        | (Throws e, st', t) =>
            (ReplyText (withPrefix ("Error: " +:+ (if nonempty e then e else "Error"))), st', t)
        end
  end.

End Handler.

(* ===================================================================== *)
(** ** The configured time-to-live and the URLs of the lookups *)
(* ===================================================================== *)

(** The digits of [parseInt(s, 10)] once the sign has been read: the
    longest run of decimal digits at the start of [s]; [None] is [NaN],
    the result when [s] starts with no digit. *)
Definition parseInt_digits (negative : bool) (s : string) : option Z :=
  match fst (JsonParse.span_digits s) with
  | EmptyString => None
  | String _ _ as d =>
      match NilEmpty.uint_of_string d with
      | Some u => Some (if negative then - Z.of_uint u else Z.of_uint u)
      | None => None
      end
  end.

(** [parseInt(s, 10)]: white space at the start is skipped, one sign is
    read, and what follows the digits is ignored. *)
Definition parseInt (s : string) : option Z :=
  match trimStart s with
  | String c r =>
      if Ascii.eqb c "-" then parseInt_digits true r
      else if Ascii.eqb c "+" then parseInt_digits false r
      else parseInt_digits false (String c r)
  | EmptyString => None
  end.

(** [const MEMORY_TTL = parseInt(process.env.MEMORY_TTL_SECONDS || '10800', 10)] *)
Definition MEMORY_TTL (env : gmap string string) : option Z :=
  parseInt (default "10800" (Env.or (env !! "MEMORY_TTL_SECONDS") (Some "10800"))).

(** The characters [encodeURIComponent] leaves as they are: letters,
    digits and [- _ . ! ~ * ' ( )]. *)
Definition unreserved (c : ascii) : bool :=
  let n := N_of_ascii c in
  ((48 <=? n) && (n <=? 57) || (65 <=? n) && (n <=? 90) || (97 <=? n) && (n <=? 122)
   || existsb (N.eqb n) [45; 95; 46; 33; 126; 42; 39; 40; 41])%N.

Definition hex_upper (n : N) : ascii :=
  if (n <? 10)%N then ascii_of_N (48 + n) else ascii_of_N (55 + n).

(** [%XX] for one byte. *)
Definition percent (byte : N) : string :=
  String "%" (String (hex_upper (byte / 16)) (String (hex_upper (byte mod 16)) EmptyString)).

(** The encoding of one code unit below 256: itself when unreserved,
    else the bytes of its UTF-8 form, one below 128 and two from 128 on. *)
Definition encode_unit (c : ascii) : string :=
  let n := N_of_ascii c in
  if unreserved c then String c EmptyString
  else if (n <? 128)%N then percent n
  else percent (192 + n / 64) +:+ percent (128 + n mod 64).

(** [encodeURIComponent(s)] *)
Fixpoint encodeURIComponent (s : string) : string :=
  match s with
  | EmptyString => EmptyString
  | String c s' => encode_unit c +:+ encodeURIComponent s'
  end.

(** The URL [wikiSummary] requests, and the one [duckDuck] requests: the
    requests that the events [WikiGet] and [DuckGet] stand for. *)
Definition wiki_url (query : string) : string :=
  "https://en.wikipedia.org/api/rest_v1/page/summary/" +:+ encodeURIComponent query.

Definition duck_url (query : string) : string :=
  "https://api.duckduckgo.com/?q=" +:+ encodeURIComponent query
  +:+ "&format=json&no_html=1&skip_disambig=1".

(* ===================================================================== *)
(** * Vocabulary of the properties *)
(* ===================================================================== *)

(** The string has a space in it: it is more than one token. *)
Fixpoint contains_space (s : string) : bool :=
  match s with
  | EmptyString => false
  | String c s' => Ascii.eqb c " " || contains_space s'
  end.

(** What a translation request comes back with: the translated text, or
    the input when the library rejects. *)
Definition translated (w : world) (text to : string) : string :=
  match translateLib w text to with
  | Returns t => t
  | Throws _ => text
  end.

(** The modes the handler knows. *)
Definition modes : list string :=
  ["help"; "chat"; "wiki"; "duck"; "translate"; "tts"; "media"; "replicate"].

(** The fixed replies to a request that cannot be served as written. *)
Definition usage_replies : list string :=
  [ usage_message; no_input_message; no_prompt_message; media_usage_message;
    replicate_usage_message; unknown_mode_message ].

(** The tokens after [/ai] name no known mode, or leave out an argument
    the mode requires. *)
Inductive malformed (env : gmap string string) : list string -> Prop :=
| no_mode : malformed env []
| unknown_mode (p0 : string) (args : list string) :
    ~ In (toLowerCase p0) modes -> malformed env (p0 :: args)
| no_argument (p0 : string) (args : list string) :
    toLowerCase p0 <> "help" -> trim (join_space args) = EmptyString ->
    malformed env (p0 :: args)
| chat_no_prompt (p0 : string) (args : list string) :
    toLowerCase p0 = "chat" ->
    Env.truthy (HF_MODEL_MAP env (toLowerCase (nth 0 args EmptyString))) = true ->
    join_space (drop 1 args) = EmptyString ->
    malformed env (p0 :: args)
| media_no_input (p0 : string) (args : list string) :
    toLowerCase p0 = "media" ->
    toLowerCase (nth 0 args EmptyString) = EmptyString \/ join_space (drop 1 args) = EmptyString ->
    malformed env (p0 :: args)
| replicate_no_prompt (p0 : string) (args : list string) :
    toLowerCase p0 = "replicate" ->
    nth 0 args EmptyString = EmptyString \/ join_space (drop 1 args) = EmptyString ->
    malformed env (p0 :: args).

(** What the resolver takes an adapter's run for: [Some v] when it
    returned a truthy [v] (a Success with result [v]), [None] when it
    threw or returned a falsy value (a Failure). *)
Definition success (m : IO json) : option json :=
  match IO.result m with
  | Returns v => if Js.truthy v then Some v else None
  | Throws _ => None
  end.

(** One of the shapes [callHfApi] looks for is present in the body: a
    string body, [[0].generated_text] of an array, [generated_text], or
    [data[0]]. *)
Definition hf_recognized (d : json) : bool :=
  match d with JStr _ => true | _ => false end
  || Js.isArray (Some d) && Js.truthy_opt (Js.get_opt (Js.index0 d) "generated_text")
  || Js.truthy_opt (Js.get_opt (Some d) "generated_text")
  || Js.truthy_opt (Js.get_opt (Some d) "data")
     && Js.truthy_opt (match Js.get_opt (Some d) "data" with
                       | Some x => Js.index0 x
                       | None => None
                       end).

(** The claim as the specification words it: an unrecognized body is a
    Failure. *)
Definition unrecognized_is_failure (env : gmap string string) (w : world) : Prop :=
  forall (prompt : string) (modelUrl : envval) (d : json),
    hf_api w modelUrl prompt = Returns d ->
    hf_recognized d = false ->
    success (callHfApi env w prompt modelUrl) = None.

(** Whose request an event is. *)
Definition is_hf_space (context : string) (e : event) : Prop :=
  exists url, e = HfSpacePost url context.
Definition is_hf_api (context : string) (e : event) : Prop :=
  exists url, e = HfApiPost url context.
Definition is_replicate (e : event) : Prop :=
  exists version input, e = ReplicatePost version input.
Definition is_web (prompt : string) (e : event) : Prop :=
  e = WikiGet prompt \/ e = DuckGet prompt.

(** *** The chat adapters and the resolver, in the specification's words *)

(** What the resolver gets from an adapter: a Success with the
    adapter's normalized result, or a Failure with its reason. *)
Inductive provider_result : Type :=
| Success (result : json)
| Failure (reason : string).

(** An adapter: whether the configuration it requires is present, and
    the call it makes when it is invoked. *)
Record adapter : Type := {
  available : bool;
  call : IO json
}.

(** The adapter boundary: what the call returns is a Success, and
    whatever it throws is a Failure. *)
Definition invoke (a : adapter) : provider_result * list event :=
  match call a with
  | (Returns v, t) => (Success v, t)
  | (Throws reason, t) => (Failure reason, t)
  end.

(** The resolver: the adapters that are available are invoked in order;
    after a Failure the next one is invoked; a Success that is accepted
    ends the resolution with its result; when all have failed the
    result is the "no provider" Failure.  An adapter that is not invoked
    adds nothing to the trace. *)
Fixpoint resolve_accepting (accept : json -> bool) (adapters : list adapter)
  : provider_result * list event :=
  match adapters with
  | [] => (Failure "no provider available", [])
  | a :: rest =>
      if available a then
        match invoke a with
        | (Success v, t) =>
            if accept v then (Success v, t)
            else let '(r, t') := resolve_accepting accept rest in (r, (t ++ t')%list)
        | (Failure _, t) =>
            let '(r, t') := resolve_accepting accept rest in (r, (t ++ t')%list)
        end
      else resolve_accepting accept rest
  end.

(** The resolver as the specification describes it: every Success ends
    the resolution. *)
Definition resolve : list adapter -> provider_result * list event :=
  resolve_accepting (fun _ => true).

(** The resolver in which a Success only counts when its result is not
    empty: after a falsy result the next adapter is invoked. *)
Definition resolve_nonempty : list adapter -> provider_result * list event :=
  resolve_accepting Js.truthy.

(** The hosted-inference space: it requires [HF_SPACE_URL], and is
    called with the transcript. *)
Definition space_adapter (env : gmap string string) (w : world) (context : string) : adapter :=
  {| available := Env.truthy_str (env !! "HF_SPACE_URL");
     call := let* text := callHfSpace env w context (env !! "HF_SPACE_URL") in
             IO.ret (JStr text) |}.

(** The model of the keyed inference API: the one the model key selects,
    the default one otherwise. *)
Definition api_model (env : gmap string string) (modelKey : string) : envval :=
  if Env.truthy (HF_MODEL_MAP env modelKey) then HF_MODEL_MAP env modelKey
  else HF_MODEL_MAP env "default".

(** The keyed inference API: it requires a model and
    [HUGGINGFACE_API_KEY], and is called with the transcript. *)
Definition api_adapter (env : gmap string string) (w : world) (modelKey context : string)
  : adapter :=
  {| available := Env.truthy (api_model env modelKey)
                  && Env.truthy_str (env !! "HUGGINGFACE_API_KEY");
     call := callHfApi env w context (api_model env modelKey) |}.

(** The model of the managed-compute provider: the value of the
    environment variable named for the model key, of
    [REPLICATE_CHAT_MODEL_GPT5] when the key names none. *)
Definition replicate_model (env : gmap string string) (modelKey : string) : envval :=
  Env.index_val env
    (if Env.truthy (replicate_chat_key modelKey) then replicate_chat_key modelKey
     else VString "REPLICATE_CHAT_MODEL_GPT5").

(** The text in a response of the managed-compute provider: the first
    output, or a notice with the status of the job; a response with
    neither is not recognized. *)
Definition replicate_normalized (r : json) : IO json :=
  let* output := read r "output" in
  let length := Js.get_opt output "length" in
  match Js.truthy_opt output && Js.truthy_opt length, Js.truthy_opt (Js.get r "status") with
  | true, _ =>
      let* text := coerce (match output with Some o => Js.index0 o | None => None end) in
      IO.ret (JStr text)
  | false, true =>
      let* status := coerce (Js.get r "status") in
      IO.ret (JStr ("Started replicate job (status " +:+ status +:+ "). Check dashboard."))
  | false, false => IO.throw "no output and no status in the response"
  end.

(** The managed-compute chat model: it requires [REPLICATE_API_KEY] and
    a model, and is called with the prompt. *)
Definition replicate_adapter (env : gmap string string) (w : world) (modelKey prompt : string)
  : adapter :=
  {| available := Env.truthy_str (env !! "REPLICATE_API_KEY")
                  && Env.truthy (replicate_model env modelKey);
     call := let* r := callReplicate env w (replicate_model env modelKey)
                         (JObj [("prompt", JStr prompt)]) in
             replicate_normalized r |}.

(** The answer synthesized from the encyclopedia and the search lookups
    of the prompt: it requires no configuration; the answer is made of
    what the lookups found, and there is none when they found nothing. *)
Definition web_adapter (w : world) (prompt : string) : adapter :=
  {| available := true;
     call :=
       let* wiki := wikiSummary w prompt in
       let* ddg := duckDuck w prompt in
       let* text :=
         match Js.truthy wiki, Js.truthy ddg with
         | true, true =>
             let* a := coerce (Some wiki) in
             let* b := coerce (Some ddg) in
             IO.ret ("From Wikipedia: " +:+ a +:+ newline +:+ newline +:+ "Duck: " +:+ b)
         | true, false =>
             let* a := coerce (Some wiki) in IO.ret ("From Wikipedia: " +:+ a)
         | false, true =>
             let* b := coerce (Some ddg) in
             IO.ret (newline +:+ newline +:+ "Duck: " +:+ b)
         | false, false => IO.ret EmptyString
         end in
       if nonempty text then IO.ret (JStr text)
       else IO.throw "the lookups found nothing" |}.

(** The adapters of the chat capability, in their order. *)
Definition chat_adapters (env : gmap string string) (w : world)
    (modelKey prompt context : string) : list adapter :=
  [ space_adapter env w context;
    api_adapter env w modelKey context;
    replicate_adapter env w modelKey prompt;
    web_adapter w prompt ].

(** The claim as the specification words it, for a resolver: when the
    resolver ends with the Success [v] of an adapter after the requests
    [t], the answer of the handler is [v] and the requests it made are
    [t]: those of the adapters that failed, in order, followed by those
    of the one that succeeded, and none of a later adapter. *)
Definition follows_resolver (resolver : list adapter -> provider_result * list event)
    (env : gmap string string) (w : world) (modelKey prompt context : string) : Prop :=
  forall (v : json) (t : list event),
    resolver (chat_adapters env w modelKey prompt context) = (Success v, t) ->
    chat_answer env w modelKey prompt context = (Returns v, t).

(** The requests of the adapters of a list that are available. *)
Definition requests_of (adapters : list adapter) : list event :=
  concat (map (fun a => if available a then snd (invoke a) else []) adapters).

(** An adapter gives no answer: it is not available, it fails, or its
    result is empty. *)
Definition no_answer (a : adapter) : Prop :=
  available a = false
  \/ (exists reason, fst (invoke a) = Failure reason)
  \/ (exists v, fst (invoke a) = Success v /\ Js.truthy v = false).

(** The answer of a computation and the result of a resolver agree: the
    computation returns the result of the Success, after the same
    requests; when the resolver ends without a Success the computation
    has made the same requests and throws. *)
Definition agrees (m : IO json) (r : provider_result * list event) : Prop :=
  match r with
  | (Success v, t) => m = (Returns v, t)
  | (Failure _, t) => m = (Throws type_error_primitive, t)
  end.

(** A step of the handler invokes an adapter when there is no answer
    yet: the adapter is invoked if it is available, the result of a
    Success becomes the answer, and after a Failure the answer stays as
    it was. *)
Definition invokes (a : adapter) (f : json -> IO json) : Prop :=
  forall x, Js.truthy x = false ->
    f x = if available a then
            match invoke a with
            | (Success v, t) => (Returns v, t)
            | (Failure _, t) => (Returns x, t)
            end
          else (Returns x, []).

(** A step of the handler is skipped once there is an answer. *)
Definition skipped (f : json -> IO json) : Prop :=
  forall x, Js.truthy x = true -> f x = (Returns x, []).

(** The text an adapter request carries as its input. *)
Definition adapter_input (e : event) : option string :=
  match e with
  | HfSpacePost _ p | HfApiPost _ p => Some p
  | ReplicatePost _ input => Js.toString_opt (Js.get input "prompt")
  | WikiGet q | DuckGet q => Some q
  | _ => None
  end.

(** The claim as the specification words it: every adapter invoked
    during a chat resolution is given the transcript. *)
Definition every_adapter_gets_transcript (env : gmap string string) (w : world)
    (modelKey prompt context : string) : Prop :=
  forall (e : event) (input : string),
    In e (IO.trace (chat_answer env w modelKey prompt context)) ->
    adapter_input e = Some input -> input = context.


(** A request to a provider, as opposed to one to Redis. *)
Definition is_provider (e : event) : Prop :=
  match e with
  | RedisGet _ | RedisSet _ _ _ => False
  | _ => True
  end.

(** A request to Redis. *)
Definition is_redis (e : event) : Prop :=
  match e with
  | RedisGet _ | RedisSet _ _ _ => True
  | _ => False
  end.


(** The request [e] to a media or speech provider was not served. *)
Definition request_failed (w : world) (e : event) : Prop :=
  match e with
  | RunwayPost url model input => exists msg, runway w url model input = Throws msg
  | ReplicatePost version input => exists msg, replicate w version input = Throws msg
  | ElevenLabsPost url text => exists msg, elevenlabs w url text = Throws msg
  | _ => True
  end.


(** The answer of the web synthesis when both lookups have failed. *)
Definition lookups_failed_answer : string :=
  "From Wikipedia: Wikipedia lookup failed" +:+ newline +:+ newline
  +:+ "Duck: DuckDuckGo lookup failed".


(** What may follow a number: not a digit, not the start of a fraction or
    of an exponent. *)
Definition terminated (rest : string) : bool :=
  match rest with
  | EmptyString => true
  | String c _ => negb (JsonParse.is_digit c) && negb (JsonParse.starts_fraction rest)
  end.

(** Only digits. *)
Fixpoint all_digits (s : string) : bool :=
  match s with
  | EmptyString => true
  | String c s' => JsonParse.is_digit c && all_digits s'
  end.

(** An element prints to something that starts with neither white space
    nor the closing bracket, and that parses back whatever terminated text
    follows. *)
Definition reads_back {A : Type} (item : string -> option (A * string))
    (show : A -> string) (close : ascii) (x : A) : Prop :=
  (forall rest, terminated rest = true -> item (show x +:+ rest) = Some (x, rest))
  /\ (exists c s, show x = String c s /\ JsonParse.is_json_ws c = false
                  /\ Ascii.eqb c close = false).

(** How deep arrays and objects nest in a value. *)
Fixpoint depth (v : json) : nat :=
  match v with
  | JArr items =>
      S ((fix go (l : list json) : nat :=
            match l with
            | [] => O
            | x :: l' => Nat.max (depth x) (go l')
            end) items)
  | JObj fields =>
      S ((fix go (l : list (string * json)) : nat :=
            match l with
            | [] => O
            | (_, x) :: l' => Nat.max (depth x) (go l')
            end) fields)
  | _ => O
  end.

(** One member of a serialized object. *)
Definition show_member (kv : string * json) : string :=
  Json.quote (fst kv) +:+ ":" +:+ Json.stringify (snd kv).

(** The first character of a serialized value. *)
Definition value_start (c : ascii) : bool :=
  JsonParse.is_digit c
  || existsb (Ascii.eqb c) ["n"; "t"; "f"; "-"; "["; "{"; Json.dquote]%char.

(** What happens to the store between two requests of the bot: a read, a
    write, or time passing. *)
Inductive memop : Type :=
| Get (chatId : Z)
| Put (chatId : Z) (history : json)
| Wait (ms : Z).

(** One operation, and a sequence of them, on the store. *)
Definition run_op (w : world) (ttl : Z) (op : memop) (st : store) : store * list event :=
  match op with
  | Get chatId => let '(_, st', t) := getMemory w chatId st in (st', t)
  | Put chatId history => saveMemory w ttl chatId history st
  | Wait ms => (Store.advance ms st, [])
  end.

Fixpoint run_ops (w : world) (ttl : Z) (ops : list memop) (st : store) : store * list event :=
  match ops with
  | [] => (st, [])
  | op :: rest =>
      let '(st1, t1) := run_op w ttl op st in
      let '(st2, t2) := run_ops w ttl rest st1 in
      (st2, (t1 ++ t2)%list)
  end.

(** While Redis is in use nothing has been written to the cache. *)
Definition coherent (st : store) : Prop :=
  usingRedis st && redis st = true -> memCache st = ∅.

(** The claim as the specification words it: a put followed at once by a
    get returns the history that was put. *)
Definition put_then_get (w : world) (ttl : Z) (st : store) : Prop :=
  forall (chatId : Z) (items : list json),
    fst (fst (getMemory w chatId (fst (saveMemory w ttl chatId (JArr items) st))))
    = JArr items.

(** ** Vocabulary of the further properties *)

(** A history the chat branch can work on: an array none of whose
    elements is [null]. *)
Definition is_history (h : json) : bool :=
  match h with
  | JArr items => forallb (fun m => match m with JNull => false | _ => true end) items
  | _ => false
  end.

(** Redis holds serialized histories and the cache holds histories: what
    [saveMemory] is given by the chat branch. *)
Definition store_ok (st : store) : Prop :=
  (forall key v t, redisDb st !! key = Some (v, t) ->
     exists h, v = Json.stringify h /\ is_history h = true)
  /\ (forall key h t, memCache st !! key = Some (h, t) -> is_history h = true).

(** What happens to the bot: a command arrives, in the world of that
    moment, or time passes. *)
Inductive happening : Type :=
| Command (w : world) (text : string) (from : Z)
| Elapse (ms : Z).

Fixpoint run_bot (env : gmap string string) (ttl : Z) (hs : list happening) (st : store)
  : list reply * store :=
  match hs with
  | [] => ([], st)
  | Command w text from :: rest =>
      let '(r, st1, _) := ai env w ttl text from st in
      let '(rs, st2) := run_bot env ttl rest st1 in
      (r :: rs, st2)
  | Elapse ms :: rest => run_bot env ttl rest (Store.advance ms st)
  end.

(** The computation does not throw. *)
Definition returns {A : Type} (m : IO A) : Prop := exists a, IO.result m = Returns a.

(** The one error the computation can throw is [err]. *)
Definition throws_only {A : Type} (err : string) (m : IO A) : Prop :=
  forall e, IO.result m = Throws e -> e = err.

(** The message of the [TypeError] that [mem.push(...)] throws when
    [mem] is not an array. *)
Definition push_error (mem : json) : string :=
  match mem with
  | JNull => type_error_read "null" "push"
  | _ => "mem.push is not a function"
  end.

(** The banner: what [withPrefix] puts before a text. *)
Definition banner : string := withPrefix EmptyString.

(** The texts a reply carries start with the banner: the text of a
    message and the caption of a photo or of a video.  A voice message
    and a document carry no text. *)
Definition bannered (r : reply) : bool :=
  match r with
  | ReplyText s | ReplyPhoto _ s | ReplyVideo _ s => String.prefix banner s
  | ReplyVoiceSource _ | ReplyVoiceUrl _ | ReplyDocument _ => true
  end.

(** A reply, or a reply if there is one, whose text starts with the banner. *)
Definition has_banner (r : reply) : Prop := bannered r = true.

Definition has_banner_opt (o : option reply) : Prop :=
  match o with Some r => has_banner r | None => True end.

(** What a computation returns, if it returns, satisfies [P]. *)
Definition holds {A : Type} (P : A -> Prop) (m : IO A) : Prop :=
  match IO.result m with
  | Returns a => P a
  | Throws _ => True
  end.

(** What one URL of a Space yields for a prompt: the text of a response
    that has output, or nothing when the request fails, when the response
    has neither [data] nor [generated_text], or when its output has no
    text. *)
Definition space_output (w : world) (prompt url : string) : option string :=
  match hf_space w url prompt with
  | Returns d =>
      match IO.result (hfSpace_output d) with
      | Returns found => found
      | Throws _ => None
      end
  | Throws _ => None
  end.

(** The text [callHfSpace] finds in the body of a response: the text of
    [data[0]] when [data] is there and not empty, else the text of
    [generated_text] when it is there; none when the body has neither,
    or when what it has cannot be turned into a string. *)
Definition space_text (d : json) : option string :=
  let data := Js.get_opt (Some d) "data" in
  if Js.truthy_opt data && Js.truthy_opt (Js.get_opt data "length")
  then Js.toString_opt (match data with Some x => Js.index0 x | None => None end)
  else
    let g := Js.get_opt (Some d) "generated_text" in
    if Js.truthy_opt g then Js.toString_opt g else None.

(** [tryUrls]: the URLs [callHfSpace] tries for a Space, in their order. *)
Definition tryUrls (spaceUrl : string) : list string :=
  [ stripSlash spaceUrl +:+ "/run/predict";
    stripSlash spaceUrl +:+ "/api/predict";
    stripSlash spaceUrl ].

(** The modes whose result is sent as a photo, and as a video. *)
Definition photo_modes : list string := ["t2i"; "flux"; "fixface"].
Definition video_modes : list string :=
  ["t2v"; "i2v"; "v2v"; "upscale"; "act"; "burncaption"].

(** The kind of a media reply fits the submode [sub], and its caption is
    the banner followed by the payload. *)
Definition media_kind (sub payload : string) (r : reply) : Prop :=
  match r with
  | ReplyText _ => True
  | ReplyPhoto out caption =>
      In sub photo_modes /\ caption = withPrefix payload /\ Js.truthy out = true
  | ReplyVideo out caption =>
      In sub video_modes /\ caption = withPrefix payload /\ Js.truthy out = true
  | ReplyDocument out => sub = "recon3d" /\ Js.truthy out = true
  | ReplyVoiceSource _ | ReplyVoiceUrl _ => False
  end.


Definition lookup_request (mode query : string) : event :=
  if String.eqb mode "wiki" then WikiGet query else DuckGet query.


(** The model keys a chat request can end up with: the default, a key of
    [HF_MODEL_MAP], or one of the two lower-case names every object
    inherits. *)
Definition chat_model_keys : list string :=
  ["llama2"; "mistral"; "flan_t5"; "falcon"; "gpt2"; "bloom"; "default";
   "constructor"; "__proto__"].

(** The environment variables the chat branch can take the Replicate
    model from. *)
Definition chat_replicate_names : list envval :=
  [ VString "REPLICATE_CHAT_MODEL_LLAMA2"; VString "REPLICATE_CHAT_MODEL_MISTRAL";
    VString "REPLICATE_CHAT_MODEL_GPT5"; VInherited "constructor"; VInherited "__proto__" ].

(** No capital letter of the basic Latin alphabet occurs in the string. *)
Fixpoint no_capital (s : string) : bool :=
  match s with
  | EmptyString => true
  | String c s' =>
      negb ((65 <=? N_of_ascii c) && (N_of_ascii c <=? 90))%N && no_capital s'
  end.

(** The string starts with a decimal digit. *)
Definition starts_with_digit (s : string) : bool :=
  match s with
  | String c _ => JsonParse.is_digit c
  | EmptyString => false
  end.

(** Every character of the string is unreserved or a percent sign. *)
Fixpoint url_safe (s : string) : bool :=
  match s with
  | EmptyString => true
  | String c s' => (unreserved c || Ascii.eqb c "%") && url_safe s'
  end.

(** The character occurs in the string. *)
Fixpoint occurs (c : ascii) (s : string) : bool :=
  match s with
  | EmptyString => false
  | String d s' => Ascii.eqb c d || occurs c s'
  end.

(** The value of a hexadecimal digit, written with a capital letter. *)
Definition hex_value (c : ascii) : N :=
  let n := N_of_ascii c in if (n <? 58)%N then (n - 48)%N else (n - 55)%N.

(** The code unit at the start of an encoded string, and what follows
    its encoding. *)
Definition decode_unit (s : string) : option (ascii * string) :=
  match s with
  | String "%" (String a (String b rest)) =>
      let byte := (hex_value a * 16 + hex_value b)%N in
      if (byte <? 128)%N then Some (ascii_of_N byte, rest)
      else
        match rest with
        | String "%" (String a' (String b' rest')) =>
            Some (ascii_of_N ((byte - 192) * 64 + (hex_value a' * 16 + hex_value b' - 128)),
                  rest')
        | _ => None
        end
  | String c rest => Some (c, rest)
  | EmptyString => None
  end.

(** The computation makes at most [n] requests. *)
Definition at_most {A : Type} (n : nat) (m : IO A) : Prop :=
  (length (IO.trace m) <= n)%nat.

(* ===================================================================== *)
(** * Scenarios: concrete configurations, worlds and states *)
(* ===================================================================== *)

(** A world in which every external service is unreachable. *)
Definition offline : world := {|
  hf_space := fun _ _ => Throws "connect ECONNREFUSED";
  hf_api := fun _ _ => Throws "connect ECONNREFUSED";
  replicate := fun _ _ => Throws "connect ECONNREFUSED";
  runway := fun _ _ _ => Throws "timeout of 600000ms exceeded";
  elevenlabs := fun _ _ => Throws "connect ECONNREFUSED";
  wikipedia := fun _ => Throws "connect ECONNREFUSED";
  duckduckgo := fun _ => Throws "connect ECONNREFUSED";
  translateLib := fun _ _ => Throws "connect ECONNREFUSED";
  redis_ok := fun _ => false
|}.

(** A process started without any configuration, at time [1000]. *)
Definition fresh : store := Store.init ∅ true ∅ 1000.

(** A configured keyed inference API, and a world in which it answers
    with an empty object. *)
Definition hf_env : gmap string string :=
  {[ "HF_URL" := "https://api-inference.huggingface.co/models/gpt2";
     "HUGGINGFACE_API_KEY" := "hf_secret" ]}.

Definition hf_empty_object : world := {|
  hf_space := hf_space offline;
  hf_api := fun _ _ => Returns (JObj []);
  replicate := replicate offline;
  runway := runway offline;
  elevenlabs := elevenlabs offline;
  wikipedia := wikipedia offline;
  duckduckgo := duckduckgo offline;
  translateLib := translateLib offline;
  redis_ok := redis_ok offline
|}.

(** A world in which the keyed inference API answers with a generated
    text that is an object with a member [toString]. *)
Definition api_answers_object : world := {|
  hf_space := hf_space offline;
  hf_api := fun _ _ => Returns (JArr [JObj [("generated_text", JObj [("toString", JNum 1)])]]);
  replicate := replicate offline;
  runway := runway offline;
  elevenlabs := elevenlabs offline;
  wikipedia := wikipedia offline;
  duckduckgo := duckduckgo offline;
  translateLib := translateLib offline;
  redis_ok := redis_ok offline
|}.

(** A configured hosted-inference space, and a world in which it answers
    ["4"]. *)
Definition space_env : gmap string string :=
  {[ "HF_SPACE_URL" := "https://belaynish.hf.space/" ]}.

Definition space_says_four : world := {|
  hf_space := fun _ _ => Returns (JObj [("data", JArr [JStr "4"])]);
  hf_api := hf_api offline;
  replicate := replicate offline;
  runway := runway offline;
  elevenlabs := elevenlabs offline;
  wikipedia := wikipedia offline;
  duckduckgo := duckduckgo offline;
  translateLib := translateLib offline;
  redis_ok := redis_ok offline
|}.

(** A space and a keyed API both configured, and a world in which the
    space is down and the API answers. *)
Definition space_and_api_env : gmap string string :=
  {[ "HF_SPACE_URL" := "https://belaynish.hf.space";
     "HF_URL" := "https://api-inference.huggingface.co/models/gpt2";
     "HUGGINGFACE_API_KEY" := "hf_secret" ]}.

Definition api_says_hello : world := {|
  hf_space := hf_space offline;
  hf_api := fun _ _ => Returns (JArr [JObj [("generated_text", JStr "Hello")]]);
  replicate := replicate offline;
  runway := runway offline;
  elevenlabs := elevenlabs offline;
  wikipedia := wikipedia offline;
  duckduckgo := duckduckgo offline;
  translateLib := translateLib offline;
  redis_ok := redis_ok offline
|}.

(** A world in which the space answers with the empty text and the
    keyed API answers. *)
Definition space_answers_empty : world := {|
  hf_space := fun _ _ => Returns (JObj [("data", JArr [JStr ""])]);
  hf_api := fun _ _ => Returns (JArr [JObj [("generated_text", JStr "Hello")]]);
  replicate := replicate offline;
  runway := runway offline;
  elevenlabs := elevenlabs offline;
  wikipedia := wikipedia offline;
  duckduckgo := duckduckgo offline;
  translateLib := translateLib offline;
  redis_ok := redis_ok offline
|}.

(** A world in which only the two lookups answer, with [X] and [Y]. *)
Definition lookups_answer : world := {|
  hf_space := hf_space offline;
  hf_api := hf_api offline;
  replicate := replicate offline;
  runway := runway offline;
  elevenlabs := elevenlabs offline;
  wikipedia := fun _ => Returns (JObj [("extract", JStr "X")]);
  duckduckgo := fun _ => Returns (JObj [("AbstractText", JStr "Y")]);
  translateLib := translateLib offline;
  redis_ok := redis_ok offline
|}.

(** A configured Runway text-to-image endpoint. *)
Definition runway_env : gmap string string :=
  {[ "RUNWAY_API_KEY" := "rw_secret";
     "RUNWAY_URL_TEXT_TO_IMAGE" := "https://api.runwayml.com/v1/text_to_image";
     "RUNWAY_MODEL_TEXT_TO_IMAGE" := "gen4_image" ]}.

(** A configured Redis, and the process just started with it. *)
Definition redis_env : gmap string string :=
  {[ "REDIS_URL" := "redis://localhost:6379" ]}.

Definition redis_fresh : store := Store.init redis_env true ∅ 1000.

(** A Redis whose first request fails and which would serve every later
    one. *)
Definition redis_recovers : world := {|
  hf_space := hf_space offline;
  hf_api := hf_api offline;
  replicate := replicate offline;
  runway := runway offline;
  elevenlabs := elevenlabs offline;
  wikipedia := wikipedia offline;
  duckduckgo := duckduckgo offline;
  translateLib := translateLib offline;
  redis_ok := fun n => negb (n =? 0)%nat
|}.

(** A Redis that serves its first request only. *)
Definition redis_goes_down : world := {|
  hf_space := hf_space offline;
  hf_api := hf_api offline;
  replicate := replicate offline;
  runway := runway offline;
  elevenlabs := elevenlabs offline;
  wikipedia := wikipedia offline;
  duckduckgo := duckduckgo offline;
  translateLib := translateLib offline;
  redis_ok := fun n => (n =? 0)%nat
|}.

(** A Redis that serves every request. *)
Definition redis_up : world := {|
  hf_space := hf_space offline;
  hf_api := hf_api offline;
  replicate := replicate offline;
  runway := runway offline;
  elevenlabs := elevenlabs offline;
  wikipedia := wikipedia offline;
  duckduckgo := duckduckgo offline;
  translateLib := translateLib offline;
  redis_ok := fun _ => true
|}.

(** ** Scenarios of the further properties *)

(** A Redis in which the key of user 7 holds an object, not a history. *)
Definition redis_holds_object : store :=
  Store.with_redisDb {[ "memory:7" := ("{}", 99999999) ]} redis_fresh.

(** A Space whose [/run/predict] is not found and whose [/api/predict]
    answers. *)
Definition space_second_url : world := {|
  hf_space := fun url _ =>
    if String.eqb url "https://belaynish.hf.space/api/predict"
    then Returns (JObj [("data", JArr [JStr "4"])])
    else Throws "Request failed with status code 404";
  hf_api := hf_api offline;
  replicate := replicate offline;
  runway := runway offline;
  elevenlabs := elevenlabs offline;
  wikipedia := wikipedia offline;
  duckduckgo := duckduckgo offline;
  translateLib := translateLib offline;
  redis_ok := redis_ok offline
|}.

(** A configured ElevenLabs, and a world in which it returns audio. *)
Definition speech_env : gmap string string :=
  {[ "ELEVENLABS_API_KEY" := "xi_secret";
     "ELEVENLABS_VOICE_ID" := "voice1";
     "ELEVENLABS_API_URL" := "https://api.elevenlabs.io/v1/";
     "REPLICATE_API_KEY" := "r8_secret";
     "REPLICATE_TTS_MODEL" := "kokoro" ]}.

Definition elevenlabs_speaks : world := {|
  hf_space := hf_space offline;
  hf_api := hf_api offline;
  replicate := replicate offline;
  runway := runway offline;
  elevenlabs := fun _ _ => Returns "AUDIO";
  wikipedia := wikipedia offline;
  duckduckgo := duckduckgo offline;
  translateLib := translateLib offline;
  redis_ok := redis_ok offline
|}.

(** A Runway that answers with one output. *)
Definition runway_paints : world := {|
  hf_space := hf_space offline;
  hf_api := hf_api offline;
  replicate := replicate offline;
  runway := fun _ _ _ => Returns (JObj [("output", JArr [JStr "https://cdn.example/cat.png"])]);
  elevenlabs := elevenlabs offline;
  wikipedia := wikipedia offline;
  duckduckgo := duckduckgo offline;
  translateLib := translateLib offline;
  redis_ok := redis_ok offline
|}.

(** A configured Replicate with a captioning model, and a world in which
    Replicate answers with a caption. *)
Definition caption_env : gmap string string :=
  {[ "REPLICATE_API_KEY" := "r8_secret";
     "REPLICATE_VIDEO_CAPTION_MODEL" := "captioner" ]}.

Definition replicate_captions : world := {|
  hf_space := hf_space offline;
  hf_api := hf_api offline;
  replicate := fun _ _ => Returns (JObj [("output", JArr [JStr "a cat on a mat"])]);
  runway := runway offline;
  elevenlabs := elevenlabs offline;
  wikipedia := wikipedia offline;
  duckduckgo := duckduckgo offline;
  translateLib := translateLib offline;
  redis_ok := redis_ok offline
|}.

(** A configured Replicate. *)
Definition replicate_env : gmap string string :=
  {[ "REPLICATE_API_KEY" := "r8_secret"; "MY_MODEL" := "owner/model:1" ]}.

(** A process started with a time-to-live of one hour, written with a
    unit. *)
Definition ttl_env : gmap string string := {[ "MEMORY_TTL_SECONDS" := " 3600s" ]}.



(* ===================================================================== *)
(** * Properties *)
(* ===================================================================== *)

(** ** Splitting and joining on spaces *)

Section StringFacts.

Lemma append_cons (c : ascii) (s t : string) : String c s +:+ t = String c (s +:+ t).
Proof. reflexivity. Qed.

Lemma append_nil_l (t : string) : EmptyString +:+ t = t.
Proof. reflexivity. Qed.

Lemma append_nil_r (s : string) : s +:+ EmptyString = s.
Proof. induction s as [|c s IH]; [reflexivity|]. rewrite append_cons, IH. reflexivity. Qed.

Lemma append_assoc (s t u : string) : (s +:+ t) +:+ u = s +:+ (t +:+ u).
Proof.
  induction s as [|c s IH]; [reflexivity|].
  rewrite !append_cons, IH. reflexivity.
Qed.

Lemma split_space_nonempty (s : string) : split_space s <> [].
Proof.
  destruct s as [|c s]; simpl; [discriminate|].
  destruct (Ascii.eqb c " "); [discriminate|].
  destruct (split_space s); discriminate.
Qed.

Lemma join_space_cons (c : ascii) (h : string) (t : list string) :
  join_space (String c h :: t) = String c (join_space (h :: t)).
Proof. destruct t; reflexivity. Qed.

Lemma join_split_space (s : string) : join_space (split_space s) = s.
Proof.
  induction s as [|c s IH]; [reflexivity|].
  simpl. destruct (Ascii.eqb_spec c " ") as [->|Hc].
  - destruct (split_space s) as [|h t] eqn:E.
    + exfalso. exact (split_space_nonempty s E).
    + change (join_space (EmptyString :: h :: t))
        with (String " " (join_space (h :: t))).
      rewrite IH. reflexivity.
  - destruct (split_space s) as [|h t] eqn:E.
    + exfalso. exact (split_space_nonempty s E).
    + rewrite join_space_cons, IH. reflexivity.
Qed.

Lemma split_space_single (s : string) :
  contains_space s = false -> split_space s = [s].
Proof.
  induction s as [|c s IH]; [reflexivity|].
  simpl. destruct (Ascii.eqb c " "); [discriminate|].
  intros H. rewrite (IH H). reflexivity.
Qed.

Lemma split_space_token (tok more : string) :
  contains_space tok = false ->
  split_space (tok +:+ " " +:+ more) = tok :: split_space more.
Proof.
  induction tok as [|c tok IH]; [reflexivity|].
  change (String c tok +:+ " " +:+ more) with (String c (tok +:+ " " +:+ more)).
  simpl. destruct (Ascii.eqb c " "); [discriminate|].
  intros H. rewrite (IH H). reflexivity.
Qed.

Lemma nonempty_true (s : string) : nonempty s = true <-> s <> EmptyString.
Proof. destruct s; simpl; split; congruence. Qed.

End StringFacts.

(* ===================================================================== *)
(** ** Translation *)
(* ===================================================================== *)

(** C8. Translation never fails the request: for every input text and
    every target language code, [translateUnofficial] returns a string,
    which is the translated text when the library call succeeds and the
    input text unchanged when it fails; it never throws, and it makes
    exactly one call to the library. *)
Theorem translate_never_fails (w : world) (text to : string) :
  translateUnofficial w text to
  = (Returns (translated w text to), [TranslateCall text to])
  /\ (forall e, translateLib w text to = Throws e ->
        IO.result (translateUnofficial w text to) = Returns text)
  /\ (forall t, translateLib w text to = Returns t ->
        IO.result (translateUnofficial w text to) = Returns t).
Proof.
  unfold translateUnofficial, translated, IO.catch, IO.request, IO.result.
  destruct (translateLib w text to) as [e|t]; simpl; repeat split; congruence.
Qed.

(** The translate branch makes the one library call that
    [translate_args] selects and replies with its result. *)
Lemma translate_run (w : world) (rest : string) :
  translate w rest
  = (Returns (ReplyText (withPrefix
       (translated w (snd (translate_args rest)) (fst (translate_args rest))))),
     [TranslateCall (snd (translate_args rest)) (fst (translate_args rest))]).
Proof.
  unfold translate. destruct (translate_args rest) as [to body]. simpl.
  unfold translateUnofficial, translated, IO.catch, IO.request, IO.bind, IO.ret.
  destruct (translateLib w body to); reflexivity.
Qed.

Lemma translate_args_token (tok more : string) :
  contains_space tok = false ->
  translate_args (tok +:+ " " +:+ more)
  = if (String.length tok <=? 3)%nat then (tok, more) else ("en", tok +:+ " " +:+ more).
Proof.
  intros Htok. unfold translate_args.
  rewrite (split_space_token tok more Htok).
  destruct (split_space more) as [|h t] eqn:E.
  { exfalso. exact (split_space_nonempty more E). }
  cbn [length Nat.ltb Nat.leb nth drop andb].
  destruct (String.length tok <=? 3)%nat; [|reflexivity].
  rewrite <- E, join_split_space. reflexivity.
Qed.

Lemma translate_args_single (rest : string) :
  contains_space rest = false -> translate_args rest = ("en", rest).
Proof.
  intros H. unfold translate_args. rewrite (split_space_single rest H). reflexivity.
Qed.

(** How the handler reaches the branch of a mode that only talks to the
    world. *)
Lemma ai_tokens (env : gmap string string) (w : world) (ttl : Z)
    (text : string) (from : Z) (st : store) (p0 : string) (args : list string) :
  drop 1 (split_space (trim text)) = p0 :: args ->
  ai env w ttl text from st
  = let mode := toLowerCase p0 in
    let rest := trim (join_space args) in
    if negb (nonempty rest) && negb (String.eqb mode "help")
    then (ReplyText (withPrefix no_input_message), st, [])
    else
      match dispatch env w ttl mode (p0 :: args) rest from st with
      | (Returns r, st', t) => (r, st', t)
      | (Throws e, st', t) =>
          (ReplyText (withPrefix ("Error: " +:+ (if nonempty e then e else "Error"))), st', t)
      end.
Proof. intros H. unfold ai. rewrite H. reflexivity. Qed.

(** C10. In translate mode the first token of the argument is taken as
    the target language exactly when the argument has more than one
    token and that token has at most three characters: a leading word
    such as "how" is consumed as a language code and left out of the
    translated text, a longer first word is not, and an argument of a
    single token is translated whole, into English. *)
Theorem translate_language_token (env : gmap string string) (w : world) (ttl : Z)
    (text : string) (from : Z) (st : store)
    (mode : string) (args : list string) (rest : string) :
  drop 1 (split_space (trim text)) = mode :: args ->
  toLowerCase mode = "translate" ->
  trim (join_space args) = rest ->
  rest <> EmptyString ->
  exists to body,
    ai env w ttl text from st
    = (ReplyText (withPrefix (translated w body to)), st, [TranslateCall body to])
    /\ (forall tok more,
          rest = tok +:+ " " +:+ more -> contains_space tok = false ->
          (String.length tok <= 3)%nat -> to = tok /\ body = more)
    /\ (forall tok more,
          rest = tok +:+ " " +:+ more -> contains_space tok = false ->
          (3 < String.length tok)%nat -> to = "en" /\ body = rest)
    /\ (contains_space rest = false -> to = "en" /\ body = rest).
Proof.
  intros Hparts Hmode Hrest Hne.
  exists (fst (translate_args rest)), (snd (translate_args rest)).
  split.
  - rewrite (ai_tokens _ _ _ _ _ _ _ _ Hparts). cbv zeta.
    rewrite Hmode, Hrest.
    apply nonempty_true in Hne. rewrite Hne.
    cbn [negb andb]. unfold dispatch.
    cbn [String.eqb Ascii.eqb Bool.eqb].
    unfold with_store. rewrite translate_run. reflexivity.
  - split; [|split].
    + intros tok more -> Htok Hlen.
      rewrite (translate_args_token tok more Htok).
      apply Nat.leb_le in Hlen. rewrite Hlen. split; reflexivity.
    + intros tok more -> Htok Hlen.
      rewrite (translate_args_token tok more Htok).
      apply Nat.leb_gt in Hlen. rewrite Hlen. split; reflexivity.
    + intros Hsingle. rewrite (translate_args_single rest Hsingle). split; reflexivity.
Qed.

(** [translate_language_token] on [/ai translate how are you]. *)
Lemma translate_language_token_how :
  exists to body,
    ai ∅ offline 10800 "/ai translate how are you" 7 fresh
    = (ReplyText (withPrefix (translated offline body to)), fresh, [TranslateCall body to])
    /\ to = "how" /\ body = "are you".
Proof.
  destruct (translate_language_token ∅ offline 10800 "/ai translate how are you" 7 fresh
              "translate" ["how"; "are"; "you"] "how are you"
              eq_refl eq_refl eq_refl ltac:(discriminate))
    as (to & body & Hrun & Htok & _ & _).
  exists to, body. split; [exact Hrun|].
  apply (Htok "how" "are you"); [reflexivity | reflexivity | simpl; lia].
Defined.

(* ===================================================================== *)
(** ** Malformed requests *)
(* ===================================================================== *)

Lemma nonempty_false (s : string) : nonempty s = false <-> s = EmptyString.
Proof. destruct s; simpl; split; congruence. Qed.

Lemma eqb_false_of_not_in (m k : string) (l : list string) :
  ~ In m l -> In k l -> String.eqb m k = false.
Proof. intros Hm Hk. apply String.eqb_neq. intros ->. contradiction. Qed.

Lemma dispatch_unknown (env : gmap string string) (w : world) (ttl : Z)
    (mode : string) (parts : list string) (rest : string) (from : Z) (st : store) :
  ~ In mode modes ->
  dispatch env w ttl mode parts rest from st
  = (Returns (ReplyText (withPrefix unknown_mode_message)), st, []).
Proof.
  intros H. unfold dispatch.
  rewrite !(eqb_false_of_not_in mode _ modes H) by (simpl; tauto).
  reflexivity.
Qed.

(** C9. A request with no mode, an unknown mode or a missing required
    argument is answered at once with one of the fixed banner-prefixed
    usage messages; no provider is called, no memory is read or written,
    and the state is left as it was. *)
Theorem malformed_request_usage (env : gmap string string) (w : world) (ttl : Z)
    (text : string) (from : Z) (st : store) :
  malformed env (drop 1 (split_space (trim text))) ->
  exists m, In m usage_replies
    /\ ai env w ttl text from st = (ReplyText (withPrefix m), st, []).
Proof.
  intros H. unfold ai.
  destruct H as [ | p0 args Hmode | p0 args Hhelp Hrest | p0 args Hmode Hkey Hprompt
                | p0 args Hmode Hmiss | p0 args Hmode Hmiss ]; cbv zeta.
  - exists usage_message. split; [simpl; tauto | reflexivity].
  - assert (String.eqb (toLowerCase p0) "help" = false) as ->
      by (apply (eqb_false_of_not_in _ _ modes Hmode); simpl; tauto).
    destruct (nonempty (trim (join_space (drop 1 (p0 :: args))))).
    + rewrite (dispatch_unknown _ _ _ _ _ _ _ _ Hmode).
      exists unknown_mode_message. split; [simpl; tauto | reflexivity].
    + exists no_input_message. split; [simpl; tauto | reflexivity].
  - apply String.eqb_neq in Hhelp. rewrite Hhelp.
    change (drop 1 (p0 :: args)) with args. rewrite Hrest.
    exists no_input_message. split; [simpl; tauto | reflexivity].
  - rewrite Hmode. change (drop 1 (p0 :: args)) with args.
    destruct (nonempty (trim (join_space args))); cbn [negb andb String.eqb Ascii.eqb Bool.eqb].
    + unfold dispatch. cbn [String.eqb Ascii.eqb Bool.eqb].
      unfold chat, chat_args.
      change (nth 1 (p0 :: args) EmptyString) with (nth 0 args EmptyString).
      change (drop 2 (p0 :: args)) with (drop 1 args).
      rewrite Hkey, Hprompt. cbn [nonempty negb].
      exists no_prompt_message. split; [simpl; tauto | reflexivity].
    + exists no_input_message. split; [simpl; tauto | reflexivity].
  - rewrite Hmode. change (drop 1 (p0 :: args)) with args.
    destruct (nonempty (trim (join_space args))); cbn [negb andb String.eqb Ascii.eqb Bool.eqb].
    + unfold dispatch. cbn [String.eqb Ascii.eqb Bool.eqb].
      unfold with_store, media.
      change (nth 1 (p0 :: args) EmptyString) with (nth 0 args EmptyString).
      change (drop 2 (p0 :: args)) with (drop 1 args).
      assert (negb (nonempty (toLowerCase (nth 0 args EmptyString)))
              || negb (nonempty (join_space (drop 1 args))) = true) as ->.
      { destruct Hmiss as [-> | ->]; [reflexivity|].
        apply orb_true_r. }
      exists media_usage_message. split; [simpl; tauto | reflexivity].
    + exists no_input_message. split; [simpl; tauto | reflexivity].
  - rewrite Hmode. change (drop 1 (p0 :: args)) with args.
    destruct (nonempty (trim (join_space args))); cbn [negb andb String.eqb Ascii.eqb Bool.eqb].
    + unfold dispatch. cbn [String.eqb Ascii.eqb Bool.eqb].
      unfold with_store, replicate_direct.
      change (nth 1 (p0 :: args) EmptyString) with (nth 0 args EmptyString).
      change (drop 2 (p0 :: args)) with (drop 1 args).
      assert (negb (nonempty (nth 0 args EmptyString))
              || negb (nonempty (join_space (drop 1 args))) = true) as ->.
      { destruct Hmiss as [-> | ->]; [reflexivity|].
        apply orb_true_r. }
      exists replicate_usage_message. split; [simpl; tauto | reflexivity].
    + exists no_input_message. split; [simpl; tauto | reflexivity].
Qed.

(** [malformed_request_usage] on [/ai media t2i], which names no input. *)
Lemma malformed_request_usage_media :
  exists m, In m usage_replies
    /\ ai ∅ offline 10800 "/ai media t2i" 7 fresh = (ReplyText (withPrefix m), fresh, []).
Proof.
  apply (malformed_request_usage ∅ offline 10800 "/ai media t2i" 7 fresh).
  apply media_no_input; [reflexivity | right; reflexivity].
Defined.

(* ===================================================================== *)
(** ** The keyed inference API and unrecognized responses *)
(* ===================================================================== *)

Lemma of_Z_nonempty (n : Z) : nonempty (of_Z n) = true.
Proof.
  unfold of_Z. destruct n as [|p|p]; [reflexivity| |reflexivity].
  simpl. unfold NilZero.string_of_uint.
  destruct (Pos.to_uint p); reflexivity.
Qed.

Lemma stringify_nonempty (d : json) : nonempty (Json.stringify d) = true.
Proof.
  destruct d as [|[]|n|s|items|fields]; try reflexivity.
  apply of_Z_nonempty.
Qed.

Lemma slice0_nonempty (n : nat) (s : string) :
  nonempty s = true -> nonempty (slice0 (S n) s) = true.
Proof. destruct s; [discriminate|reflexivity]. Qed.

Lemma hfApi_output_unrecognized (d : json) :
  hf_recognized d = false ->
  hfApi_output d = JStr (slice0 4000 (Json.stringify d)).
Proof.
  unfold hf_recognized, hfApi_output. intros H.
  destruct d as [|b|n|s|items|fields]; try discriminate H; cbn [orb] in H.
  all: apply orb_false_elim in H as [H H3].
  all: apply orb_false_elim in H as [H1 H2].
  all: rewrite H1, H2, H3; reflexivity.
Qed.

(** C7, as stated, fails: the body [{}] has none of the recognized
    fields, yet [callHfApi] returns its serialization ["{}"], which the
    chat handler takes for the answer and sends to the user. *)
Lemma hf_unrecognized_is_answered :
  hf_recognized (JObj []) = false
  /\ callHfApi hf_env hf_empty_object "user: hi"
       (VString "https://api-inference.huggingface.co/models/gpt2")
     = (Returns (JStr "{}"),
        [HfApiPost (VString "https://api-inference.huggingface.co/models/gpt2") "user: hi"])
  /\ fst (fst (ai hf_env hf_empty_object 10800 "/ai chat hi" 7 fresh))
     = ReplyText (withPrefix "{}")
  /\ ~ unrecognized_is_failure hf_env hf_empty_object.
Proof.
  split; [reflexivity|]. split; [reflexivity|]. split; [vm_compute; reflexivity|].
  intros H.
  specialize (H "user: hi" (VString "https://api-inference.huggingface.co/models/gpt2")
                (JObj []) eq_refl eq_refl).
  vm_compute in H. discriminate H.
Qed.

(** C7, amended. When the configured API answers with a body that has
    none of the recognized fields, [callHfApi] does not fail: it returns
    the JSON serialization of the body cut to 4000 characters, a
    non-empty string, which the resolver takes for a Success. *)
Theorem hf_unrecognized_is_serialized (env : gmap string string) (w : world)
    (prompt : string) (modelUrl : envval) (d : json) :
  Env.truthy modelUrl = true ->
  Env.truthy_str (env !! "HUGGINGFACE_API_KEY") = true ->
  hf_api w modelUrl prompt = Returns d ->
  hf_recognized d = false ->
  callHfApi env w prompt modelUrl
  = (Returns (JStr (slice0 4000 (Json.stringify d))), [HfApiPost modelUrl prompt])
  /\ success (callHfApi env w prompt modelUrl)
     = Some (JStr (slice0 4000 (Json.stringify d))).
Proof.
  intros Hurl Hkey Hd Hshape.
  assert (callHfApi env w prompt modelUrl
          = (Returns (JStr (slice0 4000 (Json.stringify d))), [HfApiPost modelUrl prompt])) as E.
  { unfold callHfApi. rewrite Hurl, Hkey. cbn [negb orb].
    unfold IO.request, IO.bind, IO.ret. rewrite Hd.
    rewrite (hfApi_output_unrecognized d Hshape). reflexivity. }
  split; [exact E|].
  unfold success. rewrite E. cbn [IO.result fst Js.truthy].
  rewrite (slice0_nonempty 3999 _ (stringify_nonempty d)). reflexivity.
Qed.

(** [hf_unrecognized_is_serialized] on the empty object. *)
Lemma hf_unrecognized_is_serialized_empty_object :
  callHfApi hf_env hf_empty_object "user: hi"
    (VString "https://api-inference.huggingface.co/models/gpt2")
  = (Returns (JStr (slice0 4000 (Json.stringify (JObj [])))),
     [HfApiPost (VString "https://api-inference.huggingface.co/models/gpt2") "user: hi"])
  /\ success (callHfApi hf_env hf_empty_object "user: hi"
                (VString "https://api-inference.huggingface.co/models/gpt2"))
     = Some (JStr (slice0 4000 (Json.stringify (JObj [])))).
Proof.
  apply (hf_unrecognized_is_serialized hf_env hf_empty_object "user: hi"
           (VString "https://api-inference.huggingface.co/models/gpt2") (JObj []));
    reflexivity.
Defined.

(* ===================================================================== *)
(** ** Traces of computations *)
(* ===================================================================== *)

Section TraceFacts.
Context {A B : Type}.

Lemma bind_returns (m : IO A) (k : A -> IO B) (a : A) (t : list event) :
  m = (Returns a, t) ->
  IO.bind m k = (IO.result (k a), (t ++ IO.trace (k a))%list).
Proof. intros ->. unfold IO.bind. destruct (k a); reflexivity. Qed.

Lemma bind_throws (m : IO A) (k : A -> IO B) (e : string) (t : list event) :
  m = (Throws e, t) -> IO.bind m k = (Throws e, t).
Proof. intros ->. reflexivity. Qed.

Lemma catch_returns (m : IO A) (h : string -> IO A) (a : A) (t : list event) :
  m = (Returns a, t) -> IO.catch m h = (Returns a, t).
Proof. intros ->. reflexivity. Qed.

Lemma catch_throws (m : IO A) (h : string -> IO A) (e : string) (t : list event) :
  m = (Throws e, t) ->
  IO.catch m h = (IO.result (h e), (t ++ IO.trace (h e))%list).
Proof. intros ->. unfold IO.catch. destruct (h e); reflexivity. Qed.

Lemma trace_bind (P : event -> Prop) (m : IO A) (k : A -> IO B) :
  Forall P (IO.trace m) -> (forall a, Forall P (IO.trace (k a))) ->
  Forall P (IO.trace (IO.bind m k)).
Proof.
  intros Hm Hk. destruct m as [[e|a] t].
  - exact Hm.
  - rewrite (bind_returns _ k a t eq_refl). apply Forall_app. split; [exact Hm | apply Hk].
Qed.

Lemma trace_catch (P : event -> Prop) (m : IO A) (h : string -> IO A) :
  Forall P (IO.trace m) -> (forall e, Forall P (IO.trace (h e))) ->
  Forall P (IO.trace (IO.catch m h)).
Proof.
  intros Hm Hh. destruct m as [[e|a] t].
  - rewrite (catch_throws _ h e t eq_refl). apply Forall_app. split; [exact Hm | apply Hh].
  - exact Hm.
Qed.

Lemma trace_ret (P : event -> Prop) (a : A) : Forall P (IO.trace (IO.ret a)).
Proof. constructor. Qed.

Lemma trace_throw (P : event -> Prop) (e : string) : Forall P (IO.trace (@IO.throw A e)).
Proof. constructor. Qed.

Lemma trace_request (P : event -> Prop) (ev : event) (r : outcome A) :
  P ev -> Forall P (IO.trace (IO.request ev r)).
Proof. intros H. constructor; [exact H | constructor]. Qed.

End TraceFacts.

Lemma trace_read (P : event -> Prop) (v : json) (k : string) :
  Forall P (IO.trace (read v k)).
Proof. destruct v; constructor. Qed.

Lemma io_eta {A : Type} (m : IO A) : m = (IO.result m, IO.trace m).
Proof. destruct m; reflexivity. Qed.

(** A coercion makes no request, and throws nothing but its [TypeError]. *)
Lemma coerce_cases (v : option json) :
  (exists text, Js.toString_opt v = Some text /\ coerce v = (Returns text, []))
  \/ (Js.toString_opt v = None /\ coerce v = (Throws type_error_primitive, [])).
Proof.
  unfold coerce. destruct (Js.toString_opt v) as [text|].
  - left. exists text. split; reflexivity.
  - right. split; reflexivity.
Qed.

Lemma trace_coerce (P : event -> Prop) (v : option json) : Forall P (IO.trace (coerce v)).
Proof. unfold coerce. destruct (Js.toString_opt v); constructor. Qed.


Lemma reply_text_cases (v : json) :
  (exists text, Js.toString v = Some text
     /\ reply_text v = (Returns (ReplyText (withPrefix text)), []))
  \/ (Js.toString v = None /\ reply_text v = (Throws type_error_primitive, [])).
Proof.
  unfold reply_text, withPrefix_value, coerce. cbn [Js.toString_opt].
  destruct (Js.toString v) as [text|].
  - left. exists text. split; reflexivity.
  - right. split; reflexivity.
Qed.

Lemma trace_reply_text (P : event -> Prop) (v : json) : Forall P (IO.trace (reply_text v)).
Proof.
  destruct (reply_text_cases v) as [(text & _ & ->) | [_ ->]]; constructor.
Qed.

Lemma hfSpace_output_trace (d : json) : IO.trace (hfSpace_output d) = [].
Proof.
  unfold hfSpace_output. destruct (_ && _).
  - destruct (coerce_cases (match Js.get_opt (Some d) "data" with
                            | Some x => Js.index0 x
                            | None => None
                            end)) as [(text & _ & ->) | [_ ->]]; reflexivity.
  - destruct (Js.truthy_opt _); [|reflexivity].
    destruct (coerce_cases (Js.get_opt (Some d) "generated_text"))
      as [(text & _ & ->) | [_ ->]]; reflexivity.
Qed.

(** One turn of the loop of [callHfSpace]: the URL yields a text, which
    is returned, or it is passed over. *)
Lemma hfSpace_loop_cons (w : world) (url : string) (rest : list string) (prompt : string) :
  hfSpace_loop w (url :: rest) prompt
  = match space_output w prompt url with
    | Some text => (Returns text, [HfSpacePost url prompt])
    | None =>
        (IO.result (hfSpace_loop w rest prompt),
         HfSpacePost url prompt :: IO.trace (hfSpace_loop w rest prompt))
    end.
Proof.
  cbn [hfSpace_loop]. unfold space_output, IO.request.
  destruct (hf_space w url prompt) as [e|d].
  - cbn. destruct (hfSpace_loop w rest prompt); reflexivity.
  - pose proof (hfSpace_output_trace d) as Ht.
    unfold IO.bind at 2.
    destruct (hfSpace_output d) as [[e|[text|]] t]; cbn in Ht; subst t;
      unfold IO.bind, IO.catch, IO.ret, IO.result, IO.trace; cbn;
      try reflexivity; destruct (hfSpace_loop w rest prompt); reflexivity.
Qed.

Lemma hfSpace_loop_first (w : world) (prompt : string) (tried : list string)
    (url : string) (rest : list string) (s : string) :
  Forall (fun u => space_output w prompt u = None) tried ->
  space_output w prompt url = Some s ->
  hfSpace_loop w (tried ++ url :: rest) prompt
  = (Returns s, map (fun u => HfSpacePost u prompt) (tried ++ [url])).
Proof.
  intros Htried Hurl. induction Htried as [|u tried Hu _ IH].
  - cbn [app map]. rewrite hfSpace_loop_cons, Hurl. reflexivity.
  - cbn [app map]. rewrite hfSpace_loop_cons, Hu, IH. reflexivity.
Qed.

Lemma hfSpace_loop_none (w : world) (prompt : string) (urls : list string) :
  Forall (fun u => space_output w prompt u = None) urls ->
  hfSpace_loop w urls prompt
  = (Throws "HF Space did not return valid output", map (fun u => HfSpacePost u prompt) urls).
Proof.
  induction 1 as [|u urls Hu _ IH]; [reflexivity|].
  cbn [map]. rewrite hfSpace_loop_cons, Hu, IH. reflexivity.
Qed.

Section ChatSteps.
Variable env : gmap string string.
Variable w : world.

Lemma hfSpace_loop_trace (urls : list string) (prompt : string) :
  Forall (is_hf_space prompt) (IO.trace (hfSpace_loop w urls prompt)).
Proof.
  induction urls as [|url rest IH]; [constructor|].
  rewrite hfSpace_loop_cons. destruct (space_output w prompt url).
  - constructor; [eexists; reflexivity | constructor].
  - constructor; [eexists; reflexivity | exact IH].
Qed.

Lemma chat_hf_space_trace (context : string) (answer : json) :
  Forall (is_hf_space context) (IO.trace (chat_hf_space env w context answer)).
Proof.
  unfold chat_hf_space. destruct (Env.truthy_str (env !! "HF_SPACE_URL")); [|constructor].
  apply trace_catch; [|intros; apply trace_ret].
  apply trace_bind; [|intros; apply trace_ret].
  unfold callHfSpace. destruct (env !! "HF_SPACE_URL") as [url|]; [|constructor].
  destruct (nonempty url); [apply hfSpace_loop_trace | constructor].
Qed.

Lemma chat_hf_api_trace (modelKey context : string) (answer : json) :
  Forall (is_hf_api context) (IO.trace (chat_hf_api env w modelKey context answer)).
Proof.
  unfold chat_hf_api. destruct (negb (Js.truthy answer)); [|constructor].
  destruct (_ && _); [|constructor].
  apply trace_catch; [|intros; apply trace_ret].
  unfold callHfApi. destruct (_ || _); [constructor|].
  apply trace_bind; [|intros; apply trace_ret].
  apply trace_request. eexists; reflexivity.
Qed.

Lemma callReplicate_trace (version : envval) (input : json) :
  Forall is_replicate (IO.trace (callReplicate env w version input)).
Proof.
  unfold callReplicate. destruct (negb _); [constructor|].
  apply trace_request. do 2 eexists; reflexivity.
Qed.

Lemma replicate_chat_text_trace (P : event -> Prop) (r answer : json) :
  Forall P (IO.trace (replicate_chat_text r answer)).
Proof.
  unfold replicate_chat_text. apply trace_bind; [apply trace_read|].
  intros output. destruct (_ && _).
  - apply trace_bind; [apply trace_coerce | intros; apply trace_ret].
  - destruct (Js.truthy_opt _); [|apply trace_ret].
    apply trace_bind; [apply trace_coerce | intros; apply trace_ret].
Qed.

Lemma chat_replicate_trace (modelKey prompt : string) (answer : json) :
  Forall is_replicate (IO.trace (chat_replicate env w modelKey prompt answer)).
Proof.
  unfold chat_replicate. destruct (_ && _); [|constructor].
  apply trace_catch; [|intros; apply trace_ret].
  destruct (Env.truthy _); [|constructor].
  apply trace_bind; [apply callReplicate_trace|].
  intros r. apply replicate_chat_text_trace.
Qed.

Lemma read_not_null (d : json) (k : string) :
  d <> JNull -> read d k = IO.ret (Js.get d k).
Proof. destruct d; [congruence | reflexivity..]. Qed.

Lemma wikiSummary_run (query : string) :
  exists v, wikiSummary w query = (Returns v, [WikiGet query]) /\ Js.truthy v = true.
Proof.
  unfold wikiSummary, IO.request. destruct (wikipedia w query) as [e|d].
  - exists (JStr "Wikipedia lookup failed"). split; reflexivity.
  - assert (d = JNull \/ d <> JNull) as [->|Hd]
      by (destruct d; [left; reflexivity | right; discriminate ..]).
    + exists (JStr "Wikipedia lookup failed"). split; reflexivity.
    + unfold IO.bind at 1. rewrite (read_not_null d "extract" Hd).
      unfold IO.bind, IO.ret, IO.catch.
      destruct (Js.get d "extract") as [x|]; cbn [Js.truthy_opt default].
      * destruct (Js.truthy x) eqn:Hx.
        -- exists x. split; [reflexivity | exact Hx].
        -- exists (JStr "No summary found"). split; reflexivity.
      * exists (JStr "No summary found"). split; reflexivity.
Qed.

Lemma duckDuck_run (query : string) :
  exists v, duckDuck w query = (Returns v, [DuckGet query]) /\ Js.truthy v = true.
Proof.
  unfold duckDuck, IO.request. destruct (duckduckgo w query) as [e|d].
  - eexists. split; reflexivity.
  - unfold IO.catch, IO.bind.
    destruct (Js.truthy_opt (Js.get_opt (Some d) "AbstractText")) eqn:Ha.
    + destruct (Js.get_opt (Some d) "AbstractText") as [x|]; [|discriminate Ha].
      eexists. split; [reflexivity | exact Ha].
    + match goal with
      | |- context [Js.truthy_opt (Js.get_opt (Some (safeFirst ?a)) "Text")] =>
          destruct (Js.truthy_opt (Js.get_opt (Some (safeFirst a)) "Text")) eqn:Ht;
          [ destruct (Js.get_opt (Some (safeFirst a)) "Text") as [x|]; [|discriminate Ht] | ]
      end.
      * eexists. split; [reflexivity | exact Ht].
      * eexists. split; reflexivity.
Qed.

End ChatSteps.

(* ===================================================================== *)
(** ** The fallback resolver of the chat capability *)
(* ===================================================================== *)

Lemma bind_ret_l {A B : Type} (a : A) (k : A -> IO B) : IO.bind (IO.ret a) k = k a.
Proof. unfold IO.bind, IO.ret. destruct (k a); reflexivity. Qed.

(** What the resolver ends with has been accepted. *)
Lemma resolve_accepting_accepts (accept : json -> bool) (adapters : list adapter)
    (v : json) (t : list event) :
  resolve_accepting accept adapters = (Success v, t) -> accept v = true.
Proof.
  revert t. induction adapters as [|a rest IH]; intros t; [discriminate|].
  cbn [resolve_accepting]. destruct (available a); [|apply IH].
  destruct (invoke a) as [[v'|reason] t'].
  - destruct (accept v') eqn:Hv'.
    + intros [= <- <-]. exact Hv'.
    + destruct (resolve_accepting accept rest) as [r t'']. intros [= -> <-]. eapply IH. reflexivity.
  - destruct (resolve_accepting accept rest) as [r t'']. intros [= -> <-]. eapply IH. reflexivity.
Qed.

(** The resolver on a list whose first accepted Success is [a]'s: the
    result is [a]'s, and the requests are those of the adapters before
    [a] that are available, in order, followed by [a]'s; nothing of the
    adapters after [a]. *)
Lemma resolve_nonempty_first (pre post : list adapter) (a : adapter) (v : json) :
  Forall no_answer pre ->
  available a = true ->
  fst (invoke a) = Success v ->
  Js.truthy v = true ->
  resolve_nonempty (pre ++ a :: post) = (Success v, (requests_of pre ++ snd (invoke a))%list).
Proof.
  intros Hpre Ha Hv Ht. unfold resolve_nonempty, requests_of.
  induction Hpre as [|x pre Hx _ IH].
  - cbn. rewrite Ha. destruct (invoke a) as [r t]. cbn in Hv. subst r. rewrite Ht. reflexivity.
  - cbn [app resolve_accepting map concat]. rewrite IH.
    destruct Hx as [Hx | [(reason & Hx) | (v' & Hx & Hv')]].
    + rewrite Hx. reflexivity.
    + destruct (available x); [|reflexivity].
      destruct (invoke x) as [r t]. cbn in Hx. subst r. cbn. rewrite app_assoc. reflexivity.
    + destruct (available x); [|reflexivity].
      destruct (invoke x) as [r t]. cbn in Hx. subst r. rewrite Hv'. cbn.
      rewrite app_assoc. reflexivity.
Qed.

(** A resolver that ends without a Success has invoked every adapter
    that is available. *)
Lemma resolve_nonempty_all (adapters : list adapter) (reason : string) (t : list event) :
  resolve_nonempty adapters = (Failure reason, t) -> t = requests_of adapters.
Proof.
  unfold resolve_nonempty, requests_of. revert reason t.
  induction adapters as [|a rest IH]; intros reason t; [intros [= _ <-]; reflexivity|].
  cbn [resolve_accepting map concat]. destruct (available a); [|apply IH].
  destruct (invoke a) as [[v|r] ta]; cbn [snd].
  - destruct (Js.truthy v); [discriminate|].
    destruct (resolve_accepting Js.truthy rest) as [[v'|r'] t']; [discriminate|].
    intros [= _ <-]. rewrite (IH r' t' eq_refl). reflexivity.
  - destruct (resolve_accepting Js.truthy rest) as [[v'|r'] t']; [discriminate|].
    intros [= _ <-]. rewrite (IH r' t' eq_refl). reflexivity.
Qed.

Lemma skipped_bind (f k : json -> IO json) :
  skipped f -> skipped k -> skipped (fun x => let* y := f x in k y).
Proof. intros Hf Hk x Hx. rewrite (Hf x Hx). cbn. rewrite (Hk x Hx). reflexivity. Qed.

Lemma invokes_then (a : adapter) (rest : list adapter) (f k : json -> IO json) (x : json) :
  invokes a f -> skipped k ->
  (forall y, Js.truthy y = false -> agrees (k y) (resolve_nonempty rest)) ->
  Js.truthy x = false ->
  agrees (let* y := f x in k y) (resolve_nonempty (a :: rest)).
Proof.
  intros Hf Hyes Hno Hx. rewrite (Hf x Hx).
  unfold resolve_nonempty in *. cbn [resolve_accepting].
  destruct (available a).
  - destruct (invoke a) as [[v|reason] t].
    + destruct (Js.truthy v) eqn:Hv.
      * cbn. rewrite (Hyes v Hv), app_nil_r. reflexivity.
      * specialize (Hno v Hv). destruct (resolve_accepting Js.truthy rest) as [[v'|e] t'];
          cbn in *; rewrite Hno; reflexivity.
    + specialize (Hno x Hx). destruct (resolve_accepting Js.truthy rest) as [[v'|e] t'];
        cbn in *; rewrite Hno; reflexivity.
  - specialize (Hno x Hx). destruct (resolve_accepting Js.truthy rest) as [[v'|e] t'];
      cbn in *; rewrite Hno; reflexivity.
Qed.


Section ChatResolver.
Variable env : gmap string string.
Variable w : world.

Lemma chat_hf_space_invokes (context : string) :
  invokes (space_adapter env w context) (chat_hf_space env w context).
Proof.
  intros x _. unfold chat_hf_space, invoke. cbn [available call space_adapter].
  destruct (Env.truthy_str (env !! "HF_SPACE_URL")); [|reflexivity].
  destruct (callHfSpace env w context (env !! "HF_SPACE_URL")) as [[e|text] t]; cbn;
    rewrite app_nil_r; reflexivity.
Qed.

Lemma chat_hf_api_skipped (modelKey context : string) :
  skipped (chat_hf_api env w modelKey context).
Proof. intros x Hx. unfold chat_hf_api. rewrite Hx. reflexivity. Qed.

Lemma chat_hf_api_invokes (modelKey context : string) :
  invokes (api_adapter env w modelKey context) (chat_hf_api env w modelKey context).
Proof.
  intros x Hx. unfold chat_hf_api, invoke. rewrite Hx.
  cbn [negb available call api_adapter]. unfold api_model, Env.or_val.
  destruct (_ && _); [|reflexivity].
  destruct (callHfApi env w context _) as [[e|v] t]; cbn; [rewrite app_nil_r|]; reflexivity.
Qed.

Lemma chat_replicate_skipped (modelKey prompt : string) :
  skipped (chat_replicate env w modelKey prompt).
Proof. intros x Hx. unfold chat_replicate. rewrite Hx. reflexivity. Qed.

(** The text the handler takes from a response of Replicate is the
    normalized result of the adapter; a response that is not recognized
    leaves the answer as it was. *)
Lemma replicate_chat_text_normalized (r x : json) :
  IO.catch (replicate_chat_text r x) (fun _ => IO.ret x)
  = match replicate_normalized r with
    | (Returns v, t) => (Returns v, t)
    | (Throws _, t) => (Returns x, t)
    end.
Proof.
  unfold replicate_chat_text, replicate_normalized.
  assert (r = JNull \/ r <> JNull) as [->|Hr]
    by (destruct r; [left; reflexivity | right; discriminate ..]).
  { reflexivity. }
  rewrite (read_not_null r "output" Hr), !bind_ret_l.
  destruct (_ && _).
  - destruct (coerce_cases (match Js.get r "output" with
                            | Some o => Js.index0 o
                            | None => None
                            end)) as [(text & _ & ->) | [_ ->]]; reflexivity.
  - destruct (Js.truthy_opt (Js.get r "status")); [|reflexivity].
    destruct (coerce_cases (Js.get r "status")) as [(text & _ & ->) | [_ ->]]; reflexivity.
Qed.

Lemma replicate_normalized_trace (r : json) : IO.trace (replicate_normalized r) = [].
Proof.
  unfold replicate_normalized.
  assert (r = JNull \/ r <> JNull) as [->|Hr]
    by (destruct r; [left; reflexivity | right; discriminate ..]).
  { reflexivity. }
  rewrite (read_not_null r "output" Hr), !bind_ret_l.
  destruct (_ && _).
  - destruct (coerce_cases (match Js.get r "output" with
                            | Some o => Js.index0 o
                            | None => None
                            end)) as [(text & _ & ->) | [_ ->]]; reflexivity.
  - destruct (Js.truthy_opt (Js.get r "status")); [|reflexivity].
    destruct (coerce_cases (Js.get r "status")) as [(text & _ & ->) | [_ ->]]; reflexivity.
Qed.

Lemma chat_replicate_invokes (modelKey prompt : string) :
  invokes (replicate_adapter env w modelKey prompt) (chat_replicate env w modelKey prompt).
Proof.
  intros x Hx. unfold chat_replicate, invoke. rewrite Hx.
  cbn [negb andb available call replicate_adapter]. unfold replicate_model, Env.or_val.
  destruct (Env.truthy_str (env !! "REPLICATE_API_KEY")); [|reflexivity].
  cbn [andb].
  destruct (Env.truthy (Env.index_val env _)); [|reflexivity].
  destruct (callReplicate env w _ _) as [[e|r] t].
  - cbn. rewrite app_nil_r. reflexivity.
  - pose proof (replicate_chat_text_normalized r x) as H.
    pose proof (replicate_normalized_trace r) as Ht.
    assert (IO.trace (replicate_chat_text r x) = []) as Ht'.
    { pose proof (replicate_chat_text_trace (fun _ => False) r x) as HF.
      destruct (IO.trace (replicate_chat_text r x)) as [|ev l]; [reflexivity|].
      apply Forall_cons_1 in HF as [[] _]. }
    unfold IO.bind at 1 2.
    destruct (replicate_normalized r) as [[e|v] t']; cbn in Ht; subst t';
      destruct (replicate_chat_text r x) as [[e'|v'] t'']; cbn in Ht'; subst t'';
      cbn in H |- *; inversion H; subst; rewrite ?app_nil_r; reflexivity.
Qed.

Lemma chat_web_skipped (prompt : string) : skipped (chat_web w prompt).
Proof. intros x Hx. unfold chat_web. rewrite Hx. reflexivity. Qed.

(** The web synthesis of the handler is the invocation of the adapter:
    the two lookups never fail and the first never comes back empty, so
    that neither the adapter nor the handler ends up without a text;
    what the coercion of a lookup throws is not caught. *)
Lemma chat_web_invokes (prompt : string) (x : json) :
  Js.truthy x = false ->
  agrees (chat_web w prompt x) (resolve_nonempty [web_adapter w prompt]).
Proof.
  intros Hx. unfold chat_web, resolve_nonempty. rewrite Hx.
  cbn [negb resolve_accepting available web_adapter]. unfold invoke.
  cbn [call web_adapter].
  destruct (wikiSummary_run w prompt) as (wiki & Hw & Hwt).
  destruct (duckDuck_run w prompt) as (ddg & Hd & Hdt).
  rewrite Hw, Hd. cbn [IO.catch IO.bind]. rewrite Hwt, Hdt.
  destruct (coerce_cases (Some wiki)) as [(a & _ & ->) | [_ ->]]; [|cbn; reflexivity].
  destruct (coerce_cases (Some ddg)) as [(b & _ & ->) | [_ ->]]; cbn; reflexivity.
Qed.

Lemma chat_answer_agrees (modelKey prompt context : string) :
  agrees (chat_answer env w modelKey prompt context)
    (resolve_nonempty (chat_adapters env w modelKey prompt context)).
Proof.
  unfold chat_answer, chat_adapters.
  apply (invokes_then _ _ _
           (fun a1 => let* a2 := chat_hf_api env w modelKey context a1 in
                      let* a3 := chat_replicate env w modelKey prompt a2 in
                      chat_web w prompt a3));
    [apply chat_hf_space_invokes | | | reflexivity].
  { apply skipped_bind; [apply chat_hf_api_skipped|].
    apply skipped_bind; [apply chat_replicate_skipped | apply chat_web_skipped]. }
  intros a1 H1.
  apply (invokes_then _ _ _
           (fun a2 => let* a3 := chat_replicate env w modelKey prompt a2 in
                      chat_web w prompt a3));
    [apply chat_hf_api_invokes | | | exact H1].
  { apply skipped_bind; [apply chat_replicate_skipped | apply chat_web_skipped]. }
  intros a2 H2.
  apply (invokes_then _ _ _ (chat_web w prompt));
    [apply chat_replicate_invokes | apply chat_web_skipped | | exact H2].
  intros a3 H3. apply chat_web_invokes. exact H3.
Qed.

(** A chat resolution ends with an answer that is not empty, or with the
    [TypeError] of a lookup that has no text. *)
Lemma chat_answer_cases (modelKey prompt context : string) :
  (exists v, chat_answer env w modelKey prompt context
             = (Returns v, IO.trace (chat_answer env w modelKey prompt context))
             /\ Js.truthy v = true)
  \/ chat_answer env w modelKey prompt context
     = (Throws type_error_primitive, IO.trace (chat_answer env w modelKey prompt context)).
Proof.
  pose proof (chat_answer_agrees modelKey prompt context) as H.
  destruct (resolve_nonempty _) as [[v|reason] t] eqn:E; cbn in H; rewrite H.
  - left. exists v. split; [reflexivity|].
    exact (resolve_accepting_accepts _ _ _ _ E).
  - right. reflexivity.
Qed.

End ChatResolver.

Lemma chat_web_trace (w : world) (prompt : string) (answer : json) :
  Forall (is_web prompt) (IO.trace (chat_web w prompt answer)).
Proof.
  unfold chat_web. destruct (negb _); [|constructor].
  destruct (wikiSummary_run w prompt) as (wiki & Hw & _).
  destruct (duckDuck_run w prompt) as (ddg & Hd & _).
  rewrite Hw, Hd.
  apply trace_bind.
  { apply List.Forall_cons; [left; reflexivity | apply List.Forall_nil]. }
  intros wiki'. apply trace_bind.
  { apply List.Forall_cons; [right; reflexivity | apply List.Forall_nil]. }
  intros ddg'. apply trace_bind.
  { destruct (Js.truthy wiki'); [|apply trace_ret].
    apply trace_bind; [apply trace_coerce | intros; apply trace_ret]. }
  intros a. apply trace_bind; [|intros; apply trace_ret].
  destruct (Js.truthy ddg'); [|apply trace_ret].
  apply trace_bind; [apply trace_coerce | intros; apply trace_ret].
Qed.

(** The web synthesis, run: the two lookups are made, each comes back
    with a value that is not empty, and the answer is made of their
    texts. *)
Lemma chat_web_run (w : world) (prompt : string) (x : json) :
  Js.truthy x = false ->
  exists wiki ddg,
    wikiSummary w prompt = (Returns wiki, [WikiGet prompt]) /\ Js.truthy wiki = true
    /\ duckDuck w prompt = (Returns ddg, [DuckGet prompt]) /\ Js.truthy ddg = true
    /\ chat_web w prompt x
       = (match Js.toString wiki, Js.toString ddg with
          | Some a, Some b =>
              Returns (JStr ("From Wikipedia: " +:+ a +:+ newline +:+ newline
                             +:+ "Duck: " +:+ b))
          | _, _ => Throws type_error_primitive
          end, [WikiGet prompt; DuckGet prompt]).
Proof.
  intros Hx. unfold chat_web. rewrite Hx. cbn [negb].
  destruct (wikiSummary_run w prompt) as (wiki & Hw & Hwt).
  destruct (duckDuck_run w prompt) as (ddg & Hd & Hdt).
  exists wiki, ddg. repeat (split; [assumption|]).
  rewrite Hw, Hd. cbn [IO.catch IO.bind]. rewrite Hwt, Hdt.
  unfold coerce. cbn [Js.toString_opt].
  destruct (Js.toString wiki) as [a|]; [|reflexivity].
  destruct (Js.toString ddg) as [b|]; [|reflexivity].
  cbn. rewrite !append_assoc. reflexivity.
Qed.

(** C1, as stated, fails: with a space and a keyed API configured, a
    space that answers with the empty text is a Success of the first
    adapter, and the resolver of the specification ends there; the
    handler goes on to the keyed API and answers with its text. *)
Lemma empty_success_is_passed_over :
  invoke (space_adapter space_and_api_env space_answers_empty "user: hi")
  = (Success (JStr ""), [HfSpacePost "https://belaynish.hf.space/run/predict" "user: hi"])
  /\ chat_answer space_and_api_env space_answers_empty "llama2" "hi" "user: hi"
     = (Returns (JStr "Hello"),
        [HfSpacePost "https://belaynish.hf.space/run/predict" "user: hi";
         HfApiPost (VString "https://api-inference.huggingface.co/models/gpt2") "user: hi"])
  /\ ~ follows_resolver resolve space_and_api_env space_answers_empty "llama2" "hi" "user: hi".
Proof.
  split; [vm_compute; reflexivity|].
  split; [vm_compute; reflexivity|].
  intros H.
  specialize (H (JStr "") [HfSpacePost "https://belaynish.hf.space/run/predict" "user: hi"]).
  assert (chat_answer space_and_api_env space_answers_empty "llama2" "hi" "user: hi"
          = (Returns (JStr ""),
             [HfSpacePost "https://belaynish.hf.space/run/predict" "user: hi"])) as E.
  { apply H. vm_compute. reflexivity. }
  vm_compute in E. discriminate E.
Qed.

(** C1, amended.  For the chat capability the handler is the fallback
    resolver run over the hosted-inference space, the keyed inference
    API with the selected model, the managed-compute chat model and the
    web synthesis, in this order, a result that is empty counting as a
    failure: when the resolver ends with the Success [v] after the
    requests [t], the answer is [v] and the requests made are [t]; every
    answer of the handler comes about in this way, and is not empty.
    Spelled out: when the adapters before [a] are unavailable, fail or
    come back empty, and [a] is available and succeeds with a result [v]
    that is not empty, the answer is [v] and the requests made are those
    of the adapters before [a], in order, followed by those of [a]; no
    adapter after [a] is invoked.  When no adapter succeeds, the
    resolution has made the requests of all the available adapters and
    throws the [TypeError] of the value the web synthesis could not turn
    into a string. *)
Theorem chat_fallback_order (env : gmap string string) (w : world)
    (modelKey prompt context : string) :
  follows_resolver resolve_nonempty env w modelKey prompt context
  /\ (forall (v : json) (t : list event),
        chat_answer env w modelKey prompt context = (Returns v, t) ->
        resolve_nonempty (chat_adapters env w modelKey prompt context) = (Success v, t)
        /\ Js.truthy v = true)
  /\ (forall (pre post : list adapter) (a : adapter) (v : json),
        chat_adapters env w modelKey prompt context = (pre ++ a :: post)%list ->
        Forall no_answer pre ->
        available a = true ->
        fst (invoke a) = Success v ->
        Js.truthy v = true ->
        chat_answer env w modelKey prompt context
        = (Returns v, (requests_of pre ++ snd (invoke a))%list))
  /\ (forall (reason : string) (t : list event),
        resolve_nonempty (chat_adapters env w modelKey prompt context) = (Failure reason, t) ->
        chat_answer env w modelKey prompt context = (Throws type_error_primitive, t)
        /\ t = requests_of (chat_adapters env w modelKey prompt context)).
Proof.
  pose proof (chat_answer_agrees env w modelKey prompt context) as H.
  assert (follows_resolver resolve_nonempty env w modelKey prompt context) as Hfollows.
  { intros v t E. rewrite E in H. exact H. }
  split; [exact Hfollows|]. split.
  - intros v t E.
    destruct (resolve_nonempty _) as [[v'|reason] t'] eqn:R; cbn in H; rewrite H in E.
    + injection E as <- <-. split; [reflexivity|].
      exact (resolve_accepting_accepts _ _ _ _ R).
    + discriminate E.
  - split.
    + intros pre post a v Hsplit Hpre Ha Hv Ht. apply Hfollows.
      rewrite Hsplit. apply resolve_nonempty_first; assumption.
    + intros reason t E. rewrite E in H. split; [exact H|].
      exact (resolve_nonempty_all _ _ _ E).
Qed.

(* ===================================================================== *)
(** ** What each chat adapter is given *)
(* ===================================================================== *)

(** C6, as stated, fails: with no text-generation provider configured
    the request [/ai chat hi] has the transcript ["user: hi"], and the
    two web lookups are given the bare prompt ["hi"]. *)
Lemma web_lookups_get_bare_prompt :
  snd (ai ∅ offline 10800 "/ai chat hi" 7 fresh) = [WikiGet "hi"; DuckGet "hi"]
  /\ contextStr (JArr [turn "user" (JStr "hi")]) = (Returns "user: hi", [])
  /\ IO.trace (chat_answer ∅ offline "llama2" "hi" "user: hi") = [WikiGet "hi"; DuckGet "hi"]
  /\ ~ every_adapter_gets_transcript ∅ offline "llama2" "hi" "user: hi".
Proof.
  split; [vm_compute; reflexivity|]. split; [vm_compute; reflexivity|].
  split; [vm_compute; reflexivity|].
  intros H. specialize (H (WikiGet "hi") "hi").
  assert ("hi" = "user: hi") as E; [|discriminate E].
  apply H; [|reflexivity]. vm_compute. left. reflexivity.
Qed.

Lemma getMemory_trace (w : world) (chatId : Z) (st : store) :
  Forall is_redis (snd (getMemory w chatId st)).
Proof.
  unfold getMemory. destruct (_ && _).
  - destruct (redis_get w _ st) as [e|v].
    + destruct (cache_read _ _). repeat constructor.
    + destruct (Env.truthy_str v); [|repeat constructor].
      destruct (JsonParse.parse _); [repeat constructor|].
      destruct (cache_read _ _). repeat constructor.
  - destruct (cache_read _ _). constructor.
Qed.

Lemma saveMemory_trace (w : world) (ttl chatId : Z) (h : json) (st : store) :
  Forall is_redis (snd (saveMemory w ttl chatId h st)).
Proof.
  unfold saveMemory. destruct (_ && _); [|constructor].
  destruct (redis_set w _ _ ttl st); repeat constructor.
Qed.

Lemma trace_nil {A : Type} (m : IO A) :
  Forall (fun _ => False) (IO.trace m) -> IO.trace m = [].
Proof.
  intros H. destruct (IO.trace m) as [|ev l]; [reflexivity|].
  apply Forall_cons_1 in H as [[] _].
Qed.

Lemma trace_render_turn (P : event -> Prop) (m : json) : Forall P (IO.trace (render_turn m)).
Proof.
  unfold render_turn.
  apply trace_bind; [apply trace_read | intros role].
  apply trace_bind; [apply trace_coerce | intros role_text].
  apply trace_bind; [apply trace_read | intros content].
  apply trace_bind; [apply trace_coerce | intros content_text]. apply trace_ret.
Qed.

Lemma render_turns_trace (items : list json) : IO.trace (render_turns items) = [].
Proof.
  apply trace_nil. induction items as [|m rest IH]; [constructor|].
  cbn [render_turns].
  apply trace_bind; [apply trace_render_turn | intros line].
  apply trace_bind; [exact IH | intros lines; apply trace_ret].
Qed.

Lemma contextStr_trace (mem : json) : IO.trace (contextStr mem) = [].
Proof.
  destruct mem; try reflexivity. unfold contextStr.
  pose proof (render_turns_trace items) as H.
  destruct (render_turns items) as [[e|ss] t]; simpl in *; subst; reflexivity.
Qed.

Lemma chat_answer_trace (env : gmap string string) (w : world)
    (modelKey prompt context : string) :
  Forall (fun e => is_hf_space context e \/ is_hf_api context e
                   \/ is_replicate e \/ is_web prompt e)
    (IO.trace (chat_answer env w modelKey prompt context)).
Proof.
  unfold chat_answer.
  apply trace_bind.
  { eapply Forall_impl; [apply chat_hf_space_trace | tauto]. }
  intros a1. apply trace_bind.
  { eapply Forall_impl; [apply chat_hf_api_trace | tauto]. }
  intros a2. apply trace_bind.
  { eapply Forall_impl; [apply chat_replicate_trace | tauto]. }
  intros a3. eapply Forall_impl; [apply chat_web_trace | tauto].
Qed.


(** How a chat request with a prompt runs, step by step: with an answer,
    the history is saved and then the reply is made; without one,
    nothing is saved. *)
Lemma chat_run (env : gmap string string) (w : world) (ttl : Z)
    (parts : list string) (rest : string) (from : Z) (st : store)
    (modelKey prompt : string) (items : list json) (st1 : store) (t1 : list event)
    (context : string) (answer : json) (t2 : list event) :
  chat_args env parts rest = (modelKey, prompt) ->
  nonempty prompt = true ->
  getMemory w from st = (JArr items, st1, t1) ->
  IO.result (contextStr (JArr (items ++ [turn "user" (JStr prompt)]))) = Returns context ->
  chat_answer env w modelKey prompt context = (Returns answer, t2) ->
  chat env w ttl parts rest from st
  = (IO.result (reply_text answer),
     fst (saveMemory w ttl from
            (JArr (items ++ [turn "user" (JStr prompt); turn "assistant" answer])) st1),
     (t1 ++ t2
         ++ snd (saveMemory w ttl from
                   (JArr (items ++ [turn "user" (JStr prompt); turn "assistant" answer]))
                   st1))%list).
Proof.
  intros Hargs Hprompt Hmem Hctx Hans.
  unfold chat. rewrite Hargs, Hprompt, Hmem. cbn [negb push].
  unfold IO.ret at 1. unfold IO.bind at 1.
  rewrite (io_eta (contextStr _)), Hctx, contextStr_trace.
  unfold IO.bind at 1. rewrite Hans. cbn [push IO.bind IO.ret].
  rewrite <- app_assoc. cbn [app].
  destruct (saveMemory _ _ _ _ _) as [st2 t3]. cbn [fst snd IO.trace].
  rewrite !app_nil_r. reflexivity.
Qed.

Lemma chat_run_throws (env : gmap string string) (w : world) (ttl : Z)
    (parts : list string) (rest : string) (from : Z) (st : store)
    (modelKey prompt : string) (items : list json) (st1 : store) (t1 : list event)
    (context : string) (e : string) (t2 : list event) :
  chat_args env parts rest = (modelKey, prompt) ->
  nonempty prompt = true ->
  getMemory w from st = (JArr items, st1, t1) ->
  IO.result (contextStr (JArr (items ++ [turn "user" (JStr prompt)]))) = Returns context ->
  chat_answer env w modelKey prompt context = (Throws e, t2) ->
  chat env w ttl parts rest from st = (Throws e, st1, (t1 ++ t2)%list).
Proof.
  intros Hargs Hprompt Hmem Hctx Hans.
  unfold chat. rewrite Hargs, Hprompt, Hmem. cbn [negb push].
  unfold IO.ret at 1. unfold IO.bind at 1.
  rewrite (io_eta (contextStr _)), Hctx, contextStr_trace.
  unfold IO.bind at 1. rewrite Hans. cbn [app]. reflexivity.
Qed.

(** C6, amended. During a chat resolution the hosted-inference space and
    the keyed inference API are given the transcript: the turns read
    from memory followed by the new user turn, one per line.  The two web
    lookups are given the bare prompt. *)
Theorem chat_context_threading (env : gmap string string) (w : world) (ttl : Z)
    (parts : list string) (rest : string) (from : Z) (st : store) (e : event) :
  In e (snd (chat env w ttl parts rest from st)) ->
  match e with
  | HfSpacePost _ p | HfApiPost _ p =>
      exists items,
        fst (fst (getMemory w from st)) = JArr items
        /\ IO.result (contextStr
             (JArr (items ++ [turn "user" (JStr (snd (chat_args env parts rest)))])))
           = Returns p
  | WikiGet q | DuckGet q => q = snd (chat_args env parts rest)
  | _ => True
  end.
Proof.
  assert (forall x, is_redis x ->
            match x with
            | HfSpacePost _ p | HfApiPost _ p =>
                exists items,
                  fst (fst (getMemory w from st)) = JArr items
                  /\ IO.result (contextStr
                       (JArr (items ++ [turn "user" (JStr (snd (chat_args env parts rest)))])))
                     = Returns p
            | WikiGet q | DuckGet q => q = snd (chat_args env parts rest)
            | _ => True
            end) as Hredis.
  { intros x Hx. destruct x; try exact I; destruct Hx. }
  destruct (chat_args env parts rest) as [modelKey prompt] eqn:Hargs. cbn [snd] in *.
  destruct (nonempty prompt) eqn:Hprompt.
  2:{ unfold chat. rewrite Hargs, Hprompt. intros []. }
  destruct (getMemory w from st) as [[mem st1] t1] eqn:Hmem. cbn [fst] in *.
  pose proof (getMemory_trace w from st) as Ht1. rewrite Hmem in Ht1. cbn [snd] in Ht1.
  rewrite Forall_forall in Ht1.
  assert (forall items, mem = JArr items ->
            In e (snd (chat env w ttl parts rest from st)) ->
            match e with
            | HfSpacePost _ p | HfApiPost _ p =>
                exists items0, mem = JArr items0
                  /\ IO.result (contextStr (JArr (items0 ++ [turn "user" (JStr prompt)])))
                     = Returns p
            | WikiGet q | DuckGet q => q = prompt
            | _ => True
            end) as Harr.
  { intros items -> Hin.
    destruct (IO.result (contextStr (JArr (items ++ [turn "user" (JStr prompt)]))))
      as [err|context] eqn:Hctx.
    - revert Hin. unfold chat. rewrite Hargs, Hprompt, Hmem. cbn [negb push].
      unfold IO.ret at 1. unfold IO.bind at 1.
      rewrite (io_eta (contextStr _)), Hctx, contextStr_trace. cbn [IO.bind snd].
      rewrite !app_nil_r. intros Hin. apply Hredis. apply Ht1. apply list_elem_of_In, Hin.
    - pose proof (chat_answer_trace env w modelKey prompt context) as Ht2.
      rewrite Forall_forall in Ht2.
      assert (In e (IO.trace (chat_answer env w modelKey prompt context)) ->
              match e with
              | HfSpacePost _ p | HfApiPost _ p =>
                  exists items0, JArr items = JArr items0
                    /\ IO.result (contextStr (JArr (items0 ++ [turn "user" (JStr prompt)])))
                       = Returns p
              | WikiGet q | DuckGet q => q = prompt
              | _ => True
              end) as Hanswer.
      { intros Hin2. apply list_elem_of_In, Ht2 in Hin2.
        destruct Hin2 as [(url & ->) | [(url & ->) | [(v & i & ->) | [-> | ->]]]];
          try reflexivity; try exact I; exists items; split; reflexivity || exact Hctx. }
      destruct (chat_answer env w modelKey prompt context) as [[err|answer] t2] eqn:Hans.
      + rewrite (chat_run_throws env w ttl parts rest from st modelKey prompt items st1 t1
                   context err t2 Hargs Hprompt Hmem Hctx Hans) in Hin.
        cbn [snd] in Hin. apply in_app_or in Hin as [Hin | Hin].
        { apply Hredis. apply Ht1. apply list_elem_of_In, Hin. }
        apply Hanswer, Hin.
      + rewrite (chat_run env w ttl parts rest from st modelKey prompt items st1 t1
                   context answer t2 Hargs Hprompt Hmem Hctx Hans) in Hin.
        cbn [snd] in Hin.
        apply in_app_or in Hin as [Hin | Hin].
        { apply Hredis. apply Ht1. apply list_elem_of_In, Hin. }
        apply in_app_or in Hin as [Hin | Hin]; [apply Hanswer, Hin|].
        apply Hredis.
        pose proof (saveMemory_trace w ttl from
                      (JArr (items ++ [turn "user" (JStr prompt); turn "assistant" answer]))
                      st1) as Ht3.
        rewrite Forall_forall in Ht3. apply Ht3. apply list_elem_of_In, Hin. }
  destruct mem as [|b|n|s|items|fields]; try (apply (Harr items eq_refl)).
  all: unfold chat; rewrite Hargs, Hprompt, Hmem; cbn [negb push IO.throw IO.bind snd];
    rewrite !app_nil_r; intros Hin; apply Hredis; apply Ht1; apply list_elem_of_In, Hin.
Qed.

(** [chat_context_threading] on the request to the space made for
    [/ai chat What is 2+2?]. *)
Lemma chat_context_threading_space :
  exists items,
    fst (fst (getMemory space_says_four 7 fresh)) = JArr items
    /\ IO.result (contextStr
         (JArr (items ++ [turn "user"
            (JStr (snd (chat_args space_env ["chat"; "What"; "is"; "2+2?"] "What is 2+2?")))])))
       = Returns "user: What is 2+2?".
Proof.
  apply (chat_context_threading space_env space_says_four 10800
           ["chat"; "What"; "is"; "2+2?"] "What is 2+2?" 7 fresh
           (HfSpacePost "https://belaynish.hf.space/run/predict" "user: What is 2+2?")).
  vm_compute. left. reflexivity.
Defined.

(** [chat_fallback_order] when the space fails and the API succeeds: the
    three attempts on the space, then the one request to the API, and
    nothing else. *)
Lemma chat_fallback_order_api_after_space :
  chat_answer space_and_api_env api_says_hello "llama2" "hi" "user: hi"
  = (Returns (JStr "Hello"),
     [ HfSpacePost "https://belaynish.hf.space/run/predict" "user: hi";
       HfSpacePost "https://belaynish.hf.space/api/predict" "user: hi";
       HfSpacePost "https://belaynish.hf.space" "user: hi";
       HfApiPost (VString "https://api-inference.huggingface.co/models/gpt2") "user: hi" ]).
Proof.
  apply (proj1 (proj2 (proj2 (chat_fallback_order space_and_api_env api_says_hello
                                "llama2" "hi" "user: hi")))
           [space_adapter space_and_api_env api_says_hello "user: hi"]
           [replicate_adapter space_and_api_env api_says_hello "llama2" "hi";
            web_adapter api_says_hello "hi"]
           (api_adapter space_and_api_env api_says_hello "llama2" "user: hi")
           (JStr "Hello")).
  - reflexivity.
  - apply List.Forall_cons; [|apply List.Forall_nil].
    right. left. exists "HF Space did not return valid output". vm_compute. reflexivity.
  - reflexivity.
  - vm_compute. reflexivity.
  - reflexivity.
Defined.

(** [translate_never_fails] when the library is unreachable. *)
Lemma translate_never_fails_offline :
  IO.result (translateUnofficial offline "selam" "en") = Returns "selam".
Proof.
  apply (proj1 (proj2 (translate_never_fails offline "selam" "en"))
           "connect ECONNREFUSED").
  reflexivity.
Defined.

(* ===================================================================== *)
(** ** Chat: the two turns, the persisted history and the reply *)
(* ===================================================================== *)





Example chat_happy_path_reply :
  ai space_env space_says_four 10800 "/ai chat What is 2+2?" 7 fresh
  = (ReplyText (withPrefix "4"),
     Store.with_memCache
       {[ "memory:7" := (JArr [turn "user" (JStr "What is 2+2?"); turn "assistant" (JStr "4")],
                         10801000) ]} fresh,
     [HfSpacePost "https://belaynish.hf.space/run/predict" "user: What is 2+2?"]).
Proof. vm_compute. reflexivity. Qed.

(* ===================================================================== *)
(** ** Exhaustion: no provider available, or every provider fails *)
(* ===================================================================== *)


Section Exhaustion.
Variable env : gmap string string.
Variable w : world.



Lemma tts_elevenlabs_failed (rest : string) :
  Forall (request_failed w) (IO.trace (tts_elevenlabs env w rest)) ->
  IO.result (tts_elevenlabs env w rest) = Returns None.
Proof.
  unfold tts_elevenlabs. destruct (_ && _); [|reflexivity].
  unfold callElevenLabsTTS. destruct (_ || _); [reflexivity|].
  destruct (env !! "ELEVENLABS_API_URL") as [api|]; [|reflexivity].
  unfold IO.request. destruct (elevenlabs w _ rest) as [e|audio] eqn:E; [reflexivity|].
  cbn. intros H. apply Forall_cons_1 in H as [(msg & Hmsg) _]. congruence.
Qed.














End Exhaustion.



Example media_bogus_mode_reply :
  ai runway_env offline 10800 "/ai media bogus somepayload" 7 fresh
  = (ReplyText (withPrefix "No provider configured for that media mode."), fresh, []).
Proof. vm_compute. reflexivity. Qed.

(* ===================================================================== *)
(** ** [JSON.parse] reads back what [JSON.stringify] writes *)
(* ===================================================================== *)

Section RoundTrip.
Import Json JsonParse.

Lemma all_digits_string_of_uint (d : Decimal.uint) :
  all_digits (NilEmpty.string_of_uint d) = true.
Proof. induction d; simpl; auto. Qed.

Lemma span_digits_app (ds rest : string) :
  all_digits ds = true -> terminated rest = true ->
  span_digits (ds +:+ rest) = (ds, rest).
Proof.
  intros Hds Hrest. induction ds as [|c ds IH].
  - change (EmptyString +:+ rest) with rest.
    destruct rest as [|c rest]; [reflexivity|].
    simpl in *. apply andb_true_iff in Hrest as [Hc _].
    apply negb_true_iff in Hc. rewrite Hc. reflexivity.
  - change (String c ds +:+ rest) with (String c (ds +:+ rest)).
    simpl in *. apply andb_true_iff in Hds as [Hc Hds].
    rewrite Hc, (IH Hds). reflexivity.
Qed.

Lemma terminated_not_fraction (rest : string) :
  terminated rest = true -> starts_fraction rest = false.
Proof.
  destruct rest as [|c rest]; [reflexivity|].
  unfold terminated. intros H. apply andb_true_iff in H as [_ H].
  apply negb_true_iff in H. exact H.
Qed.

Lemma to_uint_normal (p : positive) : Decimal.unorm (Pos.to_uint p) = Pos.to_uint p.
Proof.
  rewrite <- (DecimalPos.Unsigned.to_of (Pos.to_uint p)).
  rewrite DecimalPos.Unsigned.of_to. reflexivity.
Qed.

Lemma to_uint_no_leading_zero (p : positive) (d : Decimal.uint) :
  Pos.to_uint p <> Decimal.D0 d.
Proof.
  intros H. pose proof (to_uint_normal p) as Hn.
  assert (Decimal.nzhead (Pos.to_uint p) <> Decimal.Nil) as Hnz.
  { intros E. unfold Decimal.unorm in Hn. rewrite E in Hn.
    apply (DecimalPos.Unsigned.to_uint_nonzero p). symmetry. exact Hn. }
  rewrite (DecimalFacts.unorm_nzhead _ Hnz) in Hn.
  rewrite H in Hn. exact (DecimalFacts.nzhead_nonzero _ _ Hn).
Qed.

Lemma of_uint_to_uint (p : positive) : Z.of_uint (Pos.to_uint p) = Z.pos p.
Proof. unfold Z.of_uint. rewrite DecimalPos.Unsigned.of_to. reflexivity. Qed.

Lemma parse_nat_lit_pos (p : positive) (rest : string) :
  terminated rest = true ->
  parse_nat_lit (NilZero.string_of_uint (Pos.to_uint p) +:+ rest) = Some (Z.pos p, rest).
Proof.
  intros Hrest. unfold parse_nat_lit.
  assert (NilZero.string_of_uint (Pos.to_uint p) = NilEmpty.string_of_uint (Pos.to_uint p)) as E.
  { pose proof (DecimalPos.Unsigned.to_uint_nonnil p). destruct (Pos.to_uint p); [congruence | reflexivity ..]. }
  rewrite E.
  rewrite (span_digits_app _ rest (all_digits_string_of_uint _) Hrest).
  pose proof (to_uint_no_leading_zero p) as Hz.
  pose proof (DecimalPos.Unsigned.to_uint_nonnil p) as Hnil.
  pose proof (NilZero.usu (Pos.to_uint p) Hnil) as Hu. rewrite E in Hu.
  rewrite (terminated_not_fraction rest Hrest).
  destruct (Pos.to_uint p) as [|d|d|d|d|d|d|d|d|d|d] eqn:Ed;
    try congruence; try (exfalso; apply (Hz d); reflexivity);
    cbn [NilEmpty.string_of_uint Ascii.eqb Bool.eqb andb] in *;
    rewrite Hu, <- Ed, of_uint_to_uint; reflexivity.
Qed.

Lemma parse_number_of_Z (n : Z) (rest : string) :
  terminated rest = true ->
  parse_number (of_Z n +:+ rest) = Some (n, rest).
Proof.
  intros Hrest. unfold of_Z. destruct n as [|p|p]; cbn [Z.to_int NilZero.string_of_int].
  - change (NilZero.string_of_uint Decimal.zero +:+ rest) with (String "0" rest).
    unfold parse_number, parse_nat_lit. cbn [span_digits is_digit].
    change (is_digit "0") with true. cbv iota.
    destruct rest as [|c rest].
    + reflexivity.
    + pose proof (span_digits_app EmptyString (String c rest) eq_refl Hrest) as Hs.
      change (EmptyString +:+ String c rest) with (String c rest) in Hs. rewrite Hs.
      cbn [Ascii.eqb Bool.eqb nonempty andb].
      rewrite (terminated_not_fraction _ Hrest). reflexivity.
  - pose proof (parse_nat_lit_pos p rest Hrest) as H.
    unfold parse_number.
    destruct (NilZero.string_of_uint (Pos.to_uint p) +:+ rest) as [|c s] eqn:E.
    + exact H.
    + assert (Ascii.eqb c "-" = false) as Hc.
      { unfold parse_nat_lit in H. cbn [span_digits] in H.
        destruct (is_digit c) eqn:Hd.
        - destruct (Ascii.eqb_spec c "-") as [->|]; [discriminate Hd | reflexivity].
        - discriminate H. }
      destruct c as [[] [] [] [] [] [] [] []]; try discriminate Hc; exact H.
  - change (String "-" (NilZero.string_of_uint (Pos.to_uint p)) +:+ rest)
      with (String "-" (NilZero.string_of_uint (Pos.to_uint p) +:+ rest)).
    unfold parse_number. rewrite (parse_nat_lit_pos p rest Hrest). reflexivity.
Qed.
Lemma parse_string_escape_char (c : ascii) (tail s rest : string) :
  parse_string tail = Some (s, rest) ->
  parse_string (escape_char c +:+ tail) = Some (String c s, rest).
Proof.
  intros H.
  destruct c as [[] [] [] [] [] [] [] []].
  all: match goal with
       | |- parse_string (String.append (escape_char ?c) _) = _ =>
           let e := eval vm_compute in (escape_char c) in
           change (escape_char c) with e
       end.
  all: cbv [String.append]; cbn [parse_string Ascii.eqb Bool.eqb dquote ascii_of_N ascii_of_pos]; 
       cbn; rewrite H; reflexivity.
Qed.

Lemma parse_string_escape (s rest : string) :
  parse_string (escape s +:+ String dquote rest) = Some (s, rest).
Proof.
  induction s as [|c s IH].
  - change (escape EmptyString +:+ String dquote rest) with (String dquote rest).
    reflexivity.
  - cbn [escape]. rewrite append_assoc.
    apply parse_string_escape_char. exact IH.
Qed.

Lemma length_append (s t : string) :
  String.length (s +:+ t) = (String.length s + String.length t)%nat.
Proof. induction s as [|c s IH]; [reflexivity|]. rewrite append_cons. simpl. rewrite IH. reflexivity. Qed.

Section Sequence.
Context {A : Type} (item : string -> option (A * string)) (show : A -> string).
Context (close : ascii).
Hypothesis close_not_ws : is_json_ws close = false.
Hypothesis close_not_comma : Ascii.eqb close "," = false.
Hypothesis close_terminates : forall rest, terminated (String close rest) = true.

Lemma parse_items_join (xs : list A) (x : A) (rest : string) (fuel : nat) :
  Forall (reads_back item show close) (x :: xs) ->
  (length xs < fuel)%nat ->
  parse_items item close fuel (join "," (map show (x :: xs)) +:+ String close rest)
  = Some (x :: xs, rest).
Proof.
  revert x fuel. induction xs as [|y xs IH]; intros x fuel Hall Hfuel.
  - destruct fuel as [|fuel]; [lia|].
    apply Forall_cons_1 in Hall as [[Hx _] _].
    cbn [map join String.concat parse_items].
    rewrite (Hx _ (close_terminates rest)).
    cbn [skip_ws]. rewrite close_not_ws, close_not_comma, Ascii.eqb_refl. reflexivity.
  - destruct fuel as [|fuel]; [simpl in Hfuel; lia|].
    apply Forall_cons_1 in Hall as [[Hx _] Hall].
    change (join "," (map show (x :: y :: xs)))
      with (show x +:+ "," +:+ join "," (map show (y :: xs))).
    rewrite !append_assoc.
    change ("," +:+ join "," (map show (y :: xs)) +:+ String close rest)
      with (String "," (join "," (map show (y :: xs)) +:+ String close rest)).
    cbn [parse_items].
    rewrite (Hx (String "," (join "," (map show (y :: xs)) +:+ String close rest)) eq_refl).
    cbn [skip_ws]. change (is_json_ws ",") with false. cbv iota.
    change (Ascii.eqb "," ",") with true. cbv iota.
    rewrite (IH y fuel Hall) by (simpl in Hfuel; lia). reflexivity.
Qed.

Lemma parse_seq_join (xs : list A) (rest : string) (fuel : nat) :
  Forall (reads_back item show close) xs ->
  (length xs <= fuel)%nat ->
  parse_seq item close fuel (join "," (map show xs) +:+ String close rest) = Some (xs, rest).
Proof.
  intros Hall Hfuel. destruct xs as [|x xs].
  - change (join "," (map show []) +:+ String close rest) with (String close rest).
    unfold parse_seq. cbn [skip_ws]. rewrite close_not_ws, Ascii.eqb_refl. reflexivity.
  - unfold parse_seq.
    pose proof Hall as Hall'. apply Forall_cons_1 in Hall' as [[_ (c & s & Hshow & Hws & Hc)] _].
    assert (exists s', join "," (map show (x :: xs)) +:+ String close rest = String c s') as (s' & Hs).
    { destruct xs as [|y xs].
      - cbn [map join String.concat]. rewrite Hshow. eexists. reflexivity.
      - change (join "," (map show (x :: y :: xs)))
          with (show x +:+ "," +:+ join "," (map show (y :: xs))).
        rewrite Hshow. eexists. reflexivity. }
    rewrite Hs. cbn [skip_ws]. rewrite Hws, Hc. rewrite <- Hs.
    apply parse_items_join; [exact Hall | simpl in Hfuel; lia].
Qed.

End Sequence.

Lemma stringify_arr (items : list json) :
  stringify (JArr items) = "[" +:+ join "," (map stringify items) +:+ "]".
Proof.
  cbn [stringify].
  match goal with
  | |- context [join "," ?l] => assert (l = map stringify items) as ->
  end; [|reflexivity].
  induction items as [|x items IH]; [reflexivity|]. cbn [map]. f_equal; try exact IH.
Qed.

Lemma stringify_obj (fields : list (string * json)) :
  stringify (JObj fields) = "{" +:+ join "," (map show_member fields) +:+ "}".
Proof.
  cbn [stringify].
  match goal with
  | |- context [join "," ?l] => assert (l = map show_member fields) as ->
  end; [|reflexivity].
  induction fields as [|[k x] fields IH]; [reflexivity|]. cbn [map]. f_equal; try exact IH.
Qed.

Lemma depth_arr (items : list json) (n : nat) :
  (depth (JArr items) < S n)%nat -> Forall (fun x => (depth x < n)%nat) items.
Proof.
  cbn [depth]. induction items as [|x items IH]; intros H; constructor.
  - lia.
  - apply IH. lia.
Qed.

Lemma depth_obj (fields : list (string * json)) (n : nat) :
  (depth (JObj fields) < S n)%nat -> Forall (fun kv => (depth (snd kv) < n)%nat) fields.
Proof.
  cbn [depth]. induction fields as [|[k x] fields IH]; intros H; constructor.
  - cbn [snd]. lia.
  - apply IH. lia.
Qed.

Lemma of_Z_start (n : Z) : exists c s, of_Z n = String c s /\ value_start c = true.
Proof.
  unfold of_Z. destruct n as [|p|p]; cbn [Z.to_int NilZero.string_of_int].
  - do 2 eexists. split; reflexivity.
  - pose proof (DecimalPos.Unsigned.to_uint_nonnil p).
    destruct (Pos.to_uint p); [congruence | do 2 eexists; split; reflexivity ..].
  - do 2 eexists. split; reflexivity.
Qed.

Lemma stringify_start (v : json) :
  exists c s, stringify v = String c s /\ value_start c = true.
Proof.
  destruct v as [|[]|n|s|items|fields]; try (do 2 eexists; split; reflexivity).
  apply of_Z_start.
Qed.

Lemma value_start_facts (c : ascii) :
  value_start c = true ->
  is_json_ws c = false /\ Ascii.eqb c "]" = false /\ Ascii.eqb c "}" = false.
Proof.
  destruct c as [[] [] [] [] [] [] [] []]; intros H; try discriminate H;
    repeat split; reflexivity.
Qed.

Lemma substring_all (s : string) : String.substring 0 (String.length s) s = s.
Proof. induction s as [|c s IH]; [reflexivity|]. simpl. rewrite IH. reflexivity. Qed.

Lemma expect_literal (lit : string) (v : json) (rest : string) :
  expect lit v (lit +:+ rest) = Some (v, rest).
Proof.
  unfold expect.
  assert (String.prefix lit (lit +:+ rest) = true) as ->.
  { induction lit as [|c lit IH]; [destruct rest; reflexivity|].
    rewrite append_cons. simpl. destruct (ascii_dec c c); [exact IH | congruence]. }
  rewrite length_append.
  replace (String.length lit + String.length rest - String.length lit)%nat
    with (String.length rest) by lia.
  f_equal. f_equal.
  induction lit as [|c lit IH]; [apply substring_all|].
  rewrite append_cons. exact IH.
Qed.

Lemma show_member_app (k : string) (x : json) (r : string) :
  show_member (k, x) +:+ r
  = String dquote (escape k +:+ String dquote (String ":" (stringify x +:+ r))).
Proof.
  unfold show_member, quote. cbn [fst snd].
  rewrite !append_assoc. rewrite append_cons. rewrite !append_assoc. reflexivity.
Qed.

Lemma parse_value_stringify (v : json) :
  forall fuel rest,
    (depth v < fuel)%nat -> terminated rest = true ->
    parse_value fuel (stringify v +:+ rest) = Some (v, rest).
Proof.
  induction v as [|b|n|s|items IH|fields IH] using json_ind;
    intros [|fuel] rest Hfuel Hrest; try lia.
  - exact (expect_literal "null" JNull rest).
  - destruct b.
    + exact (expect_literal "true" (JBool true) rest).
    + exact (expect_literal "false" (JBool false) rest).
  - destruct (of_Z_start n) as (c & s & Hs & Hc).
    pose proof (parse_number_of_Z n rest Hrest) as Hn.
    cbn [stringify]. rewrite Hs in *. rewrite append_cons in *.
    cbn [parse_value skip_ws].
    destruct (value_start_facts c Hc) as (-> & _).
    revert Hn. clear -Hc.
    destruct c as [[] [] [] [] [] [] [] []]; try discriminate Hc;
      intros Hn; cbn [Ascii.eqb Bool.eqb dquote ascii_of_N ascii_of_pos];
      try (rewrite Hn; reflexivity).
    all: unfold parse_number, parse_nat_lit, span_digits in Hn; simpl in Hn; discriminate Hn.
  - cbn [stringify]. unfold quote. rewrite append_cons.
    cbn [parse_value skip_ws]. change (is_json_ws dquote) with false. cbv iota.
    change (Ascii.eqb dquote "n") with false.
    change (Ascii.eqb dquote "t") with false.
    change (Ascii.eqb dquote "f") with false.
    change (Ascii.eqb dquote dquote) with true. cbv iota.
    rewrite append_assoc. change (String dquote "" +:+ rest) with (String dquote rest).
    rewrite parse_string_escape. reflexivity.
  - rewrite stringify_arr. rewrite !append_assoc.
    change ("[" +:+ join "," (map stringify items) +:+ "]" +:+ rest)
      with (String "[" (join "," (map stringify items) +:+ String "]" rest)).
    cbn [parse_value skip_ws]. change (is_json_ws "[") with false. cbv iota.
    change (Ascii.eqb "[" "n") with false.
    change (Ascii.eqb "[" "t") with false.
    change (Ascii.eqb "[" "f") with false.
    change (Ascii.eqb "[" dquote) with false.
    change (Ascii.eqb "[" "[") with true. cbv iota.
    rewrite (parse_seq_join (parse_value fuel) stringify "]" eq_refl eq_refl
               (fun _ => eq_refl) items rest); [reflexivity| |].
    + apply depth_arr in Hfuel.
      rewrite Forall_forall in IH, Hfuel. apply Forall_forall. intros x Hx. split.
      * intros r Hr. apply (IH x Hx). { apply (Hfuel x Hx). } exact Hr.
      * destruct (stringify_start x) as (c & s & Hs & Hc).
        destruct (value_start_facts c Hc) as (Hws & Hclose & _).
        exists c, s. repeat split; assumption.
    + rewrite length_append.
      assert (length items <= String.length (join "," (map stringify items)))%nat; [|lia].
      clear. induction items as [|x items IH]; [simpl; lia|].
      destruct (stringify_start x) as (c & s & Hs & _).
      destruct items as [|y items].
      * cbn [map join String.concat]. rewrite Hs. simpl. lia.
      * change (join "," (map stringify (x :: y :: items)))
          with (stringify x +:+ "," +:+ join "," (map stringify (y :: items))).
        rewrite !length_append, Hs. simpl in *. lia.
  - rewrite stringify_obj. rewrite !append_assoc.
    change ("{" +:+ join "," (map show_member fields) +:+ "}" +:+ rest)
      with (String "{" (join "," (map show_member fields) +:+ String "}" rest)).
    cbn [parse_value skip_ws]. change (is_json_ws "{") with false. cbv iota.
    change (Ascii.eqb "{" "n") with false.
    change (Ascii.eqb "{" "t") with false.
    change (Ascii.eqb "{" "f") with false.
    change (Ascii.eqb "{" dquote) with false.
    change (Ascii.eqb "{" "[") with false.
    change (Ascii.eqb "{" "{") with true. cbv iota.
    rewrite (parse_seq_join (parse_member (parse_value fuel)) show_member "}" eq_refl eq_refl
               (fun _ => eq_refl) fields rest); [reflexivity| |].
    + apply depth_obj in Hfuel.
      rewrite Forall_forall in IH, Hfuel. apply Forall_forall. intros [k x] Hx. split.
      * intros r Hr. rewrite show_member_app. unfold parse_member.
        cbn [skip_ws]. change (is_json_ws dquote) with false. cbv iota.
        change (Ascii.eqb dquote dquote) with true. cbv iota.
        rewrite parse_string_escape.
        cbn [skip_ws]. change (is_json_ws ":") with false. cbv iota.
        change (Ascii.eqb ":" ":") with true. cbv iota.
        pose proof (IH (k, x) Hx fuel r (Hfuel (k, x) Hx) Hr) as Hv.
        cbn [snd] in Hv. rewrite Hv. reflexivity.
      * exists dquote. eexists. unfold show_member, quote. rewrite append_cons.
        split; [reflexivity|]. split; reflexivity.
    + rewrite length_append.
      assert (length fields <= String.length (join "," (map show_member fields)))%nat; [|lia].
      clear. induction fields as [|x fields IH]; [simpl; lia|].
      assert (exists c s, show_member x = String c s) as (c & s & Hs).
      { unfold show_member, quote. rewrite append_cons. do 2 eexists. reflexivity. }
      destruct fields as [|y fields].
      * cbn [map join String.concat]. rewrite Hs. simpl. lia.
      * change (join "," (map show_member (x :: y :: fields)))
          with (show_member x +:+ "," +:+ join "," (map show_member (y :: fields))).
        rewrite !length_append, Hs. simpl in *. lia.
Qed.

Lemma length_join_elem {A : Type} (show : A -> string) (xs : list A) (x : A) :
  In x xs -> (String.length (show x) <= String.length (join "," (map show xs)))%nat.
Proof.
  induction xs as [|y xs IH]; [intros []|].
  intros Hin. destruct xs as [|z xs].
  - destruct Hin as [->|[]]. cbn [map join String.concat]. lia.
  - change (join "," (map show (y :: z :: xs)))
      with (show y +:+ "," +:+ join "," (map show (z :: xs))).
    rewrite !length_append. destruct Hin as [->|Hin]; [lia|].
    specialize (IH Hin). lia.
Qed.

Lemma depth_le_length (v : json) : (depth v <= String.length (stringify v))%nat.
Proof.
  induction v as [|b|n|s|items IH|fields IH] using json_ind; try (cbn [depth]; lia).
  - rewrite stringify_arr, !length_append. cbn [depth].
    change (String.length "[") with 1%nat.
    enough ((fix go (l : list json) : nat :=
               match l with
               | [] => 0
               | x :: l' => Nat.max (depth x) (go l')
               end) items <= String.length (join "," (map stringify items)))%nat by lia.
    assert (forall x, In x items ->
              (depth x <= String.length (join "," (map stringify items)))%nat) as H.
    { intros x Hx. rewrite Forall_forall in IH.
      pose proof (IH x (proj2 (list_elem_of_In _ _) Hx)).
      pose proof (length_join_elem stringify items x Hx). lia. }
    revert H. generalize (String.length (join "," (map stringify items))).
    clear. induction items as [|x items IH]; intros n H; [lia|].
    apply Nat.max_lub; [apply H; left; reflexivity|].
    apply IH. intros y Hy. apply H. right. exact Hy.
  - rewrite stringify_obj, !length_append. cbn [depth].
    change (String.length "{") with 1%nat.
    enough ((fix go (l : list (string * json)) : nat :=
               match l with
               | [] => 0
               | (_, x) :: l' => Nat.max (depth x) (go l')
               end) fields <= String.length (join "," (map show_member fields)))%nat by lia.
    assert (forall kv, In kv fields ->
              (depth (snd kv) <= String.length (join "," (map show_member fields)))%nat) as H.
    { intros kv Hkv. rewrite Forall_forall in IH.
      pose proof (IH kv (proj2 (list_elem_of_In _ _) Hkv)).
      pose proof (length_join_elem show_member fields kv Hkv).
      assert (String.length (stringify (snd kv)) <= String.length (show_member kv))%nat.
      { unfold show_member. rewrite !length_append. lia. }
      lia. }
    revert H. generalize (String.length (join "," (map show_member fields))).
    clear. induction fields as [|[k x] fields IH]; intros n H; [lia|].
    apply Nat.max_lub; [apply (H (k, x)); left; reflexivity|].
    apply IH. intros y Hy. apply H. right. exact Hy.
Qed.

(** [JSON.parse (JSON.stringify v)] is [v]: what [saveMemory] writes to
    Redis is what [getMemory] reads back. *)
Theorem parse_stringify (v : json) : JsonParse.parse (Json.stringify v) = Some v.
Proof.
  unfold JsonParse.parse.
  pose proof (parse_value_stringify v (S (String.length (stringify v))) EmptyString) as H.
  rewrite append_nil_r in H. rewrite H; [reflexivity| |reflexivity].
  pose proof (depth_le_length v). lia.
Qed.

End RoundTrip.

(* ===================================================================== *)
(** ** The memory store as a state machine *)
(* ===================================================================== *)

Section MemoryFacts.
Variable w : world.
Variable ttl : Z.

Lemma cache_read_usingRedis (key : string) (st : store) :
  usingRedis (snd (cache_read key st)) = usingRedis st.
Proof.
  unfold cache_read, cache_get.
  destruct (memCache st !! key) as [[v t]|]; [|reflexivity].
  destruct (_ && _); reflexivity.
Qed.

Lemma getMemory_demoted (chatId : Z) (st : store) :
  usingRedis st = false ->
  getMemory w chatId st
  = (fst (cache_read (memory_key chatId) st), snd (cache_read (memory_key chatId) st), []).
Proof.
  intros H. unfold getMemory. rewrite H. cbn [andb].
  destruct (cache_read _ st); reflexivity.
Qed.

Lemma getMemory_local (chatId : Z) (st : store) :
  usingRedis st && redis st = false ->
  getMemory w chatId st
  = (fst (cache_read (memory_key chatId) st), snd (cache_read (memory_key chatId) st), []).
Proof.
  intros H. unfold getMemory. rewrite H.
  destruct (cache_read _ st); reflexivity.
Qed.

Lemma saveMemory_demoted (chatId : Z) (h : json) (st : store) :
  usingRedis st = false ->
  saveMemory w ttl chatId h st = (cache_set ttl (memory_key chatId) h st, []).
Proof. intros H. unfold saveMemory. rewrite H. reflexivity. Qed.

Lemma cache_read_frame (key : string) (st : store) :
  requests (snd (cache_read key st)) = requests st
  /\ redisDb (snd (cache_read key st)) = redisDb st
  /\ redis (snd (cache_read key st)) = redis st.
Proof.
  unfold cache_read, cache_get.
  destruct (memCache st !! key) as [[v t]|]; [|repeat split].
  destruct (_ && _); repeat split.
Qed.

Lemma run_op_demoted (op : memop) (st : store) :
  usingRedis st = false ->
  usingRedis (fst (run_op w ttl op st)) = false
  /\ snd (run_op w ttl op st) = []
  /\ requests (fst (run_op w ttl op st)) = requests st
  /\ redisDb (fst (run_op w ttl op st)) = redisDb st.
Proof.
  intros H. destruct op as [chatId | chatId h | ms]; cbn [run_op].
  - rewrite (getMemory_demoted chatId st H). cbn [fst snd].
    rewrite cache_read_usingRedis.
    destruct (cache_read_frame (memory_key chatId) st) as (Hr & Hd & _).
    repeat split; assumption.
  - rewrite (saveMemory_demoted chatId h st H). repeat split. exact H.
  - repeat split. exact H.
Qed.

Lemma run_ops_demoted (ops : list memop) (st : store) :
  usingRedis st = false ->
  usingRedis (fst (run_ops w ttl ops st)) = false
  /\ snd (run_ops w ttl ops st) = []
  /\ requests (fst (run_ops w ttl ops st)) = requests st
  /\ redisDb (fst (run_ops w ttl ops st)) = redisDb st.
Proof.
  revert st. induction ops as [|op ops IH]; intros st H; [repeat split; exact H|].
  cbn [run_ops].
  destruct (run_op_demoted op st H) as (H1 & H2 & H3 & H4).
  destruct (run_op w ttl op st) as [st1 t1]. cbn [fst snd] in *.
  destruct (IH st1 H1) as (H5 & H6 & H7 & H8).
  destruct (run_ops w ttl ops st1) as [st2 t2]. cbn [fst snd] in *.
  subst t1 t2. repeat split; [assumption | congruence | congruence].
Qed.

Lemma getMemory_failure_demotes (chatId : Z) (st : store) :
  usingRedis st && redis st = true ->
  redis_ok w (requests st) = false ->
  usingRedis (snd (fst (getMemory w chatId st))) = false
  /\ snd (getMemory w chatId st) = [RedisGet (memory_key chatId)].
Proof.
  intros Huse Hfail. unfold getMemory, redis_get. rewrite Huse, Hfail.
  pose proof (cache_read_usingRedis (memory_key chatId) (Store.demote (Store.sent st))) as H.
  destruct (cache_read _ _) as [h st']. cbn [fst snd] in *. split; [exact H | reflexivity].
Qed.

Lemma saveMemory_failure_demotes (chatId : Z) (h : json) (st : store) :
  usingRedis st && redis st = true ->
  redis_ok w (requests st) = false ->
  usingRedis (fst (saveMemory w ttl chatId h st)) = false
  /\ snd (saveMemory w ttl chatId h st)
     = [RedisSet (memory_key chatId) (Json.stringify h) ttl].
Proof.
  intros Huse Hfail. unfold saveMemory, redis_set. rewrite Huse, Hfail.
  split; reflexivity.
Qed.

End MemoryFacts.

(** C2. Demotion is one-way.  A read or a write whose Redis request
    fails clears [usingRedis]; and from a state in which [usingRedis] is
    cleared, whatever reads, writes and delays follow and whatever Redis
    would now answer, no request is sent to Redis, the flag stays
    cleared, the Redis data is left alone, and every read and write is
    the cache's. *)
Theorem demotion_is_one_way (w : world) (ttl : Z) (st : store) :
  (usingRedis st && redis st = true ->
   redis_ok w (requests st) = false ->
   forall chatId h,
     usingRedis (snd (fst (getMemory w chatId st))) = false
     /\ usingRedis (fst (saveMemory w ttl chatId h st)) = false)
  /\ (usingRedis st = false ->
      forall (w' : world) (ops : list memop),
        usingRedis (fst (run_ops w' ttl ops st)) = false
        /\ snd (run_ops w' ttl ops st) = []
        /\ requests (fst (run_ops w' ttl ops st)) = requests st
        /\ redisDb (fst (run_ops w' ttl ops st)) = redisDb st)
  /\ (usingRedis st = false ->
      forall (w' : world) chatId h,
        getMemory w' chatId st
        = (fst (cache_read (memory_key chatId) st),
           snd (cache_read (memory_key chatId) st), [])
        /\ saveMemory w' ttl chatId h st = (cache_set ttl (memory_key chatId) h st, [])).
Proof.
  split; [|split].
  - intros Huse Hfail chatId h. split.
    + apply (getMemory_failure_demotes w chatId st Huse Hfail).
    + apply (saveMemory_failure_demotes w ttl chatId h st Huse Hfail).
  - intros H w' ops. apply run_ops_demoted. exact H.
  - intros H w' chatId h. split.
    + apply getMemory_demoted. exact H.
    + apply saveMemory_demoted. exact H.
Qed.

(** [demotion_is_one_way] after a failed read: the write, the read and
    the later read that follow send nothing to Redis. *)
Lemma demotion_is_one_way_after_failed_get :
  usingRedis redis_fresh = true
  /\ usingRedis (snd (fst (getMemory redis_recovers 7 redis_fresh))) = false
  /\ snd (run_ops redis_recovers 10800
            [Put 7 (JArr [JStr "hi"]); Get 7; Wait 60000; Get 7]
            (snd (fst (getMemory redis_recovers 7 redis_fresh)))) = [].
Proof.
  split; [reflexivity|]. split.
  - apply (proj1 (demotion_is_one_way redis_recovers 10800 redis_fresh)
             eq_refl eq_refl 7 JNull).
  - apply (proj1 (proj2 (demotion_is_one_way redis_recovers 10800
                           (snd (fst (getMemory redis_recovers 7 redis_fresh)))))
             eq_refl redis_recovers).
Defined.

(* ===================================================================== *)
(** ** Put, get and expiry *)
(* ===================================================================== *)

(** C4, as stated, fails: the put is served by Redis, the get that
    follows at once finds Redis down and falls back to the cache, which
    never saw the history; it returns the empty history. *)
Lemma put_then_failed_get_is_empty :
  snd (saveMemory redis_goes_down 10800 7 (JArr [turn "user" (JStr "hi")]) redis_fresh)
  = [RedisSet "memory:7" (Json.stringify (JArr [turn "user" (JStr "hi")])) 10800]
  /\ getMemory redis_goes_down 7
       (fst (saveMemory redis_goes_down 10800 7 (JArr [turn "user" (JStr "hi")]) redis_fresh))
     = (JArr [],
        Store.demote (Store.sent
          (fst (saveMemory redis_goes_down 10800 7 (JArr [turn "user" (JStr "hi")])
                  redis_fresh))),
        [RedisGet "memory:7"])
  /\ ~ put_then_get redis_goes_down 10800 redis_fresh.
Proof.
  split; [vm_compute; reflexivity|]. split; [vm_compute; reflexivity|].
  intros H. specialize (H 7 [turn "user" (JStr "hi")]).
  vm_compute in H. discriminate H.
Qed.

Section PutGet.
Variable w : world.
Variable ttl : Z.
Hypothesis ttl_positive : 0 < ttl.

Lemma cache_set_then_read (key : string) (items : list json) (st : store) :
  fst (cache_read key (cache_set ttl key (JArr items) st)) = JArr items.
Proof.
  unfold cache_read, cache_get, cache_set. cbn [memCache Store.with_memCache clock].
  rewrite lookup_insert_eq.
  destruct (ttl =? 0) eqn:E; [reflexivity|].
  replace (clock st + ttl * 1000 <? clock st) with false by (symmetry; apply Z.ltb_ge; lia).
  rewrite andb_false_r. reflexivity.
Qed.

Lemma cache_set_then_expired (key : string) (h : json) (st : store) (ms : Z) :
  0 <= clock st -> ttl * 1000 < ms ->
  fst (cache_read key (Store.advance ms (cache_set ttl key h st))) = JArr [].
Proof.
  intros Hclock Hms.
  unfold cache_read, cache_get, cache_set.
  cbn [memCache Store.with_memCache Store.advance clock].
  rewrite lookup_insert_eq.
  replace (ttl =? 0) with false by (symmetry; apply Z.eqb_neq; lia).
  replace (clock st + ttl * 1000 =? 0) with false by (symmetry; apply Z.eqb_neq; lia).
  replace (clock st + ttl * 1000 <? clock st + ms) with true by (symmetry; apply Z.ltb_lt; lia).
  reflexivity.
Qed.

Lemma put_get_immediately (chatId : Z) (items : list json) (st : store) :
  (usingRedis (fst (saveMemory w ttl chatId (JArr items) st))
   && redis (fst (saveMemory w ttl chatId (JArr items) st)) = true ->
   redis_ok w (requests (fst (saveMemory w ttl chatId (JArr items) st))) = true) ->
  fst (fst (getMemory w chatId (fst (saveMemory w ttl chatId (JArr items) st))))
  = JArr items.
Proof.
  unfold saveMemory. destruct (usingRedis st && redis st) eqn:Huse.
  - unfold redis_set. destruct (redis_ok w (requests st) && (0 <? ttl)) eqn:Hok.
    + cbn [fst]. intros Hserved.
      unfold getMemory.
      cbn [usingRedis redis Store.with_redisDb Store.sent] in *.
      rewrite Huse in *. specialize (Hserved eq_refl).
      unfold redis_get. cbn [requests redisDb clock Store.with_redisDb Store.sent] in *.
      rewrite Hserved, lookup_insert_eq.
      replace (clock st <=? clock st + ttl * 1000) with true by (symmetry; apply Z.leb_le; lia).
      cbn [Env.truthy_str default]. rewrite stringify_nonempty.
      unfold id. rewrite parse_stringify. reflexivity.
    + cbn [fst]. intros _.
      rewrite getMemory_demoted by reflexivity. cbn [fst].
      apply cache_set_then_read.
  - cbn [fst]. intros _.
    rewrite (getMemory_local w chatId (cache_set ttl (memory_key chatId) (JArr items) st) Huse).
    cbn [fst]. apply cache_set_then_read.
Qed.

Lemma put_then_expired (chatId : Z) (h : json) (st : store) (ms : Z) :
  coherent st -> 0 <= clock st -> ttl * 1000 < ms ->
  fst (fst (getMemory w chatId (Store.advance ms (fst (saveMemory w ttl chatId h st)))))
  = JArr [].
Proof.
  intros Hcoh Hclock Hms.
  unfold saveMemory. destruct (usingRedis st && redis st) eqn:Huse.
  - unfold redis_set. destruct (redis_ok w (requests st) && (0 <? ttl)) eqn:Hok.
    + cbn [fst]. unfold getMemory.
      cbn [usingRedis redis Store.with_redisDb Store.sent Store.advance].
      rewrite Huse. unfold redis_get.
      cbn [requests redisDb clock Store.with_redisDb Store.sent Store.advance].
      destruct (redis_ok w (S (requests st))).
      * rewrite lookup_insert_eq.
        replace (clock st + ms <=? clock st + ttl * 1000) with false
          by (symmetry; apply Z.leb_gt; lia).
        reflexivity.
      * unfold cache_read, cache_get.
        cbn [memCache Store.demote Store.sent Store.advance Store.with_redisDb].
        rewrite (Hcoh Huse), lookup_empty. reflexivity.
    + cbn [fst]. rewrite getMemory_demoted by reflexivity. cbn [fst].
      apply (cache_set_then_expired (memory_key chatId) h
               (Store.demote (Store.sent st)) ms); assumption.
  - cbn [fst].
    rewrite (getMemory_local w chatId
               (Store.advance ms (cache_set ttl (memory_key chatId) h st)) Huse).
    cbn [fst]. apply cache_set_then_expired; assumption.
Qed.

End PutGet.

(** [coherent] holds when the process starts and is kept by every read,
    write and delay. *)
Lemma init_coherent (env : gmap string string) (constructed : bool)
    (remote : gmap string (string * Z)) (now : Z) :
  coherent (Store.init env constructed remote now).
Proof. intros _. reflexivity. Qed.

Lemma run_op_coherent (w : world) (ttl : Z) (op : memop) (st : store) :
  coherent st -> coherent (fst (run_op w ttl op st)).
Proof.
  intros Hcoh. destruct op as [chatId | chatId h | ms]; cbn [run_op].
  - unfold getMemory. destruct (usingRedis st && redis st) eqn:Huse.
    + destruct (redis_get w _ st) as [e|v].
      * pose proof (cache_read_usingRedis (memory_key chatId) (Store.demote (Store.sent st))) as H.
        destruct (cache_read _ _) as [h st']. cbn [fst snd] in *.
        change (usingRedis st' = false) in H.
        intros H'. apply andb_true_iff in H' as [H' _]. congruence.
      * destruct (Env.truthy_str v); [|exact Hcoh].
        destruct (JsonParse.parse _); [exact Hcoh|].
        pose proof (cache_read_usingRedis (memory_key chatId) (Store.demote (Store.sent st))) as H.
        destruct (cache_read _ _) as [h st']. cbn [fst snd] in *.
        change (usingRedis st' = false) in H.
        intros H'. apply andb_true_iff in H' as [H' _]. congruence.
    + pose proof (cache_read_usingRedis (memory_key chatId) st) as H.
      destruct (cache_read_frame (memory_key chatId) st) as (_ & _ & Hr).
      destruct (cache_read _ _) as [h st']. cbn [fst snd] in *.
      intros H'. rewrite H, Hr in H'. congruence.
  - unfold saveMemory. destruct (usingRedis st && redis st) eqn:Huse.
    + unfold redis_set. destruct (redis_ok w (requests st) && (0 <? ttl)); cbn [fst].
      * exact Hcoh.
      * intros H'. discriminate H'.
    + cbn [fst]. intros H'.
      change (usingRedis st && redis st = true) in H'. congruence.
  - exact Hcoh.
Qed.

Lemma run_ops_coherent (w : world) (ttl : Z) (ops : list memop) (st : store) :
  coherent st -> coherent (fst (run_ops w ttl ops st)).
Proof.
  revert st. induction ops as [|op ops IH]; intros st Hcoh; [exact Hcoh|].
  cbn [run_ops]. pose proof (run_op_coherent w ttl op st Hcoh) as H1.
  destruct (run_op w ttl op st) as [st1 t1]. cbn [fst] in H1.
  specialize (IH st1 H1). destruct (run_ops w ttl ops st1) as [st2 t2]. exact IH.
Qed.

(** C4, amended. For a positive time-to-live, a put followed at once by
    a get returns the history that was put, provided that, when the put
    was served by Redis, Redis also serves the get; and once more than
    the time-to-live has passed since the put, with no other put, a get
    returns the empty history, whether Redis serves it or not. *)
Theorem put_get_and_expiry (w : world) (ttl : Z) (chatId : Z) (items : list json)
    (st : store) :
  0 < ttl ->
  ((usingRedis (fst (saveMemory w ttl chatId (JArr items) st))
    && redis (fst (saveMemory w ttl chatId (JArr items) st)) = true ->
    redis_ok w (requests (fst (saveMemory w ttl chatId (JArr items) st))) = true) ->
   fst (fst (getMemory w chatId (fst (saveMemory w ttl chatId (JArr items) st))))
   = JArr items)
  /\ (coherent st -> 0 <= clock st ->
      forall ms, ttl * 1000 < ms ->
        fst (fst (getMemory w chatId
                    (Store.advance ms (fst (saveMemory w ttl chatId (JArr items) st)))))
        = JArr []).
Proof.
  intros Httl. split.
  - apply put_get_immediately. exact Httl.
  - intros Hcoh Hclock ms Hms. apply put_then_expired; assumption.
Qed.

(** [put_get_and_expiry] with Redis up: the history comes back at once,
    and is gone three hours and a millisecond later. *)
Lemma put_get_and_expiry_redis_up :
  fst (fst (getMemory redis_up 7
              (fst (saveMemory redis_up 10800 7 (JArr [turn "user" (JStr "hi")]) redis_fresh))))
  = JArr [turn "user" (JStr "hi")]
  /\ fst (fst (getMemory redis_up 7
                 (Store.advance 10800001
                    (fst (saveMemory redis_up 10800 7 (JArr [turn "user" (JStr "hi")])
                            redis_fresh)))))
     = JArr [].
Proof.
  destruct (put_get_and_expiry redis_up 10800 7 [turn "user" (JStr "hi")] redis_fresh
              ltac:(lia)) as [Hget Hexp].
  split.
  - apply Hget. reflexivity.
  - apply Hexp; [apply init_coherent | vm_compute; discriminate | lia].
Defined.

(* ===================================================================== *)
(** ** Further properties of the chat fallback and of the memory *)
(* ===================================================================== *)

(** X1. The web synthesis makes the two lookups of the prompt, the
    encyclopedia first, whatever they come back with.  Each lookup turns
    its failure into a text, so both segments are there: the answer is
    the text of the first value after "From Wikipedia: ", two line
    feeds, and the text of the second value after "Duck: ".  When one of
    the two values has no text the synthesis throws the [TypeError] of
    the coercion, after both lookups. *)
Theorem chat_web_opens_with_wikipedia (w : world) (prompt : string) :
  exists wiki ddg,
    IO.result (wikiSummary w prompt) = Returns wiki /\ Js.truthy wiki = true
    /\ IO.result (duckDuck w prompt) = Returns ddg /\ Js.truthy ddg = true
    /\ chat_web w prompt JNull
       = (match Js.toString wiki, Js.toString ddg with
          | Some a, Some b =>
              Returns (JStr ("From Wikipedia: " +:+ a +:+ newline +:+ newline
                             +:+ "Duck: " +:+ b))
          | _, _ => Throws type_error_primitive
          end, [WikiGet prompt; DuckGet prompt]).
Proof.
  destruct (chat_web_run w prompt JNull eq_refl) as (wiki & ddg & Hw & Hwt & Hd & Hdt & H).
  exists wiki, ddg. rewrite Hw, Hd. repeat (split; [reflexivity || assumption|]). exact H.
Qed.

(** X2. The full fallback of the specification: with no text-generation
    provider configured and both lookups answering, the answer joins the
    two segments. *)
Theorem chat_full_fallback (env : gmap string string) (w : world)
    (modelKey prompt context x y : string) (page result : json) :
  Env.truthy_str (env !! "HF_SPACE_URL") = false ->
  Env.truthy_str (env !! "HUGGINGFACE_API_KEY") = false ->
  Env.truthy_str (env !! "REPLICATE_API_KEY") = false ->
  wikipedia w prompt = Returns page ->
  Js.get_opt (Some page) "extract" = Some (JStr x) -> nonempty x = true ->
  duckduckgo w prompt = Returns result ->
  Js.get_opt (Some result) "AbstractText" = Some (JStr y) -> nonempty y = true ->
  chat_answer env w modelKey prompt context
  = (Returns (JStr ("From Wikipedia: " +:+ x +:+ newline +:+ newline +:+ "Duck: " +:+ y)),
     [WikiGet prompt; DuckGet prompt]).
Proof.
  intros Hspace Hkey Hrep Hwiki Hx Hxne Hduck Hy Hyne.
  unfold chat_answer, chat_hf_space, chat_hf_api, chat_replicate.
  rewrite Hspace, Hkey, Hrep. cbn [IO.bind IO.ret Js.truthy negb andb].
  rewrite andb_false_r. cbn [IO.bind IO.ret app].
  unfold chat_web. cbn [Js.truthy negb].
  assert (wikiSummary w prompt = (Returns (JStr x), [WikiGet prompt])) as ->.
  { unfold wikiSummary, IO.request. rewrite Hwiki.
    assert (page <> JNull) as Hp by (intros ->; discriminate Hx).
    unfold IO.bind at 1. rewrite (read_not_null page "extract" Hp).
    assert (Js.get page "extract" = Some (JStr x)) as ->
      by (destruct page; try discriminate Hx; exact Hx).
    cbn. rewrite Hxne. reflexivity. }
  assert (duckDuck w prompt = (Returns (JStr y), [DuckGet prompt])) as ->.
  { unfold duckDuck, IO.request. rewrite Hduck. unfold IO.bind.
    rewrite Hy. cbn. rewrite Hyne. reflexivity. }
  cbn [IO.catch IO.bind IO.ret Js.truthy Js.toString app]. rewrite Hxne, Hyne.
  cbn. rewrite !append_assoc. reflexivity.
Qed.

Lemma push_trace (P : event -> Prop) (mem x : json) : Forall P (IO.trace (push mem x)).
Proof. destruct mem; constructor. Qed.

Lemma provider_not_redis (context prompt : string) (e : event) :
  is_hf_space context e \/ is_hf_api context e \/ is_replicate e \/ is_web prompt e ->
  is_provider e.
Proof.
  intros [(url & ->) | [(url & ->) | [(v & i & ->) | [-> | ->]]]]; exact I.
Qed.

Section HandlerTraces.
Variable env : gmap string string.
Variable w : world.

Lemma callReplicate_provider (version : envval) (input : json) :
  Forall is_provider (IO.trace (callReplicate env w version input)).
Proof.
  unfold callReplicate. destruct (negb _); [constructor|].
  apply trace_request. exact I.
Qed.

Lemma tts_provider (rest : string) : Forall is_provider (IO.trace (tts env w rest)).
Proof.
  unfold tts. apply trace_bind.
  - unfold tts_elevenlabs. destruct (_ && _); [|constructor].
    apply trace_catch; [|intros; apply trace_ret].
    apply trace_bind; [|intros; apply trace_ret].
    unfold callElevenLabsTTS. destruct (_ || _); [constructor|].
    destruct (env !! "ELEVENLABS_API_URL"); [|constructor].
    apply trace_request. exact I.
  - intros [r|]; [apply trace_ret|].
    apply trace_bind.
    + unfold tts_replicate. destruct (_ && _); [|constructor].
      apply trace_catch; [|intros; apply trace_ret].
      apply trace_bind; [apply callReplicate_provider|].
      intros r. apply trace_bind; [apply trace_read | intros; apply trace_ret].
    + intros [r|]; apply trace_ret.
Qed.

Lemma media_provider (parts : list string) : Forall is_provider (IO.trace (media env w parts)).
Proof.
  unfold media. destruct (_ || _); [constructor|].
  apply trace_catch; [|intros; apply trace_ret].
  destruct (_ && _).
  - unfold media_runway. destruct (runway_config env _) as [endpoint model].
    apply trace_bind.
    + unfold callRunway. destruct (negb _); [constructor|].
      destruct endpoint; [|constructor]. apply trace_request. exact I.
    + intros res. apply trace_bind; [apply trace_read|].
      intros output. destruct (negb _); [apply trace_ret|].
      destruct (_ || _); apply trace_ret.
  - destruct (_ && _); [|constructor].
    unfold media_replicate. destruct (negb _); [constructor|].
    apply trace_bind; [apply callReplicate_provider|].
    intros r. apply trace_bind; [apply trace_read|].
    intros output. destruct (negb _); [apply trace_ret|].
    destruct (_ || _); [apply trace_ret|].
    destruct (String.eqb _ "recon3d"); [apply trace_ret|].
    destruct (String.eqb _ "caption"); [apply trace_reply_text | apply trace_ret].
Qed.

Lemma replicate_direct_provider (parts : list string) :
  Forall is_provider (IO.trace (replicate_direct env w parts)).
Proof.
  unfold replicate_direct. destruct (_ || _); [constructor|].
  destruct (negb _); [constructor|].
  apply trace_catch; [|intros; apply trace_ret].
  apply trace_bind; [apply callReplicate_provider|].
  intros r. apply trace_bind; [apply trace_read | intros; apply trace_reply_text].
Qed.

Lemma chat_demoted (ttl : Z) (parts : list string) (rest : string) (from : Z) (st : store) :
  usingRedis st = false ->
  usingRedis (snd (fst (chat env w ttl parts rest from st))) = false
  /\ Forall is_provider (snd (chat env w ttl parts rest from st)).
Proof.
  intros Hst. unfold chat. destruct (chat_args env parts rest) as [modelKey prompt].
  destruct (negb (nonempty prompt)); [split; [exact Hst | constructor]|].
  rewrite (getMemory_demoted w from st Hst).
  pose proof (cache_read_usingRedis (memory_key from) st) as Hst1. rewrite Hst in Hst1.
  set (mem := fst (cache_read (memory_key from) st)).
  set (st1 := snd (cache_read (memory_key from) st)) in *.
  match goal with
  | |- context [IO.bind (push ?a ?b) ?k] => set (m := IO.bind (push a b) k)
  end.
  assert (Forall is_provider (IO.trace m)) as Ht; [|destruct m as [[e|[mem2 answer]] t2]].
  { apply trace_bind; [apply push_trace|]. intros mem1.
    apply trace_bind; [rewrite contextStr_trace; constructor|]. intros context.
    apply trace_bind.
    - eapply Forall_impl; [apply chat_answer_trace|].
      intros e He. exact (provider_not_redis context prompt e He).
    - intros answer. apply trace_bind; [apply push_trace | intros; apply trace_ret]. }
  - cbn [fst snd app IO.trace] in *. split; [exact Hst1 | exact Ht].
  - rewrite (saveMemory_demoted w ttl from mem2 st1 Hst1).
    cbn [fst snd app IO.trace] in *. rewrite app_nil_r. split; [exact Hst1 | exact Ht].
Qed.

End HandlerTraces.

(** X3. Once [usingRedis] is cleared, a whole [/ai] command leaves it
    cleared and sends nothing to Redis: every request it makes goes to a
    provider. *)
Theorem ai_stays_demoted (env : gmap string string) (w : world) (ttl : Z)
    (text : string) (from : Z) (st : store) :
  usingRedis st = false ->
  usingRedis (snd (fst (ai env w ttl text from st))) = false
  /\ Forall is_provider (snd (ai env w ttl text from st)).
Proof.
  intros Hst. unfold ai.
  destruct (drop 1 (split_space (trim text))) as [|p0 args]; [split; [exact Hst | constructor]|].
  cbv zeta. destruct (_ && _); [split; [exact Hst | constructor]|].
  assert (usingRedis (snd (fst (dispatch env w ttl (toLowerCase p0) (p0 :: args)
                                  (trim (join_space (drop 1 (p0 :: args)))) from st))) = false
          /\ Forall is_provider
               (snd (dispatch env w ttl (toLowerCase p0) (p0 :: args)
                       (trim (join_space (drop 1 (p0 :: args)))) from st))) as H.
  { unfold dispatch, with_store.
    repeat match goal with
           | |- context [if String.eqb ?a ?b then _ else _] => destruct (String.eqb a b)
           end; cbn [fst snd].
    - split; [exact Hst | constructor].
    - apply chat_demoted. exact Hst.
    - split; [exact Hst|].
      destruct (wikiSummary_run w (trim (join_space (drop 1 (p0 :: args))))) as (v & -> & _).
      apply trace_bind; [repeat constructor | intros; apply trace_reply_text].
    - split; [exact Hst|].
      destruct (duckDuck_run w (trim (join_space (drop 1 (p0 :: args))))) as (v & -> & _).
      apply trace_bind; [repeat constructor | intros; apply trace_reply_text].
    - split; [exact Hst|]. rewrite translate_run. cbn. repeat constructor.
    - split; [exact Hst | apply tts_provider].
    - split; [exact Hst | apply media_provider].
    - split; [exact Hst | apply replicate_direct_provider].
    - split; [exact Hst | constructor]. }
  destruct (dispatch _ _ _ _ _ _ _ _) as [[[e|r] st'] t]; exact H.
Qed.

Lemma chat_full_fallback_lookups_answer :
  chat_answer ∅ lookups_answer "" "Rocq" "user: Rocq"
  = (Returns (JStr ("From Wikipedia: X" +:+ newline +:+ newline +:+ "Duck: Y")),
     [WikiGet "Rocq"; DuckGet "Rocq"]).
Proof.
  apply (chat_full_fallback ∅ lookups_answer "" "Rocq" "user: Rocq" "X" "Y"
           (JObj [("extract", JStr "X")]) (JObj [("AbstractText", JStr "Y")]));
    reflexivity.
Defined.

Lemma ai_stays_demoted_chat_offline :
  usingRedis (Store.demote redis_fresh) = false
  /\ usingRedis (snd (fst (ai redis_env offline 10800 "/ai chat hello" 7
                             (Store.demote redis_fresh)))) = false
  /\ Forall is_provider (snd (ai redis_env offline 10800 "/ai chat hello" 7
                                (Store.demote redis_fresh))).
Proof.
  split; [reflexivity|].
  apply (ai_stays_demoted redis_env offline 10800 "/ai chat hello" 7
           (Store.demote redis_fresh)).
  reflexivity.
Defined.

(** X4. From start-up on, whatever gets, puts and delays follow and whatever
    Redis does, the in-process cache holds nothing for as long as Redis
    is in use: the cache is written only after the demotion. *)
Theorem cache_empty_while_redis_in_use (env : gmap string string) (constructed : bool)
    (remote : gmap string (string * Z)) (now : Z) (w : world) (ttl : Z)
    (ops : list memop) :
  coherent (fst (run_ops w ttl ops (Store.init env constructed remote now))).
Proof. apply run_ops_coherent. apply init_coherent. Qed.

Lemma cache_empty_while_redis_in_use_after_put :
  usingRedis (fst (run_ops redis_up 10800 [Put 7 (JArr []); Get 7] redis_fresh))
  && redis (fst (run_ops redis_up 10800 [Put 7 (JArr []); Get 7] redis_fresh)) = true
  /\ memCache (fst (run_ops redis_up 10800 [Put 7 (JArr []); Get 7] redis_fresh)) = ∅.
Proof.
  split; [vm_compute; reflexivity|].
  apply (cache_empty_while_redis_in_use redis_env true ∅ 1000 redis_up 10800
           [Put 7 (JArr []); Get 7]).
  vm_compute. reflexivity.
Defined.

(* ===================================================================== *)
(** ** Histories in the store, and the errors of the handler *)
(* ===================================================================== *)

Lemma is_history_arr (h : json) :
  is_history h = true -> exists items, h = JArr items /\ Forall (fun m => m <> JNull) items.
Proof.
  destruct h; try discriminate. intros H. exists items. split; [reflexivity|].
  simpl in H. induction items as [|m items IH]; [constructor|].
  simpl in H. apply andb_prop in H as [Hm H]. constructor; [|exact (IH H)].
  intros ->. discriminate Hm.
Qed.

Lemma is_history_push (items : list json) (x : json) :
  is_history (JArr items) = true -> x <> JNull -> is_history (JArr (items ++ [x])) = true.
Proof.
  cbn [is_history]. intros H Hx. rewrite forallb_app, H. destruct x; [congruence | reflexivity..].
Qed.

Lemma store_ok_sent (st : store) : store_ok st -> store_ok (Store.sent st).
Proof. intros H. exact H. Qed.

Lemma store_ok_demote (st : store) : store_ok st -> store_ok (Store.demote st).
Proof. intros H. exact H. Qed.

Lemma store_ok_advance (ms : Z) (st : store) : store_ok st -> store_ok (Store.advance ms st).
Proof. intros H. exact H. Qed.

Lemma cache_read_ok (key : string) (st : store) :
  store_ok st ->
  is_history (fst (cache_read key st)) = true /\ store_ok (snd (cache_read key st)).
Proof.
  intros [Hr Hc]. unfold cache_read, cache_get.
  destruct (memCache st !! key) as [[v t]|] eqn:E; [|split; [reflexivity | split; assumption]].
  destruct (_ && _); cbn [fst snd].
  - split; [reflexivity|]. split; [exact Hr|].
    intros k h t'. cbn. intros H. apply lookup_delete_Some in H as [_ H]. exact (Hc k h t' H).
  - pose proof (Hc key v t E) as Hv. split; [|split; assumption].
    cbn. destruct v; try discriminate Hv. exact Hv.
Qed.

Lemma getMemory_ok (w : world) (chatId : Z) (st : store) :
  store_ok st ->
  is_history (fst (fst (getMemory w chatId st))) = true
  /\ store_ok (snd (fst (getMemory w chatId st))).
Proof.
  intros Hok. unfold getMemory.
  destruct (usingRedis st && redis st).
  - unfold redis_get. destruct (redis_ok w (requests st)).
    + destruct (redisDb st !! memory_key chatId) as [[v t]|] eqn:E.
      * destruct (clock st <=? t).
        -- destruct Hok as [Hr Hc]. destruct (Hr _ _ _ E) as (h & -> & Hh).
           cbn [Env.truthy_str default]. unfold id.
           rewrite stringify_nonempty, parse_stringify. cbn [fst snd].
           split; [exact Hh | split; assumption].
        -- cbn. split; [reflexivity | exact Hok].
      * cbn. split; [reflexivity | exact Hok].
    + pose proof (cache_read_ok (memory_key chatId) (Store.demote (Store.sent st)) Hok) as H.
      destruct (cache_read _ _). exact H.
  - pose proof (cache_read_ok (memory_key chatId) st Hok) as H.
    destruct (cache_read _ _). exact H.
Qed.

Lemma cache_set_ok (ttl : Z) (key : string) (h : json) (st : store) :
  store_ok st -> is_history h = true -> store_ok (cache_set ttl key h st).
Proof.
  intros [Hr Hc] Hh. split; [exact Hr|].
  intros k v t. cbn. intros H. apply lookup_insert_Some in H as [[_ H]|[_ H]].
  - inversion H. subst. exact Hh.
  - exact (Hc k v t H).
Qed.

Lemma saveMemory_ok (w : world) (ttl chatId : Z) (h : json) (st : store) :
  store_ok st -> is_history h = true -> store_ok (fst (saveMemory w ttl chatId h st)).
Proof.
  intros Hok Hh. unfold saveMemory. destruct (usingRedis st && redis st).
  - unfold redis_set. destruct (_ && _); cbn [fst].
    + destruct Hok as [Hr Hc]. split; [|exact Hc].
      intros k v t. cbn. intros H. apply lookup_insert_Some in H as [[_ H]|[_ H]].
      * inversion H. subst. exists h. split; [reflexivity | exact Hh].
      * exact (Hr k v t H).
    + apply cache_set_ok; assumption.
  - apply cache_set_ok; assumption.
Qed.

Lemma returns_ret {A : Type} (a : A) : returns (IO.ret a).
Proof. exists a. reflexivity. Qed.

Lemma returns_bind {A B : Type} (m : IO A) (k : A -> IO B) :
  returns m -> (forall a, returns (k a)) -> returns (IO.bind m k).
Proof.
  intros [a Ha] Hk. destruct m as [[e|a'] t]; [discriminate Ha|].
  destruct (Hk a') as [b Hb]. exists b. unfold IO.bind.
  destruct (k a') as [r t']. exact Hb.
Qed.

Lemma returns_catch {A : Type} (m : IO A) (h : string -> IO A) :
  (forall e, returns (h e)) -> returns (IO.catch m h).
Proof.
  intros Hh. destruct m as [[e|a] t].
  - destruct (Hh e) as [b Hb]. exists b. unfold IO.catch.
    destruct (h e) as [r t']. exact Hb.
  - exists a. reflexivity.
Qed.

Lemma throws_only_returns {A : Type} (err : string) (m : IO A) :
  returns m -> throws_only err m.
Proof. intros [a Ha] e He. rewrite Ha in He. discriminate He. Qed.

Lemma throws_only_bind {A B : Type} (err : string) (m : IO A) (k : A -> IO B) :
  throws_only err m -> (forall a, throws_only err (k a)) -> throws_only err (IO.bind m k).
Proof.
  intros Hm Hk e. destruct m as [[e'|a] t]; cbn.
  - intros [= <-]. apply Hm. reflexivity.
  - specialize (Hk a). destruct (k a) as [[e'|b] t']; cbn; [|discriminate].
    intros [= <-]. apply Hk. reflexivity.
Qed.

Lemma throws_only_coerce (v : option json) : throws_only type_error_primitive (coerce v).
Proof.
  intros e. destruct (coerce_cases v) as [(text & _ & ->) | [_ ->]]; cbn; congruence.
Qed.

Lemma throws_only_reply_text (v : json) : throws_only type_error_primitive (reply_text v).
Proof.
  intros e. destruct (reply_text_cases v) as [(text & _ & ->) | [_ ->]]; cbn; congruence.
Qed.

(** A history renders to a transcript unless one of its members has no
    text. *)
Lemma render_turns_throws_only (items : list json) :
  Forall (fun m => m <> JNull) items ->
  throws_only type_error_primitive (render_turns items).
Proof.
  induction 1 as [|m items Hm _ IH]; [apply throws_only_returns, returns_ret|].
  cbn [render_turns]. apply throws_only_bind.
  - unfold render_turn. rewrite !(read_not_null m _ Hm).
    apply throws_only_bind; [apply throws_only_returns, returns_ret | intros role].
    apply throws_only_bind; [apply throws_only_coerce | intros role_text].
    apply throws_only_bind; [apply throws_only_returns, returns_ret | intros content].
    apply throws_only_bind; [apply throws_only_coerce | intros content_text].
    apply throws_only_returns, returns_ret.
  - intros line. apply throws_only_bind; [exact IH | intros].
    apply throws_only_returns, returns_ret.
Qed.

Lemma contextStr_throws_only (items : list json) :
  Forall (fun m => m <> JNull) items ->
  throws_only type_error_primitive (contextStr (JArr items)).
Proof.
  intros H. cbn [contextStr].
  apply throws_only_bind; [apply render_turns_throws_only; exact H | intros].
  apply throws_only_returns, returns_ret.
Qed.

Section HandlerReturns.
Variable env : gmap string string.
Variable w : world.
Variable ttl : Z.

Lemma tts_returns (rest : string) : returns (tts env w rest).
Proof.
  unfold tts. apply returns_bind.
  - unfold tts_elevenlabs. destruct (_ && _); [|apply returns_ret].
    apply returns_catch. intros; apply returns_ret.
  - intros [r|]; [apply returns_ret|]. apply returns_bind.
    + unfold tts_replicate. destruct (_ && _); [|apply returns_ret].
      apply returns_catch. intros; apply returns_ret.
    + intros [r|]; apply returns_ret.
Qed.

Lemma media_returns (parts : list string) : returns (media env w parts).
Proof.
  unfold media. destruct (_ || _); [apply returns_ret|].
  apply returns_catch. intros; apply returns_ret.
Qed.

Lemma replicate_direct_returns (parts : list string) : returns (replicate_direct env w parts).
Proof.
  unfold replicate_direct. destruct (_ || _); [apply returns_ret|].
  destruct (negb _); [apply returns_ret|].
  apply returns_catch. intros; apply returns_ret.
Qed.

Lemma chat_context_throws (parts : list string) (rest : string) (from : Z) (st : store)
    (modelKey prompt : string) (items : list json) (st1 : store) (t1 : list event)
    (e : string) :
  chat_args env parts rest = (modelKey, prompt) ->
  nonempty prompt = true ->
  getMemory w from st = (JArr items, st1, t1) ->
  IO.result (contextStr (JArr (items ++ [turn "user" (JStr prompt)]))) = Throws e ->
  chat env w ttl parts rest from st = (Throws e, st1, t1).
Proof.
  intros Hargs Hprompt Hmem Hctx.
  unfold chat. rewrite Hargs, Hprompt, Hmem. cbn [negb push].
  unfold IO.ret at 1. unfold IO.bind at 1.
  rewrite (io_eta (contextStr _)), Hctx, contextStr_trace. cbn [IO.bind app].
  rewrite app_nil_r. reflexivity.
Qed.

Lemma chat_ok (parts : list string) (rest : string) (from : Z) (st : store) :
  store_ok st ->
  store_ok (snd (fst (chat env w ttl parts rest from st)))
  /\ forall e, fst (fst (chat env w ttl parts rest from st)) = Throws e ->
               e = type_error_primitive.
Proof.
  intros Hok. destruct (chat_args env parts rest) as [modelKey prompt] eqn:Ea.
  destruct (nonempty prompt) eqn:Ep.
  - pose proof (getMemory_ok w from st Hok) as [Hh Hok1].
    destruct (getMemory w from st) as [[mem st1] t1] eqn:Eg. cbn [fst snd] in Hh, Hok1.
    destruct (is_history_arr mem Hh) as (items & -> & Hitems).
    assert (Forall (fun m => m <> JNull) (items ++ [turn "user" (JStr prompt)])) as Hitems1.
    { apply Forall_app. split; [exact Hitems|]. constructor; [discriminate | constructor]. }
    pose proof (contextStr_throws_only _ Hitems1) as Hctx.
    destruct (IO.result (contextStr (JArr (items ++ [turn "user" (JStr prompt)]))))
      as [e|context] eqn:Hc.
    { rewrite (chat_context_throws parts rest from st modelKey prompt items st1 t1 e
                 Ea Ep Eg Hc). cbn [fst snd].
      split; [exact Hok1|]. intros e' [= <-]. apply Hctx. exact Hc. }
    destruct (chat_answer_cases env w modelKey prompt context) as [(answer & Hans & _) | Hans].
    + rewrite (chat_run env w ttl parts rest from st modelKey prompt items st1 t1 context
                 answer _ Ea Ep Eg Hc Hans). cbn [fst snd]. split.
      * apply saveMemory_ok; [exact Hok1|].
        change (items ++ [turn "user" (JStr prompt); turn "assistant" answer])%list
          with (items ++ [turn "user" (JStr prompt)] ++ [turn "assistant" answer])%list.
        rewrite app_assoc.
        apply is_history_push; [apply is_history_push; [exact Hh | discriminate] | discriminate].
      * apply throws_only_reply_text.
    + rewrite (chat_run_throws env w ttl parts rest from st modelKey prompt items st1 t1
                 context _ _ Ea Ep Eg Hc Hans). cbn [fst snd].
      split; [exact Hok1|]. intros e' [= <-]. reflexivity.
  - unfold chat. rewrite Ea, Ep. cbn [negb fst snd]. split; [exact Hok | discriminate].
Qed.

Lemma dispatch_ok (mode : string) (parts : list string) (rest : string)
    (from : Z) (st : store) :
  store_ok st ->
  store_ok (snd (fst (dispatch env w ttl mode parts rest from st)))
  /\ forall e, fst (fst (dispatch env w ttl mode parts rest from st)) = Throws e ->
               e = type_error_primitive /\ In mode ["chat"; "wiki"; "duck"].
Proof.
  intros Hok. unfold dispatch, with_store.
  assert (forall m : IO reply, returns m ->
            store_ok (snd (fst (fst m, st, snd m)))
            /\ forall e, fst (fst (fst m, st, snd m)) = Throws e ->
                         e = type_error_primitive /\ In mode ["chat"; "wiki"; "duck"]) as Hm.
  { intros [o t] [r Hr]. cbn in Hr. subst o. split; [exact Hok | discriminate]. }
  destruct (String.eqb mode "help") eqn:E0; [split; [exact Hok | discriminate]|].
  destruct (String.eqb mode "chat") eqn:E1.
  { apply String.eqb_eq in E1. subst mode.
    destruct (chat_ok parts rest from st Hok) as [H1 H2]. split; [exact H1|].
    intros e He. split; [exact (H2 e He) | left; reflexivity]. }
  destruct (String.eqb mode "wiki") eqn:E2.
  { apply String.eqb_eq in E2. subst mode. cbn [fst snd]. split; [exact Hok|].
    intros e He. split; [|right; left; reflexivity]. revert e He.
    apply throws_only_bind; [|intros; apply throws_only_reply_text].
    destruct (wikiSummary_run w rest) as (v & -> & _).
    apply throws_only_returns. eexists; reflexivity. }
  destruct (String.eqb mode "duck") eqn:E3.
  { apply String.eqb_eq in E3. subst mode. cbn [fst snd]. split; [exact Hok|].
    intros e He. split; [|right; right; left; reflexivity]. revert e He.
    apply throws_only_bind; [|intros; apply throws_only_reply_text].
    destruct (duckDuck_run w rest) as (v & -> & _).
    apply throws_only_returns. eexists; reflexivity. }
  repeat match goal with
         | |- context [if String.eqb ?a ?b then _ else _] => destruct (String.eqb a b)
         end.
  - apply Hm. rewrite translate_run. eexists; reflexivity.
  - apply Hm, tts_returns.
  - apply Hm, media_returns.
  - apply Hm, replicate_direct_returns.
  - split; [exact Hok | discriminate].
Qed.

Lemma ai_ok (text : string) (from : Z) (st : store) :
  store_ok st -> store_ok (snd (fst (ai env w ttl text from st))).
Proof.
  intros Hok. unfold ai.
  destruct (drop 1 (split_space (trim text))) as [|p0 args]; [exact Hok|].
  cbv zeta. destruct (_ && _); [exact Hok|].
  destruct (dispatch_ok (toLowerCase p0) (p0 :: args)
              (trim (join_space (drop 1 (p0 :: args)))) from st Hok) as [H _].
  destruct (dispatch _ _ _ _ _ _ _ _) as [[[e|r] st'] t]; exact H.
Qed.

End HandlerReturns.

Lemma store_ok_empty (st : store) :
  redisDb st = ∅ -> memCache st = ∅ -> store_ok st.
Proof.
  intros Hr Hc. split.
  - intros key v t H. rewrite Hr, lookup_empty in H. discriminate H.
  - intros key h t H. rewrite Hc, lookup_empty in H. discriminate H.
Qed.

(** X5. While Redis and the cache hold only histories (arrays without a
    [null] element, serialized in Redis), the one error the [try] block
    of the handler can throw is the [TypeError] of a value that has no
    text, and only the modes chat, wiki and duck can throw it: it is
    the only way to the outer [catch].  The other modes never throw,
    whatever the arguments, the configuration and the answers of the
    providers. *)
Theorem handler_throws_only_coercion (env : gmap string string) (w : world) (ttl : Z)
    (mode : string) (parts : list string) (rest : string) (from : Z) (st : store)
    (e : string) :
  store_ok st ->
  fst (fst (dispatch env w ttl mode parts rest from st)) = Throws e ->
  e = type_error_primitive /\ In mode ["chat"; "wiki"; "duck"].
Proof.
  intros Hok He.
  exact (proj2 (dispatch_ok env w ttl mode parts rest from st Hok) e He).
Qed.

Lemma handler_throws_only_coercion_object_answer :
  store_ok fresh
  /\ fst (fst (dispatch hf_env api_answers_object 10800 "chat" ["chat"; "hi"] "hi" 7 fresh))
     = Throws "Cannot convert object to primitive value"
  /\ "Cannot convert object to primitive value" = type_error_primitive
  /\ In "chat" ["chat"; "wiki"; "duck"].
Proof.
  split; [apply store_ok_empty; reflexivity|].
  split; [vm_compute; reflexivity|].
  apply (handler_throws_only_coercion hf_env api_answers_object 10800 "chat" ["chat"; "hi"]
           "hi" 7 fresh "Cannot convert object to primitive value").
  - apply store_ok_empty; reflexivity.
  - vm_compute. reflexivity.
Defined.

(** X6. Whatever commands arrive, from whomever, in whatever worlds, and
    however much time passes between them, Redis and the cache go on
    holding only histories. *)
Theorem bot_keeps_histories (env : gmap string string) (ttl : Z)
    (hs : list happening) (st : store) :
  store_ok st -> store_ok (snd (run_bot env ttl hs st)).
Proof.
  revert st. induction hs as [|[w text from|ms] hs IH]; intros st Hok; [exact Hok| |].
  - cbn [run_bot]. pose proof (ai_ok env w ttl text from st Hok) as H1.
    destruct (ai env w ttl text from st) as [[r st1] t]. cbn [fst snd] in H1.
    specialize (IH st1 H1). destruct (run_bot env ttl hs st1) as [rs st2]. exact IH.
  - cbn [run_bot]. apply IH. exact Hok.
Qed.

Lemma bot_keeps_histories_two_chats :
  store_ok fresh
  /\ store_ok (snd (run_bot space_env 10800
                      [ Command space_says_four "/ai chat What is 2+2?" 7;
                        Elapse 1000;
                        Command offline "/ai chat and 3+3?" 7 ] fresh)).
Proof.
  split; [apply store_ok_empty; reflexivity|].
  apply (bot_keeps_histories space_env 10800
           [ Command space_says_four "/ai chat What is 2+2?" 7;
             Elapse 1000;
             Command offline "/ai chat and 3+3?" 7 ] fresh).
  apply store_ok_empty; reflexivity.
Defined.

(* ===================================================================== *)
(** ** A stored value that is not a history *)
(* ===================================================================== *)

Lemma getMemory_redisDb (w : world) (chatId : Z) (st : store) :
  redisDb (snd (fst (getMemory w chatId st))) = redisDb st.
Proof.
  unfold getMemory. destruct (usingRedis st && redis st).
  - destruct (redis_get w (memory_key chatId) st) as [e|v].
    + pose proof (cache_read_frame (memory_key chatId) (Store.demote (Store.sent st)))
        as (_ & H & _).
      destruct (cache_read _ _). exact H.
    + destruct (Env.truthy_str v); [|reflexivity].
      destruct (JsonParse.parse _); [reflexivity|].
      pose proof (cache_read_frame (memory_key chatId) (Store.demote (Store.sent st)))
        as (_ & H & _).
      destruct (cache_read _ _). exact H.
  - pose proof (cache_read_frame (memory_key chatId) st) as (_ & H & _).
    destruct (cache_read _ _). exact H.
Qed.

(** X7. When what [getMemory] returns for the user is not an array (Redis
    holds some other JSON value under the user's key), a chat request is
    answered by the outer [catch] with the [TypeError] of [mem.push]: no
    provider is asked and nothing is saved, so the key stays as it is. *)
Theorem corrupt_history_blocks_chat (env : gmap string string) (w : world) (ttl : Z)
    (text : string) (from : Z) (st : store) (mode : string) (args : list string)
    (mem : json) (st1 : store) (t1 : list event) :
  drop 1 (split_space (trim text)) = mode :: args ->
  toLowerCase mode = "chat" ->
  nonempty (trim (join_space args)) = true ->
  nonempty (snd (chat_args env (mode :: args) (trim (join_space args)))) = true ->
  getMemory w from st = (mem, st1, t1) ->
  Js.isArray (Some mem) = false ->
  ai env w ttl text from st
  = (ReplyText (withPrefix ("Error: " +:+ push_error mem)), st1, t1)
  /\ redisDb st1 = redisDb st.
Proof.
  intros Htok Hmode Hrest Hprompt Hget Hmem. split.
  - rewrite (ai_tokens env w ttl text from st mode args Htok). cbv zeta.
    rewrite Hmode, Hrest. cbn [negb andb]. unfold dispatch.
    change (String.eqb "chat" "help") with false. change (String.eqb "chat" "chat") with true.
    cbv iota. unfold chat.
    destruct (chat_args env (mode :: args) (trim (join_space args))) as [modelKey prompt].
    cbn [snd] in Hprompt. rewrite Hprompt, Hget. cbn [negb].
    destruct mem; try discriminate Hmem; cbn; rewrite app_nil_r; reflexivity.
  - pose proof (getMemory_redisDb w from st) as H. rewrite Hget in H. exact H.
Qed.

Lemma corrupt_history_blocks_chat_object :
  ai redis_env redis_up 10800 "/ai chat hi" 7 redis_holds_object
  = (ReplyText (withPrefix "Error: mem.push is not a function"),
     Store.sent redis_holds_object, [RedisGet "memory:7"])
  /\ redisDb (Store.sent redis_holds_object) = redisDb redis_holds_object.
Proof.
  apply (corrupt_history_blocks_chat redis_env redis_up 10800 "/ai chat hi" 7
           redis_holds_object "chat" ["hi"] (JObj []) (Store.sent redis_holds_object)
           [RedisGet "memory:7"]); vm_compute; reflexivity.
Defined.

(* ===================================================================== *)
(** ** The modes other than chat leave the memory alone *)
(* ===================================================================== *)

(** X8. Only the chat mode touches the conversation memory: a command whose
    mode word is not [chat] leaves Redis, the cache and the [usingRedis]
    flag as they are and sends nothing to Redis. *)
Theorem only_chat_touches_memory (env : gmap string string) (w : world) (ttl : Z)
    (text : string) (from : Z) (st : store) :
  toLowerCase (nth 0 (drop 1 (split_space (trim text))) EmptyString) <> "chat" ->
  snd (fst (ai env w ttl text from st)) = st
  /\ Forall is_provider (snd (ai env w ttl text from st)).
Proof.
  intros Hmode. unfold ai.
  destruct (drop 1 (split_space (trim text))) as [|p0 args]; [split; [reflexivity | constructor]|].
  cbn [nth] in Hmode. cbv zeta. destruct (_ && _); [split; [reflexivity | constructor]|].
  apply String.eqb_neq in Hmode.
  assert (forall m : IO reply, Forall is_provider (IO.trace m) ->
            snd (fst (match with_store st m with
                      | (Returns r, st', t) => (r, st', t)
                      | (Throws e, st', t) =>
                          (ReplyText (withPrefix ("Error: " +:+ (if nonempty e then e else "Error"))),
                           st', t)
                      end)) = st
            /\ Forall is_provider
                 (snd (match with_store st m with
                       | (Returns r, st', t) => (r, st', t)
                       | (Throws e, st', t) =>
                           (ReplyText (withPrefix ("Error: " +:+ (if nonempty e then e else "Error"))),
                            st', t)
                       end))) as Hm.
  { intros [[e|r] t] Ht; split; try reflexivity; exact Ht. }
  unfold dispatch. rewrite Hmode.
  repeat match goal with
         | |- context [if String.eqb ?a ?b then _ else _] => destruct (String.eqb a b)
         end.
  - split; [reflexivity | constructor].
  - apply Hm. destruct (wikiSummary_run w (trim (join_space (drop 1 (p0 :: args)))))
      as (v & -> & _).
    apply trace_bind; [repeat constructor | intros; apply trace_reply_text].
  - apply Hm. destruct (duckDuck_run w (trim (join_space (drop 1 (p0 :: args)))))
      as (v & -> & _).
    apply trace_bind; [repeat constructor | intros; apply trace_reply_text].
  - apply Hm. rewrite translate_run. cbn. repeat constructor.
  - apply Hm, tts_provider.
  - apply Hm, media_provider.
  - apply Hm, replicate_direct_provider.
  - split; [reflexivity | constructor].
Qed.

Lemma only_chat_touches_memory_wiki :
  snd (fst (ai redis_env offline 10800 "/ai wiki Addis Ababa" 7 redis_fresh)) = redis_fresh
  /\ Forall is_provider (snd (ai redis_env offline 10800 "/ai wiki Addis Ababa" 7 redis_fresh)).
Proof.
  apply (only_chat_touches_memory redis_env offline 10800 "/ai wiki Addis Ababa" 7 redis_fresh).
  vm_compute. discriminate.
Defined.

(* ===================================================================== *)
(** ** The banner *)
(* ===================================================================== *)

Lemma holds_ret {A : Type} (P : A -> Prop) (a : A) : P a -> holds P (IO.ret a).
Proof. intros H. exact H. Qed.

Lemma holds_throw {A : Type} (P : A -> Prop) (e : string) : holds P (IO.throw e).
Proof. exact I. Qed.

Lemma holds_bind {A B : Type} (Q : A -> Prop) (P : B -> Prop) (m : IO A) (k : A -> IO B) :
  holds Q m -> (forall a, Q a -> holds P (k a)) -> holds P (IO.bind m k).
Proof.
  intros Hm Hk. destruct m as [[e|a] t]; [exact I|].
  specialize (Hk a Hm). unfold holds, IO.bind in *. destruct (k a) as [r t']. exact Hk.
Qed.

Lemma holds_any {A : Type} (m : IO A) : holds (fun _ => True) m.
Proof. unfold holds. destruct (IO.result m); exact I. Qed.

Lemma holds_catch {A : Type} (P : A -> Prop) (m : IO A) (h : string -> IO A) :
  holds P m -> (forall e, holds P (h e)) -> holds P (IO.catch m h).
Proof.
  intros Hm Hh. destruct m as [[e|a] t]; [|exact Hm].
  specialize (Hh e). unfold holds, IO.catch in *. destruct (h e) as [r t']. exact Hh.
Qed.

Lemma prefix_withPrefix (s : string) : String.prefix banner (withPrefix s) = true.
Proof. destruct s; reflexivity. Qed.

Section Banner.
Variable env : gmap string string.
Variable w : world.
Variable ttl : Z.

Lemma text_bannered (s : string) : has_banner (ReplyText (withPrefix s)).
Proof. apply prefix_withPrefix. Qed.

Lemma reply_text_bannered (v : json) : holds has_banner (reply_text v).
Proof.
  destruct (reply_text_cases v) as [(text & _ & ->) | [_ ->]];
    [apply text_bannered | exact I].
Qed.

Lemma tts_bannered (rest : string) : holds has_banner (tts env w rest).
Proof.
  unfold tts. apply (holds_bind has_banner_opt).
  - unfold tts_elevenlabs. destruct (_ && _); [|exact I].
    apply holds_catch; [|intros; exact I].
    apply (holds_bind (fun _ => True)); [apply holds_any | intros; reflexivity].
  - intros [r|] Hr; [exact Hr|]. apply (holds_bind has_banner_opt).
    + unfold tts_replicate. destruct (_ && _); [|exact I].
      apply holds_catch; [|intros; exact I].
      apply (holds_bind (fun _ => True)); [apply holds_any|]. intros r _.
      apply (holds_bind (fun _ => True)); [apply holds_any|]. intros output _.
      destruct (Js.truthy _); [reflexivity | exact I].
    + intros [r'|] Hr'; [exact Hr' | apply text_bannered].
Qed.

Lemma media_bannered (parts : list string) : holds has_banner (media env w parts).
Proof.
  unfold media. destruct (_ || _); [apply text_bannered|].
  apply holds_catch; [|intros; apply text_bannered].
  destruct (_ && _).
  - unfold media_runway. destruct (runway_config env _) as [endpoint model].
    apply (holds_bind (fun _ => True)); [apply holds_any|]. intros res _.
    apply (holds_bind (fun _ => True)); [apply holds_any|]. intros output _.
    destruct (negb _); [apply text_bannered|].
    destruct (_ || _); apply prefix_withPrefix.
  - destruct (_ && _); [|apply text_bannered].
    unfold media_replicate. destruct (negb _); [apply text_bannered|].
    apply (holds_bind (fun _ => True)); [apply holds_any|]. intros r _.
    apply (holds_bind (fun _ => True)); [apply holds_any|]. intros output _.
    destruct (negb _); [apply text_bannered|].
    destruct (_ || _); [apply prefix_withPrefix|].
    destruct (String.eqb _ "recon3d"); [reflexivity|].
    destruct (String.eqb _ "caption"); [apply reply_text_bannered | apply prefix_withPrefix].
Qed.

Lemma replicate_direct_bannered (parts : list string) :
  holds has_banner (replicate_direct env w parts).
Proof.
  unfold replicate_direct. destruct (_ || _); [apply text_bannered|].
  destruct (negb _); [apply text_bannered|].
  apply holds_catch; [|intros; apply text_bannered].
  apply (holds_bind (fun _ => True)); [apply holds_any|]. intros r _.
  apply (holds_bind (fun _ => True)); [apply holds_any|]. intros output _.
  apply reply_text_bannered.
Qed.

Lemma chat_bannered (parts : list string) (rest : string) (from : Z) (st : store) :
  match fst (fst (chat env w ttl parts rest from st)) with
  | Returns r => has_banner r
  | Throws _ => True
  end.
Proof.
  unfold chat. destruct (chat_args env parts rest) as [modelKey prompt].
  destruct (negb (nonempty prompt)); [apply text_bannered|].
  destruct (getMemory w from st) as [[mem st1] t1].
  match goal with
  | |- context [IO.bind (push ?a ?b) ?k] => destruct (IO.bind (push a b) k) as [[e|[mem2 answer]] t2]
  end; [exact I|].
  destruct (saveMemory w ttl from mem2 st1) as [st2 t3]. cbn [fst].
  apply reply_text_bannered.
Qed.

Lemma dispatch_bannered (mode : string) (parts : list string) (rest : string)
    (from : Z) (st : store) :
  match fst (fst (dispatch env w ttl mode parts rest from st)) with
  | Returns r => has_banner r
  | Throws _ => True
  end.
Proof.
  unfold dispatch, with_store.
  repeat match goal with
         | |- context [if String.eqb ?a ?b then _ else _] => destruct (String.eqb a b)
         end; cbn [fst].
  - apply text_bannered.
  - apply chat_bannered.
  - apply (holds_bind (fun _ => True)); [apply holds_any | intros; apply reply_text_bannered].
  - apply (holds_bind (fun _ => True)); [apply holds_any | intros; apply reply_text_bannered].
  - rewrite translate_run. apply text_bannered.
  - apply tts_bannered.
  - apply media_bannered.
  - apply replicate_direct_bannered.
  - apply text_bannered.
Qed.

End Banner.

(** X9. "Every bot reply is prefixed": whatever the message, the
    configuration, the state and the answers of the providers, the text
    of the reply, or the caption of the photo or video it sends, starts
    with the banner.  Only a voice message and a document go out without
    it: they carry no text. *)
Theorem every_text_has_banner (env : gmap string string) (w : world) (ttl : Z)
    (text : string) (from : Z) (st : store) :
  bannered (fst (fst (ai env w ttl text from st))) = true.
Proof.
  unfold ai.
  destruct (drop 1 (split_space (trim text))) as [|p0 args]; [reflexivity|].
  cbv zeta. destruct (_ && _); [reflexivity|].
  pose proof (dispatch_bannered env w ttl (toLowerCase p0) (p0 :: args)
                (trim (join_space (drop 1 (p0 :: args)))) from st) as H.
  destruct (dispatch _ _ _ _ _ _ _ _) as [[[e|r] st'] t]; cbn [fst] in *.
  - apply prefix_withPrefix.
  - exact H.
Qed.

(* ===================================================================== *)
(** ** The command word and the mode word *)
(* ===================================================================== *)

(** X10. The command word is not looked at and the mode word is read without
    regard to case: two messages that agree from the second word on, up
    to the case of the mode word, get the same reply, leave the same
    state and make the same requests. *)
Theorem mode_word_ignores_case (env : gmap string string) (w : world) (ttl : Z)
    (text text' : string) (from : Z) (st : store)
    (cmd cmd' mode mode' : string) (args : list string) :
  split_space (trim text) = cmd :: mode :: args ->
  split_space (trim text') = cmd' :: mode' :: args ->
  toLowerCase mode = toLowerCase mode' ->
  ai env w ttl text from st = ai env w ttl text' from st.
Proof.
  intros H H' Hm.
  rewrite (ai_tokens env w ttl text from st mode args) by (rewrite H; reflexivity).
  rewrite (ai_tokens env w ttl text' from st mode' args) by (rewrite H'; reflexivity).
  rewrite Hm. reflexivity.
Qed.

Lemma mode_word_ignores_case_wiki :
  ai ∅ offline 10800 "/ai WIKI Lalibela" 7 fresh
  = ai ∅ offline 10800 "/ai@BelaynishBot wiki Lalibela" 7 fresh.
Proof.
  apply (mode_word_ignores_case ∅ offline 10800 "/ai WIKI Lalibela"
           "/ai@BelaynishBot wiki Lalibela" 7 fresh "/ai" "/ai@BelaynishBot" "WIKI" "wiki"
           ["Lalibela"]); reflexivity.
Defined.

(* ===================================================================== *)
(** ** Memory is kept per user *)
(* ===================================================================== *)

Lemma of_Z_inj (a b : Z) : of_Z a = of_Z b -> a = b.
Proof.
  intros H.
  pose proof (parse_number_of_Z a EmptyString eq_refl) as Ha.
  pose proof (parse_number_of_Z b EmptyString eq_refl) as Hb.
  rewrite append_nil_r in Ha, Hb. rewrite H in Ha. congruence.
Qed.

Lemma append_inv_head (s x y : string) : s +:+ x = s +:+ y -> x = y.
Proof.
  induction s as [|c s IH]; [intros H; exact H|].
  rewrite !append_cons. intros H. apply IH. congruence.
Qed.

Lemma memory_key_inj (a b : Z) : memory_key a = memory_key b -> a = b.
Proof. unfold memory_key. intros H. apply of_Z_inj. exact (append_inv_head _ _ _ H). Qed.

Lemma cache_read_other (ttl : Z) (key key' : string) (h : json) (st : store) :
  key <> key' ->
  fst (cache_read key' (cache_set ttl key h st)) = fst (cache_read key' st).
Proof.
  intros Hk. unfold cache_read, cache_get, cache_set.
  cbn [memCache Store.with_memCache clock].
  rewrite lookup_insert_ne by exact Hk.
  destruct (memCache st !! key') as [[v t]|]; [|reflexivity].
  destruct (_ && _); reflexivity.
Qed.

Lemma cache_read_fst_ext (key : string) (st st' : store) :
  memCache st = memCache st' -> clock st = clock st' ->
  fst (cache_read key st) = fst (cache_read key st').
Proof.
  intros Hm Hc. unfold cache_read, cache_get. rewrite Hm, Hc.
  destruct (memCache st' !! key) as [[v t]|]; [|reflexivity].
  destruct (_ && _); reflexivity.
Qed.

(** X11. Memory is kept per user: saving the history of one user does not
    change what [getMemory] returns for another, in the cache as in
    Redis (a Redis that serves the requests, with a positive
    time-to-live). *)
Theorem memory_is_per_user (w : world) (ttl : Z) (a b : Z) (h : json) (st : store) :
  a <> b ->
  (usingRedis st && redis st = true -> 0 < ttl /\ forall n, redis_ok w n = true) ->
  fst (fst (getMemory w b (fst (saveMemory w ttl a h st))))
  = fst (fst (getMemory w b st)).
Proof.
  intros Hab Hup.
  assert (memory_key a <> memory_key b) as Hk
    by (intros H; apply Hab, memory_key_inj, H).
  unfold saveMemory. destruct (usingRedis st && redis st) eqn:Huse.
  - destruct (Hup eq_refl) as [Httl Hok].
    unfold redis_set. rewrite Hok.
    replace (0 <? ttl) with true by (symmetry; apply Z.ltb_lt; exact Httl).
    cbn [andb fst]. unfold getMemory.
    cbn [usingRedis redis Store.with_redisDb Store.sent]. rewrite Huse.
    unfold redis_get. cbn [requests redisDb clock Store.with_redisDb Store.sent].
    rewrite !Hok, lookup_insert_ne by exact Hk.
    destruct (redisDb st !! memory_key b) as [[v t]|]; [|reflexivity].
    destruct (clock st <=? t); [|reflexivity].
    destruct (Env.truthy_str (Some v)); [|reflexivity].
    destruct (JsonParse.parse _); [reflexivity|].
    match goal with
    | |- context [cache_read ?k ?s1] =>
        match goal with
        | |- _ = (let '(_, _) := cache_read k ?s2 in _).1.1 =>
            pose proof (cache_read_fst_ext k s1 s2 eq_refl eq_refl) as Hc;
            destruct (cache_read k s1), (cache_read k s2)
        end
    end.
    exact Hc.
  - cbn [fst].
    rewrite (getMemory_local w b (cache_set ttl (memory_key a) h st) Huse).
    rewrite (getMemory_local w b st Huse). cbn [fst].
    apply cache_read_other. exact Hk.
Qed.

Lemma memory_is_per_user_redis :
  7 <> 8
  /\ fst (fst (getMemory redis_up 8
                 (fst (saveMemory redis_up 10800 7 (JArr [turn "user" (JStr "hi")]) redis_fresh))))
     = fst (fst (getMemory redis_up 8 redis_fresh)).
Proof.
  split; [lia|].
  apply (memory_is_per_user redis_up 10800 7 8 (JArr [turn "user" (JStr "hi")]) redis_fresh).
  - lia.
  - intros _. split; [lia | intros n; reflexivity].
Defined.

(* ===================================================================== *)
(** ** The time-to-live: zero, and the time before expiry *)
(* ===================================================================== *)

Lemma saveMemory_zero_ttl (w : world) (chatId : Z) (h : json) (st : store) :
  usingRedis (fst (saveMemory w 0 chatId h st)) && redis (fst (saveMemory w 0 chatId h st))
  = false
  /\ memCache (fst (saveMemory w 0 chatId h st)) !! memory_key chatId = Some (h, 0).
Proof.
  unfold saveMemory. destruct (usingRedis st && redis st) eqn:Huse.
  - unfold redis_set. rewrite andb_false_r. cbn [fst]. split; [reflexivity|].
    apply lookup_insert_eq.
  - cbn [fst]. split; [exact Huse | apply lookup_insert_eq].
Qed.

(** X12. With a time-to-live of zero ([MEMORY_TTL_SECONDS=0]) a saved history
    never expires and Redis is given up: Redis refuses the expiry, so
    the history goes to the cache, without an expiry, and every later
    read, however much later and whatever Redis would answer, returns it
    without a request to Redis. *)
Theorem zero_ttl_never_expires (w w' : world) (chatId : Z) (items : list json)
    (st : store) (ms : Z) :
  fst (fst (getMemory w' chatId
              (Store.advance ms (fst (saveMemory w 0 chatId (JArr items) st)))))
  = JArr items
  /\ snd (getMemory w' chatId
            (Store.advance ms (fst (saveMemory w 0 chatId (JArr items) st)))) = [].
Proof.
  destruct (saveMemory_zero_ttl w chatId (JArr items) st) as [Huse Hm].
  set (st1 := fst (saveMemory w 0 chatId (JArr items) st)) in *.
  rewrite (getMemory_local w' chatId (Store.advance ms st1) Huse). cbn [fst snd].
  split; [|reflexivity].
  unfold cache_read, cache_get. cbn [memCache Store.advance]. rewrite Hm. reflexivity.
Qed.

Section KeptUntilExpiry.
Variable w w' : world.
Variable ttl : Z.

Lemma cache_set_then_kept (key : string) (items : list json) (st : store) (ms : Z) :
  ms <= ttl * 1000 ->
  fst (cache_read key (Store.advance ms (cache_set ttl key (JArr items) st))) = JArr items.
Proof.
  intros Hms. unfold cache_read, cache_get, cache_set.
  cbn [memCache Store.with_memCache Store.advance clock].
  rewrite lookup_insert_eq.
  destruct (ttl =? 0) eqn:E; [reflexivity|].
  replace (clock st + ttl * 1000 <? clock st + ms) with false
    by (symmetry; apply Z.ltb_ge; lia).
  rewrite andb_false_r. reflexivity.
Qed.

Lemma put_wait_get (chatId : Z) (items : list json) (st : store) (ms : Z) :
  ms <= ttl * 1000 ->
  (usingRedis (fst (saveMemory w ttl chatId (JArr items) st))
   && redis (fst (saveMemory w ttl chatId (JArr items) st)) = true ->
   redis_ok w' (requests (fst (saveMemory w ttl chatId (JArr items) st))) = true) ->
  fst (fst (getMemory w' chatId
              (Store.advance ms (fst (saveMemory w ttl chatId (JArr items) st)))))
  = JArr items.
Proof.
  intros Hms. unfold saveMemory. destruct (usingRedis st && redis st) eqn:Huse.
  - unfold redis_set. destruct (redis_ok w (requests st) && (0 <? ttl)) eqn:Hok.
    + cbn [fst]. intros Hserved.
      unfold getMemory.
      cbn [usingRedis redis Store.with_redisDb Store.sent Store.advance] in *.
      rewrite Huse in *. specialize (Hserved eq_refl).
      unfold redis_get. cbn [requests redisDb clock Store.with_redisDb Store.sent Store.advance] in *.
      rewrite Hserved, lookup_insert_eq.
      replace (clock st + ms <=? clock st + ttl * 1000) with true
        by (symmetry; apply Z.leb_le; lia).
      cbn [Env.truthy_str default]. rewrite stringify_nonempty.
      unfold id. rewrite parse_stringify. reflexivity.
    + cbn [fst]. intros _.
      rewrite getMemory_demoted by reflexivity. cbn [fst].
      apply cache_set_then_kept. exact Hms.
  - cbn [fst]. intros _.
    rewrite (getMemory_local w' chatId
               (Store.advance ms (cache_set ttl (memory_key chatId) (JArr items) st)) Huse).
    cbn [fst]. apply cache_set_then_kept. exact Hms.
Qed.

End KeptUntilExpiry.

(** X13. A saved history is kept for the whole time-to-live: a read that
    comes less than [ttl] seconds after the save returns the history,
    when the backend that took the save also serves the read. *)
Theorem history_kept_until_expiry (w w' : world) (ttl : Z) (chatId : Z)
    (items : list json) (st : store) (ms : Z) :
  0 <= ms < ttl * 1000 ->
  (usingRedis (fst (saveMemory w ttl chatId (JArr items) st))
   && redis (fst (saveMemory w ttl chatId (JArr items) st)) = true ->
   redis_ok w' (requests (fst (saveMemory w ttl chatId (JArr items) st))) = true) ->
  fst (fst (getMemory w' chatId
              (Store.advance ms (fst (saveMemory w ttl chatId (JArr items) st)))))
  = JArr items.
Proof.
  intros [_ Hms] Hserved. apply put_wait_get; [lia | exact Hserved].
Qed.

Lemma history_kept_until_expiry_last_second :
  fst (fst (getMemory redis_up 7
              (Store.advance 10799999
                 (fst (saveMemory redis_up 10800 7 (JArr [turn "user" (JStr "hi")])
                         redis_fresh)))))
  = JArr [turn "user" (JStr "hi")].
Proof.
  apply (history_kept_until_expiry redis_up redis_up 10800 7 [turn "user" (JStr "hi")]
           redis_fresh 10799999); [lia | intros _; reflexivity].
Defined.

(* ===================================================================== *)
(** ** The memory across chat requests *)
(* ===================================================================== *)

Lemma result_bind {A B : Type} (m : IO A) (k : A -> IO B) :
  IO.result (IO.bind m k)
  = match IO.result m with
    | Throws e => Throws e
    | Returns a => IO.result (k a)
    end.
Proof. destruct m as [[e|a] t]; [reflexivity|]. cbn. destruct (k a); reflexivity. Qed.

Lemma render_turns_length (items : list json) (lines : list string) :
  IO.result (render_turns items) = Returns lines -> length lines = length items.
Proof.
  revert lines. induction items as [|m items IH]; intros lines.
  - intros [= <-]. reflexivity.
  - cbn [render_turns]. rewrite result_bind.
    destruct (IO.result (render_turn m)) as [e|line]; [discriminate|].
    rewrite result_bind.
    destruct (IO.result (render_turns items)) as [e|rest]; [discriminate|].
    intros [= <-]. cbn. rewrite (IH rest eq_refl). reflexivity.
Qed.

Lemma render_turns_snoc (items : list json) (m : json) (lines : list string) :
  IO.result (render_turns items) = Returns lines ->
  IO.result (render_turns (items ++ [m]))
  = match IO.result (render_turn m) with
    | Throws e => Throws e
    | Returns line => Returns (lines ++ [line])%list
    end.
Proof.
  revert lines. induction items as [|x items IH]; intros lines.
  - intros [= <-]. cbn [app render_turns]. rewrite result_bind.
    destruct (IO.result (render_turn m)); reflexivity.
  - cbn [app render_turns]. rewrite !result_bind.
    destruct (IO.result (render_turn x)) as [e|line]; [discriminate|].
    rewrite !result_bind.
    destruct (IO.result (render_turns items)) as [e|rest]; [discriminate|].
    intros [= <-]. rewrite (IH rest eq_refl).
    destruct (IO.result (render_turn m)); reflexivity.
Qed.

Lemma join_snoc (sep : string) (lines : list string) (line : string) :
  lines <> [] -> join sep (lines ++ [line]) = join sep lines +:+ sep +:+ line.
Proof.
  intros Hne. unfold join. induction lines as [|x lines IH]; [congruence|].
  destruct lines as [|y lines].
  - cbn. reflexivity.
  - cbn [app String.concat] in *. rewrite IH by discriminate.
    rewrite !append_assoc. reflexivity.
Qed.

(** The transcript of a history with one more turn is the transcript
    of the history, a line feed, and the line of the turn. *)
Lemma contextStr_snoc (items : list json) (m : json) (c : string) :
  items <> [] ->
  IO.result (contextStr (JArr items)) = Returns c ->
  IO.result (contextStr (JArr (items ++ [m])))
  = match IO.result (render_turn m) with
    | Throws e => Throws e
    | Returns line => Returns (c +:+ newline +:+ line)
    end.
Proof.
  intros Hne. cbn [contextStr]. rewrite !result_bind.
  destruct (IO.result (render_turns items)) as [e|lines] eqn:E; [discriminate|].
  intros [= <-]. rewrite (render_turns_snoc items m lines E).
  destruct (IO.result (render_turn m)) as [e|line]; [reflexivity|].
  cbn. rewrite join_snoc; [reflexivity|].
  intros ->. apply render_turns_length in E. destruct items; [congruence | discriminate E].
Qed.

Lemma render_turn_result (role : string) (content : json) :
  IO.result (render_turn (turn role content))
  = match Js.toString content with
    | Some text => Returns (role +:+ ": " +:+ text)
    | None => Throws type_error_primitive
    end.
Proof.
  unfold render_turn, turn. cbn [read Js.get Js.assoc String.eqb Ascii.eqb Bool.eqb].
  rewrite !bind_ret_l. cbn [coerce Js.toString_opt Js.toString]. rewrite !bind_ret_l.
  cbn [Js.assoc String.eqb Ascii.eqb Bool.eqb]. unfold coerce. cbn [Js.toString_opt].
  destruct (Js.toString content); reflexivity.
Qed.

(** X14. The memory carries a conversation from one chat request to the
    next: when the second request of a user comes before the
    time-to-live has run out (and the backend that took the save serves
    the read), the history it reads is the one the first request saved;
    the transcript of the second request is the transcript of the first,
    followed by the line of the first answer and the line of the new
    prompt, and the reply of the second request is made from the answer
    to that transcript.  When the first answer has no text there is no
    such transcript: the second request throws the [TypeError] of the
    coercion. *)
Theorem chat_remembers (env : gmap string string) (w1 w2 : world) (ttl : Z)
    (parts1 parts2 : list string) (rest1 rest2 : string) (from : Z) (st st1 : store)
    (t1 ta1 : list event) (k1 p1 k2 p2 : string) (items : list json) (ms : Z)
    (c1 : string) (a1 : json) :
  chat_args env parts1 rest1 = (k1, p1) -> nonempty p1 = true ->
  chat_args env parts2 rest2 = (k2, p2) -> nonempty p2 = true ->
  getMemory w1 from st = (JArr items, st1, t1) ->
  IO.result (contextStr (JArr (items ++ [turn "user" (JStr p1)]))) = Returns c1 ->
  chat_answer env w1 k1 p1 c1 = (Returns a1, ta1) ->
  0 <= ms < ttl * 1000 ->
  (usingRedis (snd (fst (chat env w1 ttl parts1 rest1 from st)))
   && redis (snd (fst (chat env w1 ttl parts1 rest1 from st))) = true ->
   redis_ok w2 (requests (snd (fst (chat env w1 ttl parts1 rest1 from st)))) = true) ->
  fst (fst (getMemory w2 from
              (Store.advance ms (snd (fst (chat env w1 ttl parts1 rest1 from st))))))
  = JArr (items ++ [turn "user" (JStr p1); turn "assistant" a1])
  /\ IO.result (contextStr (JArr (items ++ [turn "user" (JStr p1); turn "assistant" a1;
                                            turn "user" (JStr p2)])))
     = match Js.toString a1 with
       | Some text1 =>
           Returns (c1 +:+ newline +:+ "assistant: " +:+ text1
                       +:+ newline +:+ "user: " +:+ p2)
       | None => Throws type_error_primitive
       end
  /\ fst (fst (chat env w2 ttl parts2 rest2 from
                 (Store.advance ms (snd (fst (chat env w1 ttl parts1 rest1 from st))))))
     = match Js.toString a1 with
       | Some text1 =>
           match chat_answer env w2 k2 p2
                   (c1 +:+ newline +:+ "assistant: " +:+ text1
                       +:+ newline +:+ "user: " +:+ p2) with
           | (Returns a2, _) => IO.result (reply_text a2)
           | (Throws e, _) => Throws e
           end
       | None => Throws type_error_primitive
       end.
Proof.
  intros Ha1 Hp1 Ha2 Hp2 Hget Hc1 Hans1 [Hms0 Hms] Hserved.
  rewrite (chat_run env w1 ttl parts1 rest1 from st k1 p1 items st1 t1 c1 a1 ta1
             Ha1 Hp1 Hget Hc1 Hans1) in *. cbn [fst snd] in *.
  set (h1 := (items ++ [turn "user" (JStr p1); turn "assistant" a1])%list) in *.
  pose proof (put_wait_get w1 w2 ttl from h1 st1 ms ltac:(lia) Hserved) as Hread.
  split; [exact Hread|].
  assert (IO.result (contextStr (JArr (h1 ++ [turn "user" (JStr p2)])))
          = match Js.toString a1 with
            | Some text1 =>
                Returns (c1 +:+ newline +:+ "assistant: " +:+ text1
                            +:+ newline +:+ "user: " +:+ p2)
            | None => Throws type_error_primitive
            end) as Hc2.
  { assert (IO.result (contextStr (JArr h1))
            = match Js.toString a1 with
              | Some text1 => Returns (c1 +:+ newline +:+ "assistant: " +:+ text1)
              | None => Throws type_error_primitive
              end) as Hh1.
    { subst h1.
      change (items ++ [turn "user" (JStr p1); turn "assistant" a1])%list
        with (items ++ [turn "user" (JStr p1)] ++ [turn "assistant" a1])%list.
      rewrite app_assoc.
      rewrite (contextStr_snoc _ (turn "assistant" a1) c1); [|destruct items; discriminate|exact Hc1].
      rewrite render_turn_result. destruct (Js.toString a1); reflexivity. }
    destruct (Js.toString a1) as [text1|] eqn:Ht1.
    - rewrite (contextStr_snoc h1 (turn "user" (JStr p2)) _ ltac:(subst h1; destruct items; discriminate) Hh1).
      rewrite render_turn_result. cbn [Js.toString]. rewrite !append_assoc. reflexivity.
    - cbn [contextStr] in Hh1 |- *. rewrite result_bind in Hh1 |- *.
      destruct (IO.result (render_turns h1)) as [e|lines] eqn:E; [|discriminate Hh1].
      injection Hh1 as ->.
      assert (forall xs ys e, IO.result (render_turns xs) = Throws e ->
                IO.result (render_turns (xs ++ ys)) = Throws e) as Hpre.
      { induction xs as [|x xs IH]; intros ys e0; [discriminate|].
        cbn [app render_turns]. rewrite !result_bind.
        destruct (IO.result (render_turn x)); [trivial|]. rewrite !result_bind.
        destruct (IO.result (render_turns xs)) as [e1|l1] eqn:E1; [|discriminate].
        intros [= <-]. rewrite (IH ys e1 eq_refl). reflexivity. }
      rewrite (Hpre h1 _ _ E). reflexivity. }
  split.
  { replace (items ++ [turn "user" (JStr p1); turn "assistant" a1; turn "user" (JStr p2)])%list
      with (h1 ++ [turn "user" (JStr p2)])%list
      by (subst h1; rewrite <- app_assoc; reflexivity).
    exact Hc2. }
  destruct (getMemory w2 from (Store.advance ms (fst (saveMemory w1 ttl from (JArr h1) st1))))
    as [[mem s2] t2] eqn:Hget2.
  cbn [fst] in Hread. subst mem.
  destruct (Js.toString a1) as [text1|].
  - destruct (chat_answer env w2 k2 p2 _) as [[e|a2] ta2] eqn:Hans2.
    + rewrite (chat_run_throws env w2 ttl parts2 rest2 from _ k2 p2 h1 s2 t2 _ e ta2
                 Ha2 Hp2 Hget2 Hc2 Hans2). reflexivity.
    + rewrite (chat_run env w2 ttl parts2 rest2 from _ k2 p2 h1 s2 t2 _ a2 ta2
                 Ha2 Hp2 Hget2 Hc2 Hans2). reflexivity.
  - rewrite (chat_context_throws env w2 ttl parts2 rest2 from _ k2 p2 h1 s2 t2 _
               Ha2 Hp2 Hget2 Hc2). reflexivity.
Qed.

Lemma chat_remembers_second_question :
  fst (fst (getMemory space_says_four 7
              (Store.advance 1000
                 (snd (fst (chat space_env space_says_four 10800
                              ["chat"; "What"; "is"; "2+2?"] "What is 2+2?" 7 fresh))))))
  = JArr [turn "user" (JStr "What is 2+2?"); turn "assistant" (JStr "4")]
  /\ IO.result (contextStr (JArr [turn "user" (JStr "What is 2+2?");
                                  turn "assistant" (JStr "4");
                                  turn "user" (JStr "twice that?")]))
     = Returns ("user: What is 2+2?" +:+ newline +:+ "assistant: 4"
                  +:+ newline +:+ "user: twice that?")
  /\ fst (fst (chat space_env space_says_four 10800 ["chat"; "twice"; "that?"] "twice that?" 7
                 (Store.advance 1000
                    (snd (fst (chat space_env space_says_four 10800
                                 ["chat"; "What"; "is"; "2+2?"] "What is 2+2?" 7 fresh))))))
     = Returns (ReplyText (withPrefix "4")).
Proof.
  apply (chat_remembers space_env space_says_four space_says_four 10800
           ["chat"; "What"; "is"; "2+2?"] ["chat"; "twice"; "that?"]
           "What is 2+2?" "twice that?" 7 fresh fresh []
           [HfSpacePost "https://belaynish.hf.space/run/predict" "user: What is 2+2?"]
           "llama2" "What is 2+2?" "llama2" "twice that?" [] 1000
           "user: What is 2+2?" (JStr "4"));
    try reflexivity; [lia | intros H; vm_compute in H; discriminate H].
Defined.

(* ===================================================================== *)
(** ** The adapters: Hugging Face Space and inference API *)
(* ===================================================================== *)

Lemma space_output_text (w : world) (prompt url : string) (d : json) :
  hf_space w url prompt = Returns d -> space_output w prompt url = space_text d.
Proof.
  intros H. unfold space_output, space_text, hfSpace_output. rewrite H.
  destruct (_ && _).
  - unfold coerce. destruct (Js.toString_opt _); reflexivity.
  - destruct (Js.truthy_opt _); [|reflexivity].
    unfold coerce. destruct (Js.toString_opt _); reflexivity.
Qed.

(** X15. [callHfSpace] posts the prompt to the three URLs of the Space in
    their order and stops at the first one that yields output: it
    returns that text, having made the requests up to that URL and no
    other.  A URL yields the text of [data[0]] when [data] is there and
    not empty, else the text of [generated_text] when it is there; a
    URL whose request fails, whose response has neither, or whose output
    has no text, is passed over.  When none of the three yields output
    it throws, after the three requests.  Without a URL (the argument
    left out and [HF_SPACE_URL] not set, or an empty URL) it throws at
    once, with no request; an argument that is left out is taken from
    [HF_SPACE_URL]. *)
Theorem callHfSpace_first_output (env : gmap string string) (w : world) (prompt : string) :
  (forall spaceUrl tried url rest s,
     nonempty spaceUrl = true ->
     tryUrls spaceUrl = (tried ++ url :: rest)%list ->
     Forall (fun u => space_output w prompt u = None) tried ->
     space_output w prompt url = Some s ->
     callHfSpace env w prompt (Some spaceUrl)
     = (Returns s, map (fun u => HfSpacePost u prompt) (tried ++ [url])))
  /\ (forall spaceUrl,
        nonempty spaceUrl = true ->
        Forall (fun u => space_output w prompt u = None) (tryUrls spaceUrl) ->
        callHfSpace env w prompt (Some spaceUrl)
        = (Throws "HF Space did not return valid output",
           map (fun u => HfSpacePost u prompt) (tryUrls spaceUrl)))
  /\ (forall url d, hf_space w url prompt = Returns d ->
        space_output w prompt url = space_text d)
  /\ (forall url e, hf_space w url prompt = Throws e -> space_output w prompt url = None)
  /\ callHfSpace env w prompt None = callHfSpace env w prompt (env !! "HF_SPACE_URL")
  /\ (env !! "HF_SPACE_URL" = None ->
      callHfSpace env w prompt None = (Throws "HF_SPACE_URL not configured", []))
  /\ callHfSpace env w prompt (Some EmptyString) = (Throws "HF_SPACE_URL not configured", []).
Proof.
  split; [|split; [|split; [|split; [|split; [|split]]]]].
  - intros spaceUrl tried url rest s Hne Hurls Htried Hurl.
    unfold callHfSpace. rewrite Hne. cbv zeta.
    change [stripSlash spaceUrl +:+ "/run/predict"; stripSlash spaceUrl +:+ "/api/predict";
            stripSlash spaceUrl] with (tryUrls spaceUrl).
    rewrite Hurls. apply hfSpace_loop_first; assumption.
  - intros spaceUrl Hne Hnone. unfold callHfSpace. rewrite Hne. cbv zeta.
    apply (hfSpace_loop_none w prompt (tryUrls spaceUrl) Hnone).
  - intros url d H. exact (space_output_text w prompt url d H).
  - intros url e H. unfold space_output. rewrite H. reflexivity.
  - unfold callHfSpace. destruct (env !! "HF_SPACE_URL"); reflexivity.
  - intros H. unfold callHfSpace. rewrite H. reflexivity.
  - reflexivity.
Qed.

Lemma callHfSpace_first_output_second_url :
  callHfSpace space_env space_second_url "user: 2+2?" (Some "https://belaynish.hf.space/")
  = (Returns "4",
     [ HfSpacePost "https://belaynish.hf.space/run/predict" "user: 2+2?";
       HfSpacePost "https://belaynish.hf.space/api/predict" "user: 2+2?" ]).
Proof.
  apply (proj1 (callHfSpace_first_output space_env space_second_url "user: 2+2?")
           "https://belaynish.hf.space/" ["https://belaynish.hf.space/run/predict"]
           "https://belaynish.hf.space/api/predict" ["https://belaynish.hf.space"] "4");
    try reflexivity.
  repeat constructor.
Defined.

(** The text of an output that is a number: all the digits of an integer
    below [2^53], the digits of the nearest double and zeros up to 21
    digits, an exponent beyond; and an output that is an object with a
    member [toString] has no text. *)
Example space_text_of_outputs :
  space_text (JObj [("data", JArr [JNum 42])]) = Some "42"
  /\ space_text (JObj [("data", JArr [JNum 9007199254740993])]) = Some "9007199254740992"
  /\ space_text (JObj [("data", JArr [JNum (10 ^ 21)])]) = Some "1e+21"
  /\ space_text (JObj [("generated_text", JNum (2 ^ 70))]) = Some "1.1805916207174113e+21"
  /\ space_text (JObj [("data", JArr [JArr [JNum 1; JNull; JStr "a"]])]) = Some "1,,a"
  /\ space_text (JObj [("data", JArr [JObj [("toString", JNum 1)]])]) = None
  /\ space_text (JObj [("data", JArr [JObj []])]) = Some "[object Object]".
Proof. vm_compute. repeat split; reflexivity. Qed.

Lemma default_truthy (v : option json) :
  Js.truthy_opt v = true -> Js.truthy (default JNull v) = true.
Proof. destruct v; [intros H; exact H | discriminate]. Qed.

Lemma hfApi_output_truthy (d : json) :
  d <> JStr EmptyString -> Js.truthy (hfApi_output d) = true.
Proof.
  intros Hd. unfold hfApi_output.
  assert (Js.truthy (JStr (slice0 4000 (Json.stringify d))) = true) as Hs
    by (apply (slice0_nonempty 3999), stringify_nonempty).
  destruct d; try (destruct s; [congruence | reflexivity]);
    repeat match goal with
           | |- context [if ?a && Js.truthy_opt ?x then _ else _] =>
               destruct a; cbn [andb];
               [destruct (Js.truthy_opt x) eqn:?; [apply default_truthy; assumption|] |]
           | |- context [if Js.truthy_opt ?x then _ else _] =>
               destruct (Js.truthy_opt x) eqn:?; [apply default_truthy; assumption|]
           end; exact Hs.
Qed.

(** X16. Whatever body the inference API is served with, other than the
    empty string, [callHfApi] returns a truthy value: one of the
    recognized fields when it is there and truthy, the serialization of
    the body otherwise.  So a served request always counts as an answer
    in the chat fallback.  Two things only make [callHfApi] throw: a
    missing configuration (then no request is made) and a request that
    fails (the error of the client is passed on). *)
Theorem callHfApi_served_is_answer (env : gmap string string) (w : world)
    (prompt : string) (modelUrl : envval) :
  (Env.truthy modelUrl && Env.truthy_str (env !! "HUGGINGFACE_API_KEY") = false ->
   callHfApi env w prompt modelUrl = (Throws "HF API not configured", []))
  /\ (forall e,
        Env.truthy modelUrl && Env.truthy_str (env !! "HUGGINGFACE_API_KEY") = true ->
        hf_api w modelUrl prompt = Throws e ->
        callHfApi env w prompt modelUrl = (Throws e, [HfApiPost modelUrl prompt]))
  /\ (forall d,
        Env.truthy modelUrl && Env.truthy_str (env !! "HUGGINGFACE_API_KEY") = true ->
        hf_api w modelUrl prompt = Returns d ->
        callHfApi env w prompt modelUrl
        = (Returns (hfApi_output d), [HfApiPost modelUrl prompt])
        /\ (d <> JStr EmptyString ->
            success (callHfApi env w prompt modelUrl) = Some (hfApi_output d))).
Proof.
  unfold callHfApi, IO.request. repeat split.
  - intros H. apply andb_false_iff in H as [-> | ->]; [reflexivity|].
    rewrite orb_true_r. reflexivity.
  - intros e H He. apply andb_prop in H as [-> ->]. rewrite He. reflexivity.
  - apply andb_prop in H as [-> ->]. rewrite H0. reflexivity.
  - intros Hd. apply andb_prop in H as [-> ->]. rewrite H0. cbn.
    rewrite (hfApi_output_truthy d Hd). reflexivity.
Qed.

Lemma callHfApi_served_is_answer_empty_object :
  callHfApi hf_env hf_empty_object "user: hi"
    (VString "https://api-inference.huggingface.co/models/gpt2")
  = (Returns (JStr "{}"),
     [HfApiPost (VString "https://api-inference.huggingface.co/models/gpt2") "user: hi"])
  /\ success (callHfApi hf_env hf_empty_object "user: hi"
                (VString "https://api-inference.huggingface.co/models/gpt2"))
     = Some (JStr "{}").
Proof.
  destruct (proj2 (proj2 (callHfApi_served_is_answer hf_env hf_empty_object "user: hi"
                            (VString "https://api-inference.huggingface.co/models/gpt2")))
              (JObj []) eq_refl eq_refl) as [Hrun Hsuccess].
  split; [exact Hrun | apply Hsuccess; discriminate].
Defined.

(* ===================================================================== *)
(** ** Speech synthesis *)
(* ===================================================================== *)

Section Speech.
Variable env : gmap string string.
Variable w : world.

Lemma tts_elevenlabs_none (rest : string) :
  Forall (request_failed w) (IO.trace (tts_elevenlabs env w rest)) ->
  tts_elevenlabs env w rest = (Returns None, IO.trace (tts_elevenlabs env w rest)).
Proof.
  intros H. pose proof (tts_elevenlabs_failed env w rest H) as Hr.
  rewrite (io_eta (tts_elevenlabs env w rest)) at 1. rewrite Hr. reflexivity.
Qed.

End Speech.

(** X17. Speech synthesis prefers ElevenLabs: when it is configured and
    serves the request, the reply is the audio it returned and Replicate
    is not asked.  When ElevenLabs is not configured, or its request
    fails, the Replicate model is asked next, and the first element of
    its output, when there is one, is sent as the voice message. *)
Theorem tts_prefers_elevenlabs (env : gmap string string) (w : world) (rest : string) :
  (forall api voice audio,
     Env.truthy_str (env !! "ELEVENLABS_API_KEY") = true ->
     env !! "ELEVENLABS_VOICE_ID" = Some voice -> nonempty voice = true ->
     env !! "ELEVENLABS_API_URL" = Some api ->
     elevenlabs w (stripSlash api +:+ "/text-to-speech/" +:+ voice) rest = Returns audio ->
     tts env w rest
     = (Returns (ReplyVoiceSource audio),
        [ElevenLabsPost (stripSlash api +:+ "/text-to-speech/" +:+ voice) rest]))
  /\ (forall model r out,
        Forall (request_failed w) (IO.trace (tts_elevenlabs env w rest)) ->
        Env.truthy_str (env !! "REPLICATE_API_KEY") = true ->
        env !! "REPLICATE_TTS_MODEL" = Some model -> nonempty model = true ->
        replicate w (VString model) (JObj [("text", JStr rest)]) = Returns r ->
        r <> JNull ->
        safeFirst (Js.get r "output") = out -> Js.truthy out = true ->
        tts env w rest
        = (Returns (ReplyVoiceUrl out),
           (IO.trace (tts_elevenlabs env w rest)
            ++ [ReplicatePost (VString model) (JObj [("text", JStr rest)])])%list)).
Proof.
  split.
  - intros api voice audio Hkey Hvoice Hv Hapi Haudio.
    unfold tts, tts_elevenlabs, callElevenLabsTTS.
    rewrite Hkey, Hvoice, Hapi. cbn [Env.truthy_str]. rewrite Hv. cbn [andb negb orb default].
    unfold id, IO.request. rewrite Haudio. reflexivity.
  - intros model r out Hfailed Hkey Hmodel Hm Hr Hnull Hout Htruthy.
    unfold tts. rewrite (tts_elevenlabs_none env w rest Hfailed).
    unfold tts_replicate, callReplicate.
    rewrite Hkey, Hmodel. cbn [Env.truthy_str Env.of_option]. rewrite Hm.
    cbn [andb negb]. unfold IO.request. rewrite Hr.
    unfold IO.bind at 3. rewrite (read_not_null r "output" Hnull).
    cbn [IO.ret IO.bind IO.catch app]. rewrite Hout, Htruthy. reflexivity.
Qed.

Lemma tts_prefers_elevenlabs_speaks :
  tts speech_env elevenlabs_speaks "selam"
  = (Returns (ReplyVoiceSource "AUDIO"),
     [ElevenLabsPost "https://api.elevenlabs.io/v1/text-to-speech/voice1" "selam"]).
Proof.
  apply (proj1 (tts_prefers_elevenlabs speech_env elevenlabs_speaks "selam")
           "https://api.elevenlabs.io/v1/" "voice1" "AUDIO"); reflexivity.
Defined.

(* ===================================================================== *)
(** ** Media *)
(* ===================================================================== *)

Lemma includes_In (modes : list string) (sub : string) :
  includes modes sub = true -> In sub modes.
Proof.
  unfold includes. intros H. apply bool_decide_eq_true in H.
  apply list_elem_of_In. exact H.
Qed.

Section MediaKind.
Variable env : gmap string string.
Variable w : world.

Lemma media_runway_kind (sub payload : string) :
  includes runwayModes sub = true ->
  holds (media_kind sub payload) (media_runway env w sub payload).
Proof.
  intros Hsub. unfold media_runway. destruct (runway_config env sub) as [endpoint model].
  apply (holds_bind (fun _ => True)); [apply holds_any|]. intros res _.
  apply (holds_bind (fun _ => True)); [apply holds_any|]. intros output _.
  destruct (Js.truthy (safeFirst output)) eqn:Hout; cbn [negb]; [|exact I].
  apply includes_In in Hsub. cbn in Hsub.
  destruct Hsub as [<- | [<- | [<- | [<- | [<- | [<- | []]]]]]]; cbn;
    repeat split; auto 10.
Qed.

Lemma media_replicate_kind (sub payload : string) :
  includes repModes sub = true ->
  holds (media_kind sub payload) (media_replicate env w sub payload).
Proof.
  intros Hsub. unfold media_replicate. destruct (negb _); [exact I|].
  apply (holds_bind (fun _ => True)); [apply holds_any|]. intros r _.
  apply (holds_bind (fun _ => True)); [apply holds_any|]. intros output _.
  destruct (Js.truthy (safeFirst output)) eqn:Hout; cbn [negb]; [|exact I].
  apply includes_In in Hsub. cbn in Hsub.
  destruct Hsub as [<- | [<- | [<- | [<- | [<- | []]]]]]; cbn;
    try (destruct (reply_text_cases (safeFirst output)) as [(text & _ & ->) | [_ ->]];
         exact I);
    repeat split; auto 10.
Qed.

End MediaKind.

(** X18. What a media request sends fits its submode: a photo only for
    [t2i], [flux] and [fixface], a video only for [t2v], [i2v], [v2v],
    [upscale], [act] and [burncaption], a document only for [recon3d],
    and never a voice message; the caption of a photo or video is the
    banner followed by the payload, and what is sent is the first,
    truthy, element of the provider's output. *)
Theorem media_reply_kind (env : gmap string string) (w : world) (parts : list string)
    (r : reply) :
  IO.result (media env w parts) = Returns r ->
  media_kind (toLowerCase (nth 1 parts EmptyString)) (join_space (drop 2 parts)) r.
Proof.
  intros Hr.
  assert (holds (media_kind (toLowerCase (nth 1 parts EmptyString))
                   (join_space (drop 2 parts))) (media env w parts)) as H.
  { unfold media. destruct (_ || _); [exact I|].
    apply holds_catch; [|intros; exact I].
    destruct (includes runwayModes _) eqn:Hrun; cbn [andb].
    - destruct (Env.truthy_str (env !! "RUNWAY_API_KEY")).
      + apply media_runway_kind. exact Hrun.
      + destruct (_ && _) eqn:Hrep; [|exact I].
        apply andb_prop in Hrep as [Hrep _]. apply media_replicate_kind. exact Hrep.
    - destruct (_ && _) eqn:Hrep; [|exact I].
      apply andb_prop in Hrep as [Hrep _]. apply media_replicate_kind. exact Hrep. }
  unfold holds in H. rewrite Hr in H. exact H.
Qed.

Lemma media_reply_kind_photo :
  IO.result (media runway_env runway_paints ["media"; "t2i"; "cat"])
  = Returns (ReplyPhoto (JStr "https://cdn.example/cat.png") (withPrefix "cat"))
  /\ media_kind "t2i" "cat" (ReplyPhoto (JStr "https://cdn.example/cat.png") (withPrefix "cat")).
Proof.
  split; [reflexivity|].
  apply (media_reply_kind runway_env runway_paints ["media"; "t2i"; "cat"]).
  reflexivity.
Defined.

(** X19. A Runway mode whose key and endpoint are configured and whose
    request is served: one request goes out, to the endpoint without its
    trailing slash, and the first element of the output comes back as a
    photo for [t2i] and as a video for the other modes, with the payload
    as caption; an output that is missing, empty or not an array gives
    the text "Runway returned no output." *)
Theorem media_runway_delivers (env : gmap string string) (w : world)
    (parts : list string) (endpoint : string) (res out : json) :
  nonempty (join_space (drop 2 parts)) = true ->
  includes runwayModes (toLowerCase (nth 1 parts EmptyString)) = true ->
  Env.truthy_str (env !! "RUNWAY_API_KEY") = true ->
  fst (runway_config env (toLowerCase (nth 1 parts EmptyString))) = Some endpoint ->
  runway w (stripSlash endpoint)
    (snd (runway_config env (toLowerCase (nth 1 parts EmptyString))))
    (runway_input (toLowerCase (nth 1 parts EmptyString)) (join_space (drop 2 parts)))
  = Returns res ->
  res <> JNull ->
  safeFirst (Js.get res "output") = out ->
  media env w parts
  = (Returns
       (if Js.truthy out then
          if String.eqb (toLowerCase (nth 1 parts EmptyString)) "t2i"
          then ReplyPhoto out (withPrefix (join_space (drop 2 parts)))
          else ReplyVideo out (withPrefix (join_space (drop 2 parts)))
        else ReplyText (withPrefix "Runway returned no output.")),
     [RunwayPost (stripSlash endpoint)
        (snd (runway_config env (toLowerCase (nth 1 parts EmptyString))))
        (runway_input (toLowerCase (nth 1 parts EmptyString)) (join_space (drop 2 parts)))]).
Proof.
  intros Hpayload Hsub Hkey Hendpoint Hres Hnull Hout.
  set (sub := toLowerCase (nth 1 parts EmptyString)) in *.
  set (payload := join_space (drop 2 parts)) in *.
  assert (nonempty sub = true) as Hne.
  { apply includes_In in Hsub. cbn in Hsub.
    destruct Hsub as [<- | [<- | [<- | [<- | [<- | [<- | []]]]]]]; reflexivity. }
  assert (String.eqb sub "flux" = false /\ String.eqb sub "fixface" = false) as [Hflux Hfix].
  { apply includes_In in Hsub. cbn in Hsub.
    destruct Hsub as [<- | [<- | [<- | [<- | [<- | [<- | []]]]]]]; split; reflexivity. }
  unfold media. fold sub payload. rewrite Hne, Hpayload, Hsub, Hkey. cbn [negb orb andb].
  unfold media_runway, callRunway.
  destruct (runway_config env sub) as [e model]. cbn [fst snd] in *. subst e.
  rewrite Hkey. cbn [negb]. unfold IO.request. rewrite Hres.
  cbn [IO.bind]. rewrite (read_not_null res "output" Hnull).
  cbn [IO.ret IO.bind app]. rewrite Hout, Hflux, Hfix, !orb_false_r.
  destruct (Js.truthy out); cbn [negb]; [|reflexivity].
  destruct (String.eqb sub "t2i"); reflexivity.
Qed.

Lemma media_runway_delivers_photo :
  media runway_env runway_paints ["media"; "t2i"; "cat"]
  = (Returns (ReplyPhoto (JStr "https://cdn.example/cat.png") (withPrefix "cat")),
     [RunwayPost "https://api.runwayml.com/v1/text_to_image" (Some "gen4_image")
        (JObj [("prompt", JStr "cat")])]).
Proof.
  apply (media_runway_delivers runway_env runway_paints ["media"; "t2i"; "cat"]
           "https://api.runwayml.com/v1/text_to_image"
           (JObj [("output", JArr [JStr "https://cdn.example/cat.png"])])
           (JStr "https://cdn.example/cat.png")); try reflexivity.
  discriminate.
Defined.

(** X20. A Replicate mode whose key and model are configured and whose
    request is served: one request goes out, and the first element of
    the output comes back as a photo for [flux] and [fixface], as a
    document for [recon3d], as a text for [caption] and as a video for
    [burncaption]; an output that is missing, empty or not an array
    gives the text "Replicate returned no output."  A caption that has
    no text gives the "Media error" reply with the [TypeError] of the
    coercion. *)
Theorem media_replicate_delivers (env : gmap string string) (w : world)
    (parts : list string) (model : string) (r out : json) :
  nonempty (join_space (drop 2 parts)) = true ->
  includes repModes (toLowerCase (nth 1 parts EmptyString)) = true ->
  Env.truthy_str (env !! "REPLICATE_API_KEY") = true ->
  replicate_media_model env (toLowerCase (nth 1 parts EmptyString)) = Some model ->
  nonempty model = true ->
  replicate w (VString model)
    (replicate_media_input (toLowerCase (nth 1 parts EmptyString)) (join_space (drop 2 parts)))
  = Returns r ->
  r <> JNull ->
  safeFirst (Js.get r "output") = out ->
  media env w parts
  = (Returns
       (if Js.truthy out then
          if String.eqb (toLowerCase (nth 1 parts EmptyString)) "flux"
             || String.eqb (toLowerCase (nth 1 parts EmptyString)) "fixface"
          then ReplyPhoto out (withPrefix (join_space (drop 2 parts)))
          else if String.eqb (toLowerCase (nth 1 parts EmptyString)) "recon3d"
          then ReplyDocument out
          else if String.eqb (toLowerCase (nth 1 parts EmptyString)) "caption"
          then match Js.toString out with
               | Some caption => ReplyText (withPrefix caption)
               | None =>
                   ReplyText (withPrefix
                     "Media error: Cannot convert object to primitive value")
               end
          else ReplyVideo out (withPrefix (join_space (drop 2 parts)))
        else ReplyText (withPrefix "Replicate returned no output.")),
     [ReplicatePost (VString model)
        (replicate_media_input (toLowerCase (nth 1 parts EmptyString))
           (join_space (drop 2 parts)))]).
Proof.
  intros Hpayload Hsub Hkey Hmodel Hm Hr Hnull Hout.
  set (sub := toLowerCase (nth 1 parts EmptyString)) in *.
  set (payload := join_space (drop 2 parts)) in *.
  assert (nonempty sub = true /\ includes runwayModes sub = false) as [Hne Hrun].
  { apply includes_In in Hsub. cbn in Hsub.
    destruct Hsub as [<- | [<- | [<- | [<- | [<- | []]]]]]; split; reflexivity. }
  unfold media. fold sub payload. rewrite Hne, Hpayload, Hrun, Hsub, Hkey.
  cbn [negb orb andb].
  unfold media_replicate, callReplicate. rewrite Hmodel, Hkey.
  cbn [Env.truthy_str Env.of_option]. rewrite Hm. cbn [negb].
  unfold IO.request. rewrite Hr.
  cbn [IO.bind]. rewrite (read_not_null r "output" Hnull).
  cbn [IO.ret IO.bind app]. rewrite Hout.
  destruct (Js.truthy out); cbn [negb]; [|reflexivity].
  destruct (String.eqb sub "flux" || String.eqb sub "fixface"); [reflexivity|].
  destruct (String.eqb sub "recon3d"); [reflexivity|].
  destruct (String.eqb sub "caption"); [|reflexivity].
  destruct (reply_text_cases out) as [(text & -> & ->) | [-> ->]]; reflexivity.
Qed.

Lemma media_replicate_delivers_caption :
  media caption_env replicate_captions ["media"; "Caption"; "https://v.example/a.mp4"]
  = (Returns (ReplyText (withPrefix "a cat on a mat")),
     [ReplicatePost (VString "captioner") (JObj [("video", JStr "https://v.example/a.mp4")])]).
Proof.
  apply (media_replicate_delivers caption_env replicate_captions
           ["media"; "Caption"; "https://v.example/a.mp4"] "captioner"
           (JObj [("output", JArr [JStr "a cat on a mat"])]) (JStr "a cat on a mat"));
    try reflexivity.
  discriminate.
Defined.

(** X21. A media mode whose provider key is set but whose own setting is
    missing makes no request: a Runway mode without its endpoint is
    answered with the [TypeError] of [endpoint.replace], through the
    "Media error" reply, and a Replicate mode without its model with
    "Replicate model not set for this mode." *)
Theorem media_missing_setting (env : gmap string string) (w : world) (parts : list string) :
  nonempty (join_space (drop 2 parts)) = true ->
  (includes runwayModes (toLowerCase (nth 1 parts EmptyString)) = true ->
   Env.truthy_str (env !! "RUNWAY_API_KEY") = true ->
   fst (runway_config env (toLowerCase (nth 1 parts EmptyString))) = None ->
   media env w parts
   = (Returns (ReplyText (withPrefix
        "Media error: Cannot read properties of undefined (reading 'replace')")), []))
  /\ (includes repModes (toLowerCase (nth 1 parts EmptyString)) = true ->
      Env.truthy_str (env !! "REPLICATE_API_KEY") = true ->
      Env.truthy_str (replicate_media_model env (toLowerCase (nth 1 parts EmptyString)))
      = false ->
      media env w parts
      = (Returns (ReplyText (withPrefix "Replicate model not set for this mode.")), [])).
Proof.
  intros Hpayload.
  set (sub := toLowerCase (nth 1 parts EmptyString)) in *.
  set (payload := join_space (drop 2 parts)) in *.
  split.
  - intros Hsub Hkey Hendpoint.
    assert (nonempty sub = true) as Hne.
    { apply includes_In in Hsub. cbn in Hsub.
      destruct Hsub as [<- | [<- | [<- | [<- | [<- | [<- | []]]]]]]; reflexivity. }
    unfold media. fold sub payload. rewrite Hne, Hpayload, Hsub, Hkey. cbn [negb orb andb].
    unfold media_runway, callRunway.
    destruct (runway_config env sub) as [e model]. cbn [fst] in Hendpoint. subst e.
    rewrite Hkey. reflexivity.
  - intros Hsub Hkey Hmodel.
    assert (nonempty sub = true /\ includes runwayModes sub = false) as [Hne Hrun].
    { apply includes_In in Hsub. cbn in Hsub.
      destruct Hsub as [<- | [<- | [<- | [<- | [<- | []]]]]]; split; reflexivity. }
    unfold media. fold sub payload. rewrite Hne, Hpayload, Hrun, Hsub, Hkey.
    cbn [negb orb andb]. unfold media_replicate. rewrite Hmodel. reflexivity.
Qed.

Lemma media_missing_setting_video :
  media runway_env offline ["media"; "t2v"; "a"; "cat"]
  = (Returns (ReplyText (withPrefix
       "Media error: Cannot read properties of undefined (reading 'replace')")), []).
Proof.
  apply (proj1 (media_missing_setting runway_env offline ["media"; "t2v"; "a"; "cat"] eq_refl));
    reflexivity.
Defined.

(* ===================================================================== *)
(** ** Replicate direct chat *)
(* ===================================================================== *)

(** X22. [/ai replicate <name> <prompt>] takes the model from the environment
    variable the user names, whichever it is.  When the variable is not
    set the reply says so and no request is made; when it is set, its
    value is sent to Replicate as the version, with the prompt, in one
    request, and the reply is the text of the first element of the output
    or, when there is none, the serialized response; an error of the
    request, a missing [REPLICATE_API_KEY] and a first element that has
    no text come back as "Replicate error". *)
Theorem replicate_direct_reply (env : gmap string string) (w : world)
    (parts : list string) :
  nonempty (nth 1 parts EmptyString) = true ->
  nonempty (join_space (drop 2 parts)) = true ->
  (Env.truthy (Env.index env (nth 1 parts EmptyString)) = false ->
   replicate_direct env w parts
   = (Returns (ReplyText (withPrefix ("No replicate model found in env as "
                                      +:+ nth 1 parts EmptyString))), []))
  /\ (forall model,
        env !! nth 1 parts EmptyString = Some model -> nonempty model = true ->
        (Env.truthy_str (env !! "REPLICATE_API_KEY") = false ->
         replicate_direct env w parts
         = (Returns (ReplyText (withPrefix "Replicate error: REPLICATE_API_KEY missing")), []))
        /\ (forall e,
              Env.truthy_str (env !! "REPLICATE_API_KEY") = true ->
              replicate w (VString model) (JObj [("prompt", JStr (join_space (drop 2 parts)))])
              = Throws e ->
              replicate_direct env w parts
              = (Returns (ReplyText (withPrefix ("Replicate error: " +:+ e))),
                 [ReplicatePost (VString model)
                    (JObj [("prompt", JStr (join_space (drop 2 parts)))])]))
        /\ (forall r,
              Env.truthy_str (env !! "REPLICATE_API_KEY") = true ->
              replicate w (VString model) (JObj [("prompt", JStr (join_space (drop 2 parts)))])
              = Returns r ->
              r <> JNull ->
              replicate_direct env w parts
              = (Returns (ReplyText (withPrefix
                   (if Js.truthy (safeFirst (Js.get r "output"))
                    then match Js.toString (safeFirst (Js.get r "output")) with
                         | Some out => out
                         | None => "Replicate error: Cannot convert object to primitive value"
                         end
                    else Json.stringify r))),
                 [ReplicatePost (VString model)
                    (JObj [("prompt", JStr (join_space (drop 2 parts)))])]))).
Proof.
  intros Hkeyname Hprompt. unfold replicate_direct. rewrite Hkeyname, Hprompt.
  cbn [negb orb]. split.
  - intros H. rewrite H. reflexivity.
  - intros model Hmodel Hm. unfold Env.index. rewrite Hmodel. cbn [Env.truthy]. rewrite Hm.
    cbn [negb]. unfold callReplicate. repeat split.
    + intros Hkey. rewrite Hkey. reflexivity.
    + intros e Hkey He. rewrite Hkey. cbn [negb]. unfold IO.request. rewrite He. reflexivity.
    + intros r Hkey Hr Hnull. rewrite Hkey. cbn [negb]. unfold IO.request. rewrite Hr.
      cbn [IO.bind]. rewrite (read_not_null r "output" Hnull), bind_ret_l.
      destruct (Js.truthy (safeFirst (Js.get r "output"))); [|reflexivity].
      destruct (reply_text_cases (safeFirst (Js.get r "output")))
        as [(text & -> & ->) | [-> ->]]; reflexivity.
Qed.

Lemma replicate_direct_reply_served :
  replicate_direct replicate_env replicate_captions ["replicate"; "MY_MODEL"; "hello"]
  = (Returns (ReplyText (withPrefix "a cat on a mat")),
     [ReplicatePost (VString "owner/model:1") (JObj [("prompt", JStr "hello")])]).
Proof.
  apply (proj2 (proj2 (proj2 (replicate_direct_reply replicate_env replicate_captions
                                ["replicate"; "MY_MODEL"; "hello"] eq_refl eq_refl)
                         "owner/model:1" eq_refl eq_refl))
           (JObj [("output", JArr [JStr "a cat on a mat"])])); try reflexivity.
  discriminate.
Defined.

(* ===================================================================== *)
(** ** The lookup modes *)
(* ===================================================================== *)



(* ===================================================================== *)
(** ** The model key of a chat request *)
(* ===================================================================== *)

Lemma lower_char_no_capital (c : ascii) :
  ((65 <=? N_of_ascii (lower_char c)) && (N_of_ascii (lower_char c) <=? 90))%N = false.
Proof.
  destruct c as [[] [] [] [] [] [] [] []]; vm_compute; reflexivity.
Qed.

Lemma toLowerCase_no_capital (s : string) : no_capital (toLowerCase s) = true.
Proof.
  induction s as [|c s IH]; [reflexivity|].
  cbn [toLowerCase no_capital]. rewrite lower_char_no_capital, IH. reflexivity.
Qed.

Lemma HF_MODEL_MAP_keys (env : gmap string string) (token : string) :
  Env.truthy (HF_MODEL_MAP env (toLowerCase token)) = true ->
  In (toLowerCase token) chat_model_keys.
Proof.
  pose proof (toLowerCase_no_capital token) as Hlow.
  set (k := toLowerCase token) in *. unfold HF_MODEL_MAP.
  repeat match goal with
         | |- context [if String.eqb k ?c then _ else _] =>
             destruct (String.eqb_spec k c) as [->|?]; [intros _; cbn; tauto|]
         end.
  unfold Env.inherited. destruct (bool_decide _) eqn:E; [|discriminate].
  intros _. apply bool_decide_eq_true in E. apply list_elem_of_In in E.
  cbn in E.
  repeat (destruct E as [E|E];
          [first [ rewrite <- E; cbn; tauto
                 | rewrite <- E in Hlow; discriminate Hlow ]|]).
  contradiction.
Qed.

(** X24. A chat request never ends up with the model key [gpt5], [gpt4] or
    [gpt35]: the key is [llama2] unless the first word, in lower case,
    names a truthy member of [HF_MODEL_MAP], which has no such member.
    So of the five Replicate chat models of the source only
    [REPLICATE_CHAT_MODEL_LLAMA2], [REPLICATE_CHAT_MODEL_MISTRAL] and the
    default [REPLICATE_CHAT_MODEL_GPT5] can be looked up;
    [REPLICATE_CHAT_MODEL_GPT4] and [REPLICATE_CHAT_MODEL_GPT35] never
    are. *)
Theorem chat_model_key_range (env : gmap string string) (parts : list string)
    (rest : string) :
  In (fst (chat_args env parts rest)) chat_model_keys
  /\ In (Env.or_val (replicate_chat_key (fst (chat_args env parts rest)))
           (VString "REPLICATE_CHAT_MODEL_GPT5"))
        chat_replicate_names.
Proof.
  assert (In (fst (chat_args env parts rest)) chat_model_keys) as H.
  { unfold chat_args. destruct (Env.truthy _) eqn:E; cbn [fst].
    - apply (HF_MODEL_MAP_keys env). exact E.
    - cbn. tauto. }
  split; [exact H|].
  cbn in H.
  repeat (destruct H as [H|H]; [rewrite <- H; cbn; tauto|]).
  contradiction.
Qed.

(* ===================================================================== *)
(** ** The configured time-to-live *)
(* ===================================================================== *)

Lemma span_digits_run (ds rest : string) :
  all_digits ds = true -> starts_with_digit rest = false ->
  JsonParse.span_digits (ds +:+ rest) = (ds, rest).
Proof.
  intros Hds Hrest. induction ds as [|c ds IH].
  - rewrite append_nil_l. destruct rest as [|c rest]; [reflexivity|].
    cbn in *. rewrite Hrest. reflexivity.
  - rewrite append_cons. cbn in *. apply andb_true_iff in Hds as [Hc Hds].
    rewrite Hc, (IH Hds). reflexivity.
Qed.

Lemma parseInt_digits_pos (negative : bool) (p : positive) (rest : string) :
  starts_with_digit rest = false ->
  parseInt_digits negative (NilZero.string_of_uint (Pos.to_uint p) +:+ rest)
  = Some (if negative then Z.neg p else Z.pos p).
Proof.
  intros Hrest. unfold parseInt_digits.
  pose proof (DecimalPos.Unsigned.to_uint_nonnil p) as Hnil.
  assert (NilZero.string_of_uint (Pos.to_uint p) = NilEmpty.string_of_uint (Pos.to_uint p)) as E
    by (destruct (Pos.to_uint p); [congruence | reflexivity ..]).
  rewrite E, (span_digits_run _ rest (all_digits_string_of_uint _) Hrest). cbn [fst].
  pose proof (NilEmpty.usu (Pos.to_uint p)) as Hu.
  destruct (NilEmpty.string_of_uint (Pos.to_uint p)) as [|c s] eqn:Es.
  - destruct (Pos.to_uint p); try congruence; discriminate Es.
  - rewrite Hu, of_uint_to_uint. destruct negative; reflexivity.
Qed.

Lemma of_Z_pos_start (p : positive) :
  exists c s, NilZero.string_of_uint (Pos.to_uint p) = String c s
    /\ JsonParse.is_digit c = true.
Proof.
  pose proof (DecimalPos.Unsigned.to_uint_nonnil p).
  destruct (Pos.to_uint p); [congruence | do 2 eexists; split; reflexivity ..].
Qed.

Lemma digit_plain (c : ascii) :
  JsonParse.is_digit c = true ->
  is_ws c = false /\ Ascii.eqb c "-" = false /\ Ascii.eqb c "+" = false.
Proof.
  destruct c as [[] [] [] [] [] [] [] []]; vm_compute; intros H;
    first [discriminate H | repeat split].
Qed.

Lemma parseInt_of_Z (n : Z) (rest : string) :
  starts_with_digit rest = false -> parseInt (of_Z n +:+ rest) = Some n.
Proof.
  intros Hrest. unfold of_Z. destruct n as [|p|p]; cbn [Z.to_int NilZero.string_of_int].
  - change (NilZero.string_of_uint Decimal.zero +:+ rest) with (String "0" rest).
    unfold parseInt. cbn [trimStart]. change (is_ws "0") with false. cbv iota.
    change (Ascii.eqb "0" "-") with false. change (Ascii.eqb "0" "+") with false. cbv iota.
    unfold parseInt_digits.
    pose proof (span_digits_run "0" rest eq_refl Hrest) as Hs.
    rewrite append_cons, append_nil_l in Hs. rewrite Hs. reflexivity.
  - destruct (of_Z_pos_start p) as (c & s & E & Hc).
    destruct (digit_plain c Hc) as (Hws & Hminus & Hplus).
    pose proof (parseInt_digits_pos false p rest Hrest) as H.
    unfold parseInt. rewrite E in *. rewrite append_cons in *.
    cbn [trimStart]. rewrite Hws, Hminus, Hplus. exact H.
  - change (String "-" (NilZero.string_of_uint (Pos.to_uint p)) +:+ rest)
      with (String "-" (NilZero.string_of_uint (Pos.to_uint p) +:+ rest)).
    unfold parseInt. cbn [trimStart]. change (is_ws "-") with false. cbv iota.
    change (Ascii.eqb "-" "-") with true. cbv iota.
    apply (parseInt_digits_pos true p rest Hrest).
Qed.

Lemma trimStart_ws (ws s : string) :
  trimStart ws = EmptyString -> trimStart (ws +:+ s) = trimStart s.
Proof.
  induction ws as [|c ws IH]; [reflexivity|].
  rewrite append_cons. cbn [trimStart]. destruct (is_ws c); [exact IH | discriminate].
Qed.

(** X25. The time-to-live the process runs with.  It is 10800 seconds when
    [MEMORY_TTL_SECONDS] is unset or empty.  A value that is the decimal
    text of an integer, with or without white space before it and
    anything but a digit after it (a unit, a fraction), gives that
    integer.  A value in which no digit follows the white space and the
    sign gives no number at all ([NaN]). *)
Theorem memory_ttl_setting (env : gmap string string) :
  (Env.truthy_str (env !! "MEMORY_TTL_SECONDS") = false -> MEMORY_TTL env = Some 10800)
  /\ (forall ws n rest,
        Z.abs n <= 2 ^ 53 ->
        trimStart ws = EmptyString -> starts_with_digit rest = false ->
        env !! "MEMORY_TTL_SECONDS" = Some (ws +:+ of_Z n +:+ rest) ->
        MEMORY_TTL env = Some n)
  /\ (forall c s,
        is_ws c = false -> JsonParse.is_digit c = false ->
        (Ascii.eqb c "-" || Ascii.eqb c "+" = true -> starts_with_digit s = false) ->
        env !! "MEMORY_TTL_SECONDS" = Some (String c s) ->
        MEMORY_TTL env = None).
Proof.
  unfold MEMORY_TTL, Env.or. repeat split.
  - intros H. rewrite H. reflexivity.
  - intros ws n rest _ Hws Hrest Henv. rewrite Henv.
    destruct (of_Z_start n) as (c & s & E & _).
    assert (Env.truthy_str (Some (ws +:+ of_Z n +:+ rest)) = true) as ->.
    { cbn. rewrite E. destruct ws; reflexivity. }
    cbn [default]. unfold id. unfold parseInt.
    rewrite (trimStart_ws ws _ Hws).
    apply (parseInt_of_Z n rest Hrest).
  - intros c s Hc Hd Hs Henv. rewrite Henv. cbn [Env.truthy_str nonempty default].
    unfold id, parseInt. cbn [trimStart]. rewrite Hc.
    unfold parseInt_digits.
    destruct (Ascii.eqb c "-"); [|destruct (Ascii.eqb c "+")].
    + specialize (Hs eq_refl).
      destruct s as [|c' s]; [reflexivity|]. cbn in Hs. cbn. rewrite Hs. reflexivity.
    + specialize (Hs eq_refl).
      destruct s as [|c' s]; [reflexivity|]. cbn in Hs. cbn. rewrite Hs. reflexivity.
    + cbn. rewrite Hd. reflexivity.
Qed.

Lemma memory_ttl_setting_hour : MEMORY_TTL ttl_env = Some 3600.
Proof.
  apply (proj1 (proj2 (memory_ttl_setting ttl_env)) " " 3600 "s");
    [vm_compute; discriminate | reflexivity ..].
Defined.

(* ===================================================================== *)
(** ** The URLs of the lookups *)
(* ===================================================================== *)

Lemma url_safe_app (s t : string) : url_safe (s +:+ t) = url_safe s && url_safe t.
Proof.
  induction s as [|c s IH]; [reflexivity|].
  rewrite append_cons. cbn [url_safe]. rewrite IH, andb_assoc. reflexivity.
Qed.

Lemma encode_unit_safe (c : ascii) : url_safe (encode_unit c) = true.
Proof. destruct c as [[] [] [] [] [] [] [] []]; vm_compute; reflexivity. Qed.

Lemma encodeURIComponent_safe (s : string) : url_safe (encodeURIComponent s) = true.
Proof.
  induction s as [|c s IH]; [reflexivity|].
  cbn [encodeURIComponent]. rewrite url_safe_app, encode_unit_safe, IH. reflexivity.
Qed.

Lemma decode_encode_unit (c : ascii) (rest : string) :
  decode_unit (encode_unit c +:+ rest) = Some (c, rest).
Proof. destruct c as [[] [] [] [] [] [] [] []]; reflexivity. Qed.

Lemma encode_unit_nonempty (c : ascii) (rest : string) :
  encode_unit c +:+ rest <> EmptyString.
Proof. destruct c as [[] [] [] [] [] [] [] []]; discriminate. Qed.

Lemma encodeURIComponent_inj (s t : string) :
  encodeURIComponent s = encodeURIComponent t -> s = t.
Proof.
  revert t. induction s as [|c s IH]; intros [|d t] H.
  - reflexivity.
  - cbn [encodeURIComponent] in H. symmetry in H. destruct (encode_unit_nonempty _ _ H).
  - cbn [encodeURIComponent] in H. destruct (encode_unit_nonempty _ _ H).
  - cbn [encodeURIComponent] in H.
    apply (f_equal decode_unit) in H. rewrite !decode_encode_unit in H.
    inversion H as [[Hc Hs]]. rewrite (IH t Hs). reflexivity.
Qed.

Lemma append_inv_tail (s t u : string) : s +:+ u = t +:+ u -> s = t.
Proof.
  revert t. induction s as [|c s IH]; intros [|d t] H.
  - reflexivity.
  - exfalso. apply (f_equal String.length) in H.
    rewrite append_nil_l, append_cons in H. cbn [String.length] in H.
    rewrite length_append in H. lia.
  - exfalso. apply (f_equal String.length) in H.
    rewrite append_nil_l, append_cons in H. cbn [String.length] in H.
    rewrite length_append in H. lia.
  - rewrite !append_cons in H. inversion H as [[Hc Hs]]. rewrite (IH t Hs). reflexivity.
Qed.

Lemma url_safe_occurs (s : string) (c : ascii) :
  url_safe s = true -> unreserved c || Ascii.eqb c "%" = false -> occurs c s = false.
Proof.
  intros Hs Hc. induction s as [|d s IH]; [reflexivity|].
  cbn [url_safe occurs] in *. apply andb_prop in Hs as [Hd Hs].
  rewrite (IH Hs), orb_false_r.
  destruct (Ascii.eqb_spec c d) as [->|]; [congruence | reflexivity].
Qed.

(** X26. What the user asks for cannot change the shape of the URL that is
    requested: in the URL of a Wikipedia or DuckDuckGo lookup the query
    appears encoded, as unreserved characters and percent signs only, so
    it holds no slash, question mark, ampersand, equals sign, hash or
    space. *)
Theorem lookup_urls_escape_query (query : string) :
  exists encoded,
    wiki_url query = "https://en.wikipedia.org/api/rest_v1/page/summary/" +:+ encoded
    /\ duck_url query
       = "https://api.duckduckgo.com/?q=" +:+ encoded +:+ "&format=json&no_html=1&skip_disambig=1"
    /\ url_safe encoded = true
    /\ Forall (fun c => occurs c encoded = false) ["/"; "?"; "&"; "="; "#"; " "]%char.
Proof.
  exists (encodeURIComponent query).
  split; [reflexivity|]. split; [reflexivity|].
  pose proof (encodeURIComponent_safe query) as Hsafe.
  split; [exact Hsafe|].
  repeat constructor; apply (url_safe_occurs _ _ Hsafe); reflexivity.
Qed.

(** X27. Two different queries are never sent to the same URL: the encoding
    of the query can be read back, so the response to a lookup depends on
    the URL exactly as it depends on the query. *)
Theorem lookup_urls_distinct (query query' : string) :
  (wiki_url query = wiki_url query' -> query = query')
  /\ (duck_url query = duck_url query' -> query = query').
Proof.
  split; intros H; apply encodeURIComponent_inj.
  - exact (append_inv_head _ _ _ H).
  - unfold duck_url in H. rewrite <- !append_assoc in H.
    apply append_inv_tail in H. exact (append_inv_head _ _ _ H).
Qed.

(* ===================================================================== *)
(** ** The input of a mode *)
(* ===================================================================== *)

Lemma message_tokens (text cmd mode body : string) :
  trim text = cmd +:+ " " +:+ mode +:+ " " +:+ body ->
  contains_space cmd = false -> contains_space mode = false ->
  drop 1 (split_space (trim text)) = mode :: split_space body
  /\ trim (join_space (split_space body)) = trim body.
Proof.
  intros Htext Hcmd Hmode. rewrite Htext.
  rewrite (split_space_token cmd _ Hcmd), (split_space_token mode _ Hmode).
  rewrite join_split_space. split; reflexivity.
Qed.

(** X28. The input of a mode is the message after the mode word, as it was
    typed: for a message [<command> <mode> <body>] the request of a
    [wiki] or [duck] lookup carries the body, trimmed at both ends and
    with the spacing between its words unchanged, and the store is left
    as it was. *)
Theorem lookup_query_is_message_body (env : gmap string string) (w : world) (ttl : Z)
    (text : string) (from : Z) (st : store) (cmd mode body : string) :
  trim text = cmd +:+ " " +:+ mode +:+ " " +:+ body ->
  contains_space cmd = false -> contains_space mode = false ->
  toLowerCase mode = "wiki" \/ toLowerCase mode = "duck" ->
  nonempty (trim body) = true ->
  snd (ai env w ttl text from st) = [lookup_request (toLowerCase mode) (trim body)]
  /\ snd (fst (ai env w ttl text from st)) = st.
Proof.
  intros Htext Hcmd Hmode Hlookup Hbody.
  destruct (message_tokens text cmd mode body Htext Hcmd Hmode) as [Htok Hrest].
  rewrite (ai_tokens env w ttl text from st mode (split_space body) Htok). cbv zeta.
  rewrite Hrest, Hbody. cbn [negb andb]. unfold dispatch, with_store.
  destruct Hlookup as [-> | ->].
  - change (String.eqb "wiki" "help") with false. change (String.eqb "wiki" "chat") with false.
    change (String.eqb "wiki" "wiki") with true. cbv iota.
    destruct (wikiSummary_run w (trim body)) as (v & Hrun & _).
    rewrite (bind_returns _ _ v _ Hrun).
    destruct (reply_text_cases v) as [(found & _ & ->) | [_ ->]]; split; reflexivity.
  - change (String.eqb "duck" "help") with false. change (String.eqb "duck" "chat") with false.
    change (String.eqb "duck" "wiki") with false. change (String.eqb "duck" "duck") with true.
    cbv iota.
    destruct (duckDuck_run w (trim body)) as (v & Hrun & _).
    rewrite (bind_returns _ _ v _ Hrun).
    destruct (reply_text_cases v) as [(found & _ & ->) | [_ ->]]; split; reflexivity.
Qed.

Lemma lookup_query_is_message_body_spaced :
  snd (ai ∅ offline 10800 "  /ai Wiki  Addis  Ababa " 7 fresh) = [WikiGet "Addis  Ababa"]
  /\ snd (fst (ai ∅ offline 10800 "  /ai Wiki  Addis  Ababa " 7 fresh)) = fresh.
Proof.
  apply (lookup_query_is_message_body ∅ offline 10800 "  /ai Wiki  Addis  Ababa " 7 fresh
           "/ai" "Wiki" " Addis  Ababa"); try reflexivity.
  left. reflexivity.
Defined.

(* ===================================================================== *)
(** ** The conversation after the time-to-live *)
(* ===================================================================== *)

Lemma put_then_expired_later (w w' : world) (ttl : Z) (chatId : Z) (h : json)
    (st : store) (ms : Z) :
  0 < ttl -> coherent st -> 0 <= clock st -> ttl * 1000 < ms ->
  fst (fst (getMemory w' chatId (Store.advance ms (fst (saveMemory w ttl chatId h st)))))
  = JArr [].
Proof.
  intros Httl Hcoh Hclock Hms.
  unfold saveMemory. destruct (usingRedis st && redis st) eqn:Huse.
  - unfold redis_set. destruct (redis_ok w (requests st) && (0 <? ttl)) eqn:Hok.
    + cbn [fst]. unfold getMemory.
      cbn [usingRedis redis Store.with_redisDb Store.sent Store.advance].
      rewrite Huse. unfold redis_get.
      cbn [requests redisDb clock Store.with_redisDb Store.sent Store.advance].
      destruct (redis_ok w' (S (requests st))).
      * rewrite lookup_insert_eq.
        replace (clock st + ms <=? clock st + ttl * 1000) with false
          by (symmetry; apply Z.leb_gt; lia).
        reflexivity.
      * unfold cache_read, cache_get.
        cbn [memCache Store.demote Store.sent Store.advance Store.with_redisDb].
        rewrite (Hcoh Huse), lookup_empty. reflexivity.
    + cbn [fst]. rewrite getMemory_demoted by reflexivity. cbn [fst].
      apply (cache_set_then_expired ttl Httl (memory_key chatId) h
               (Store.demote (Store.sent st)) ms); assumption.
  - cbn [fst].
    rewrite (getMemory_local w' chatId
               (Store.advance ms (cache_set ttl (memory_key chatId) h st)) Huse).
    cbn [fst]. apply cache_set_then_expired; assumption.
Qed.

(** X29. Once the time-to-live has run out the conversation starts anew: a
    chat request that comes more than [ttl] seconds after the one that
    saved the history reads an empty history, so that its transcript is
    the line of the new prompt alone, and its reply is made from the
    answer to that transcript. *)
Theorem chat_forgets_after_expiry (env : gmap string string) (w1 w2 : world) (ttl : Z)
    (parts1 parts2 : list string) (rest1 rest2 : string) (from : Z) (st st1 : store)
    (t1 ta1 : list event) (k1 p1 k2 p2 : string) (items : list json) (ms : Z)
    (c1 : string) (a1 : json) :
  0 < ttl ->
  chat_args env parts1 rest1 = (k1, p1) -> nonempty p1 = true ->
  chat_args env parts2 rest2 = (k2, p2) -> nonempty p2 = true ->
  getMemory w1 from st = (JArr items, st1, t1) ->
  IO.result (contextStr (JArr (items ++ [turn "user" (JStr p1)]))) = Returns c1 ->
  chat_answer env w1 k1 p1 c1 = (Returns a1, ta1) ->
  coherent st1 -> 0 <= clock st1 ->
  ttl * 1000 < ms ->
  fst (fst (getMemory w2 from
              (Store.advance ms (snd (fst (chat env w1 ttl parts1 rest1 from st))))))
  = JArr []
  /\ contextStr (JArr [turn "user" (JStr p2)]) = (Returns ("user: " +:+ p2), [])
  /\ fst (fst (chat env w2 ttl parts2 rest2 from
                 (Store.advance ms (snd (fst (chat env w1 ttl parts1 rest1 from st))))))
     = match chat_answer env w2 k2 p2 ("user: " +:+ p2) with
       | (Returns a2, _) => IO.result (reply_text a2)
       | (Throws e, _) => Throws e
       end.
Proof.
  intros Httl Ha1 Hp1 Ha2 Hp2 Hget Hc1 Hans1 Hcoh Hclock Hms.
  rewrite (chat_run env w1 ttl parts1 rest1 from st k1 p1 items st1 t1 c1 a1 ta1
             Ha1 Hp1 Hget Hc1 Hans1). cbn [fst snd].
  set (h1 := JArr (items ++ [turn "user" (JStr p1); turn "assistant" a1])).
  pose proof (put_then_expired_later w1 w2 ttl from h1 st1 ms Httl Hcoh Hclock Hms) as Hread.
  split; [exact Hread|]. split; [reflexivity|].
  destruct (getMemory w2 from (Store.advance ms (fst (saveMemory w1 ttl from h1 st1))))
    as [[mem s2] t2] eqn:Hget2.
  cbn [fst] in Hread. subst mem.
  assert (IO.result (contextStr (JArr ([] ++ [turn "user" (JStr p2)])))
          = Returns ("user: " +:+ p2)) as Hc2 by reflexivity.
  destruct (chat_answer env w2 k2 p2 ("user: " +:+ p2)) as [[e|a2] ta2] eqn:Hans2.
  - rewrite (chat_run_throws env w2 ttl parts2 rest2 from _ k2 p2 [] s2 t2 _ e ta2
               Ha2 Hp2 Hget2 Hc2 Hans2). reflexivity.
  - rewrite (chat_run env w2 ttl parts2 rest2 from _ k2 p2 [] s2 t2 _ a2 ta2
               Ha2 Hp2 Hget2 Hc2 Hans2). reflexivity.
Qed.

Lemma chat_forgets_after_expiry_next_day :
  fst (fst (getMemory offline 7
              (Store.advance 86400000
                 (snd (fst (chat space_env space_says_four 10800
                              ["chat"; "What"; "is"; "2+2?"] "What is 2+2?" 7 fresh))))))
  = JArr []
  /\ contextStr (JArr [turn "user" (JStr "twice that?")])
     = (Returns ("user: " +:+ "twice that?"), [])
  /\ fst (fst (chat space_env offline 10800 ["chat"; "twice"; "that?"] "twice that?" 7
                 (Store.advance 86400000
                    (snd (fst (chat space_env space_says_four 10800
                                 ["chat"; "What"; "is"; "2+2?"] "What is 2+2?" 7 fresh))))))
     = Returns (ReplyText (withPrefix lookups_failed_answer)).
Proof.
  apply (chat_forgets_after_expiry space_env space_says_four offline 10800
           ["chat"; "What"; "is"; "2+2?"] ["chat"; "twice"; "that?"]
           "What is 2+2?" "twice that?" 7 fresh fresh []
           [HfSpacePost "https://belaynish.hf.space/run/predict" "user: What is 2+2?"]
           "llama2" "What is 2+2?" "llama2" "twice that?" [] 86400000
           "user: What is 2+2?" (JStr "4"));
    try reflexivity; try lia.
  - intros _. reflexivity.
  - vm_compute. discriminate.
Defined.

(* ===================================================================== *)
(** ** The number of requests of a command *)
(* ===================================================================== *)




Lemma at_most_le {A : Type} (n n' : nat) (m : IO A) :
  at_most n m -> (n <= n')%nat -> at_most n' m.
Proof. unfold at_most. lia. Qed.






Section RequestCount.
Variable env : gmap string string.
Variable w : world.
Variable ttl : Z.










End RequestCount.

